(* ===== verification/_CoqProject ===== *)
-Q . S2P
Prelude.v
PyStr.v
TreeLines.v
TreeAlign.v
TreeGrowth.v
TreeHeap.v
PyInt.v
Loop.v
LoopMachine.v
LoopFloat.v
PyFloatRepr.v
LoopMain.v
LazyProperty.v
