(* ===== verification/Prelude.v ===== *)
(** * PythonToolkit: a verification development

    The repository holds three independent Python modules, none of which
    calls another:
    - src/printTree.py: [treeLines(node, getInfo)] renders a tree,
      given by a callback returning a node's label and children, as a
      block of equal-width text lines; [printTree] prints the block; the
      [__main__] block builds a tree of [TreeNode] objects and prints it;
    - src/Loop.py: the class [Loop], a helper for C-like [while] loops
      ([start], [next], [loop], [until], [up], [down], [upTo],
      [downTo]) whose arithmetic operators act on the loop's value;
    - src/LazyProperty.py: the data descriptor [Prop], a class attribute
      with a value and an optional [lazy] initialiser run on first read.

    ** Files, in dependency order

    - Prelude.v (this file): Python exceptions [pyexc] and the error
      monad [res] with the notation [x <- c ;; k] (scope [py_scope]);
      [mapM] for a list comprehension whose elements may raise; models
      of the builtins [sum], [max], [range], subscripting and [list * n];
      the hint databases [pyres] and [pylen], the tactic [pyarith] for
      floor division, modulo and the parity bit [x & y & 1]; generic
      lemmas on lists, [Forall2] and [list_max].
    - PyStr.v: a [str] is a [list ascii]; [str.center] with CPython's
      left-bias rule, [str.index], [sep.join], [c * n], [s[::-1]], and
      the columns of the bars of a line, with their lemmas.
    - TreeLines.v: printTree.py.  [layout] is lines 42-61 of
      [treeLines] once the children's blocks are known, [treeLines] the
      recursive function itself, [printTree] the driver (lines 63-65);
      [tree] and [render] the instance on finite rose trees; the
      [TreeNode] heap, [new_TreeNode] ([TreeNode.__init__]) and
      [demo_main] (the [__main__] block).  The class [RankedInfo] is the
      interface a callback meets when its nodes have a rank that drops
      from parent to child; [node_block] states the columns of a node's
      block, and [layout_node] shows the [index] arithmetic computes it.
    - TreeAlign.v: where the bars and labels of a rendered node sit.
    - TreeGrowth.v: [add_child], hanging a subtree at a path of child
      indices, and the growth of the block it causes; the bounds on a
      block's size in terms of its labels, nodes and depth.
    - TreeHeap.v: [build], the [TreeNode(label, parent)] calls that make
      a rose tree into objects, and [repr], the objects reachable from
      an address forming a tree.
    - PyInt.v: the builtins [str(n)] of an int (Rocq's decimal
      conversion [Z.to_int] printed by [DecimalString]) and [int(s)] of
      a string ([strip()], an optional sign, digits with single
      underscores between them, [ValueError] otherwise).
    - Loop.v: Section [Loop] over the value type; the record [loop]
      holds [_firstPass] and [_value], each method is a function of the
      state, [run_while] runs [while header: body], and [c_for] is the C
      loop the idiom stands for; the operators act on the value, [str]
      and [int] through PyInt, and [@] through the class [MatmulAttr],
      the lookup of a value's [__matmul__] method.
    - LoopMachine.v: the method calls of Loop.py as a type [call],
      [exec] one call on the state and [exec_all] a sequence of them;
      reusing one object for a second loop.
    - LoopFloat.v: a [Loop] over Python numbers, ints or IEEE binary64
      floats (Rocq's primitive [float]): [float()], [int()] of a float
      (truncation of [m * 2^e] read through [Prim2SF]), true division,
      [**] on ints for every exponent (a negative one through CPython's
      [float_pow]) and the second demo.
    - PyFloatRepr.v: [repr] of a float, the shortest digits that read
      back (searched over 1 to 17 significant digits, reading back
      with SpecFloat's rounding) laid out as CPython's
      [format_float_short] does.
    - LoopMain.v: [print] and the standard output of Loop.py's
      [__main__] block as a list of lines.
    - LazyProperty.v: a [world] is the class's table of descriptors (a
      [gmap]) and the instances' dictionaries; [get] is attribute
      reading through [__get__], [set_attr] assignment through
      [__set__], and [run] a script of reads and assignments.

    ** What the theorems show

    - printTree: every line of a rendered tree with visible labels has
      the width [max(sum(widths) + 2k - 1, len(label))] of lines 43-44
      and the block has the expected height (C1); [printTree] prints
      those lines with a budget above the depth, and nothing at all,
      raising [RecursionError], with a smaller one (C2); [treeLines]
      never raises on a finite tree (C4) and, driven by any ranked
      callback, equals [render] once its budget exceeds the depth (C5);
      the bars of the links line sit over the middles of the children's
      labels and the span line's bar under the middle of the parent's
      label (C3); a cycle raises [RecursionError] (C6); trees built by
      [TreeNode] are finite, so [printTree] on them returns (C7, C8; the
      witness of C7 is the [__main__] block, which prints the ten lines
      of the file's header comment); under an empty label [str.index]
      finds the label at column 0 and the span line always overruns the
      block (C10); adding a subtree never makes the block narrower or
      shorter (C26); a block's width lies between its longest label and
      the total length of its labels plus two columns per node, and its
      height between [2d+1] and [3d+1] for depth [d] (C31); building a
      tree of [TreeNode] objects and reading it back through the
      callback gives the tree (C28), and [printTree] prints the same
      over the objects as over the tree (C29).
    - Loop: [while i.start(a).next(f(i)).loop(c(i))] refines the C loop
      [for (x = a; c(x); x = f(x))] (C11), and
      [while i.next(f(i)).until(c(i))] the loop
      [for (x = v0; !c(x); x = f(x))] (C13); [upTo] is [next] then
      [loop] (C12); [upTo] loops print a [range] or never end (C14,
      C15), [downTo] loops a descending [range] (C36); [str] of a
      [Loop] holding [float(i)] is [str(i)] followed by [.0] for
      [0 < |i| < 10^15], the proof following the search for the
      shortest digits of [repr] (C16); [//], [%], [divmod] and the
      shifts raise Python's exceptions and otherwise compute Python's
      results (C24, C25); [int(str(i))] is [int(i)] for every int and
      [int] of digitless text raises [ValueError] (C32);
      [int(float(i))] is [int(i)] up to [2^53], the proof following
      [binary_normalize] to a 53-bit mantissa, and [int] of an infinity
      or a NaN raises (C33); [(±2^j) ** -k] is the exact float
      [±2^(-jk)], the proof following SpecFloat's division core to a
      remainder of zero (C9); [@] and its reflection keep the operand
      order and raise [AttributeError] on an int value
      ([loop_matmul_order]).
    - LoopMachine: over any sequence of method calls, [_firstPass]
      stays [True] exactly while every call is [start] (C19), so a
      [Loop] object is good for one loop: a second [while] over it
      resumes the old sequence instead of starting over (C35).
    - LazyProperty: the statements of the [__main__] block print
      [q + 1] and then [v] for any values [q] and [v] assigned, and
      raise nothing (C17); an assignment before the first read is lost
      to every later script (C18), proved with the equivalence [agree]
      that relates worlds differing only in the stored value of a
      pending attribute and the [Proper] instances showing reads,
      assignments and scripts respect it; an assignment is stored on
      the descriptor, the same whichever instance makes it, and read
      by all instances once no [lazy] is pending (C20); [lazy] runs
      once (C21); a [lazy] that reads its own attribute raises
      [RecursionError] (C22); a read attribute stays read (C23); in the
      usage example of the module comment the title is computed once,
      from the name at the first read, and the name is shared, for any
      names (C27); a class typed with ints stays so and never raises
      [TypeError] (C30); reading on the class a [Prop] whose [lazy]
      reads [self] calls it on [None], raises and leaves the [lazy]
      pending (C34).

    ** Fuel and integers

    Recursion is bounded by explicit fuel that plays the part of
    Python's recursion limit: [treeLines] fails with [RecursionError]
    when its fuel runs out, and C5 shows any fuel above the tree's depth
    gives the full result (the demo tree has depth 3; [demo_main] uses
    1000, Python's default limit).  [run_while] counts header
    evaluations and returns [None] when they run out; C14 and C36 give
    the exact count that suffices and C15 shows no count does for a
    step [<= 0].  [get] bounds nested [__get__] calls (1000, Python's
    default limit, for the [__main__] block); C17 and C27 hold for
    every budget of at least the two nested reads they make.  Python's
    integers are unbounded, so they are [Z] throughout.  [repr] tries
    1 to 17 significant digits: 17 always read back for a binary64
    float (a property of the format that is not proved here; C16
    proves the search ends where it should for integral values below
    [10^15]).  [main_stdout] allows 100 header evaluations per loop,
    which is more than the six demos need (the longest, the fourth,
    evaluates its header 22 times).

    ** Not modelled

    Writing to standard output: [printTree] returns the printed lines,
    which is exact since the block is built before the first [print].
    C's [pow], which [float_pow] calls for a negative exponent, is
    taken as correctly rounded: glibc documents its [pow] as within
    about half a unit in the last place, and CPython's results agreed
    with the model on every case checked, exact powers of two (as in
    C9), subnormal results and underflows to zero among them.  [**] with a float operand, [int()] of Unicode digits or
    with a base.
    Int-by-int true division and int-with-float comparison are
    Python's for ints of magnitude at most [2^53] (LoopFloat.v says why).  A [lazy]
    function is a sum of attributes and constants, which covers the
    demo.  Strings are ASCII.  The errors CPython raises when a result
    does not fit in memory (a shift by an astronomically large count)
    are not modelled, nor are the attributes [None] itself has (such
    as [__class__]), which a [lazy] run on the class could read. *)

From Stdlib Require Import List Arith ZArith Lia Bool.
Import ListNotations.

(** ** Python exceptions and the error monad

    The three Python files raise exceptions rather than return error
    codes.  A computation that may raise is modelled as a value of
    [res A]: [Ok a] for a normal return, [Err e] for a raised exception
    of class [e].  [RecursionError] also stands for running out of the
    recursion budget (the fuel) of a recursive function. *)

Inductive pyexc : Type :=
| ValueError
| IndexError
| TypeError
| AttributeError
| RecursionError
| ZeroDivisionError
| OverflowError.

Inductive res (A : Type) : Type :=
| Ok (a : A)
| Err (e : pyexc).
Arguments Ok {A} a.
Arguments Err {A} e.

Definition pyexc_eq_dec (e1 e2 : pyexc) : {e1 = e2} + {e1 <> e2}.
Proof. decide equality. Defined.

Declare Scope py_scope.
Delimit Scope py_scope with py.

Notation "x <- c ;; k" :=
  (match c with Ok x => k | Err e => Err e end)
  (at level 60, c at next level, right associativity) : py_scope.

Open Scope py_scope.

(** A Python list comprehension [[f(x) for x in l]] whose body may
    raise: the elements are computed left to right and the first
    exception stops the comprehension. *)
Fixpoint mapM {A B : Type} (f : A -> res B) (l : list A) : res (list B) :=
  match l with
  | [] => Ok []
  | x :: xs => y <- f x ;; ys <- mapM f xs ;; Ok (y :: ys)
  end.

(** Python's [sum] over a list of ints. *)
Definition py_sum (l : list Z) : Z := fold_right Z.add 0%Z l.

(** Python's [max] over a list of ints: [ValueError] on an empty list. *)
Definition py_max (l : list Z) : res Z :=
  match l with
  | [] => Err ValueError
  | x :: xs => Ok (fold_left Z.max xs x)
  end.

(** [range(n)] for an int [n] (empty when [n <= 0]). *)
Definition py_range (n : Z) : list Z := map Z.of_nat (seq 0 (Z.to_nat n)).

(** [l[0]] and [l[i]] for [0 <= i]: [IndexError] out of range. *)
Definition py_getitem {A : Type} (l : list A) (i : Z) : res A :=
  if (i <? 0)%Z then Err IndexError
  else match nth_error l (Z.to_nat i) with
       | Some x => Ok x
       | None => Err IndexError
       end.

(** [l * n] for a list and an int: [n] copies, none when [n <= 0]. *)
Definition py_list_mul {A : Type} (l : list A) (n : Z) : list A :=
  concat (repeat l (Z.to_nat n)).

(** Python's integer [a // b], [a % b] and [divmod(a, b)]: floor
    division and the remainder that takes the divisor's sign, which are
    [Z.div] and [Z.modulo]; a zero divisor raises [ZeroDivisionError]. *)
Definition py_floordiv (a b : Z) : res Z :=
  if (b =? 0)%Z then Err ZeroDivisionError else Ok (a / b)%Z.

Definition py_mod (a b : Z) : res Z :=
  if (b =? 0)%Z then Err ZeroDivisionError else Ok (a mod b)%Z.

Definition py_divmod (a b : Z) : res (Z * Z) :=
  q <- py_floordiv a b ;; r <- py_mod a b ;; Ok (q, r).

(** [a << n] and [a >> n] on unbounded integers ([>>] rounds down); a
    negative count raises [ValueError]. *)
Definition py_lshift (a n : Z) : res Z :=
  if (n <? 0)%Z then Err ValueError else Ok (Z.shiftl a n).

Definition py_rshift (a n : Z) : res Z :=
  if (n <? 0)%Z then Err ValueError else Ok (Z.shiftr a n).

(** ** Automation shared by the components *)

Create HintDb pyres.
Create Rewrite HintDb pylen.

Ltac inv H := inversion H; subst; clear H.

(** Split every [match] on a [res] value in a hypothesis. *)
Ltac res_destr :=
  repeat match goal with
  | H : context [match ?c with Ok _ => _ | Err _ => _ end] |- _ =>
      let E := fresh "E" in destruct c eqn:E; try discriminate
  end.

(** ** Generic lemmas on the error monad *)

Lemma mapM_Ok_iff {A B : Type} (f : A -> res B) (l : list A) (l' : list B) :
  mapM f l = Ok l' <-> Forall2 (fun x y => f x = Ok y) l l'.
Proof.
  revert l'; induction l as [|x xs IH]; intros l'; simpl.
  - split; [intros H; inv H; constructor | intros H; inv H; reflexivity].
  - split.
    + intros H. destruct (f x) eqn:Ef; try discriminate.
      destruct (mapM f xs) eqn:Em; try discriminate. inv H.
      constructor; [assumption | apply IH; reflexivity].
    + intros H. inv H. rewrite H2. apply IH in H4. rewrite H4. reflexivity.
Qed.

Lemma mapM_Forall2_eq {A A' B : Type} (f : A -> res B) (g : A' -> res B) (l1 : list A) (l2 : list A') :
  Forall2 (fun a b => f a = g b) l1 l2 -> mapM f l1 = mapM g l2.
Proof. induction 1 as [|a b l1 l2 Hab _ IH]; simpl; [reflexivity|]. rewrite Hab, IH. reflexivity. Qed.

Lemma mapM_length {A B : Type} (f : A -> res B) (l : list A) (l' : list B) :
  mapM f l = Ok l' -> length l' = length l.
Proof. intros H%mapM_Ok_iff. symmetry. eapply Forall2_length; eassumption. Qed.

Lemma mapM_total {A B : Type} (f : A -> res B) (g : A -> B) (l : list A) :
  (forall x, In x l -> f x = Ok (g x)) -> mapM f l = Ok (map g l).
Proof.
  induction l as [|x xs IH]; intros H; simpl; [reflexivity|].
  rewrite (H x (or_introl eq_refl)), IH; [reflexivity|].
  intros y Hy. apply H. right. exact Hy.
Qed.

Lemma mapM_ext_in {A B : Type} (f g : A -> res B) (l : list A) :
  (forall x, In x l -> f x = g x) -> mapM f l = mapM g l.
Proof.
  induction l as [|x xs IH]; intros H; simpl; [reflexivity|].
  rewrite (H x (or_introl eq_refl)), IH; [reflexivity|].
  intros y Hy. apply H. right. exact Hy.
Qed.

Lemma mapM_map {A B C : Type} (f : B -> res C) (g : A -> B) (l : list A) :
  mapM f (map g l) = mapM (fun x => f (g x)) l.
Proof. induction l as [|x xs IH]; simpl; [reflexivity|]. rewrite IH. reflexivity. Qed.

Lemma mapM_exists {A B : Type} (f : A -> res B) (l : list A) :
  (forall x, In x l -> exists y, f x = Ok y) -> exists l', mapM f l = Ok l'.
Proof.
  induction l as [|x xs IH]; intros H; simpl; [eauto|].
  destruct (H x (or_introl eq_refl)) as [y ->].
  destruct IH as [ys ->]; [intros z Hz; apply H; right; exact Hz|]. eauto.
Qed.

Lemma mapM_Forall_ok {A B : Type} (f : A -> res B) (P : B -> Prop) (l : list A) :
  Forall (fun x => exists y, f x = Ok y /\ P y) l ->
  exists l', mapM f l = Ok l' /\ Forall P l' /\ length l' = length l.
Proof.
  induction 1 as [|x xs Hx _ IH]; simpl; [eauto|].
  destruct Hx as [y [Hy HP]], IH as [ys [Hys [HPs Hlen]]]. rewrite Hy, Hys. exists (y :: ys). simpl. auto.
Qed.

Lemma mapM_Forall2 {A B : Type} (f : A -> res B) (R : A -> B -> Prop) (l : list A) :
  Forall (fun x => exists y, f x = Ok y /\ R x y) l ->
  exists l', mapM f l = Ok l' /\ Forall2 R l l'.
Proof.
  induction 1 as [|x xs Hx _ IH]; simpl; [eauto|].
  destruct Hx as [y [Hy HR]], IH as [ys [Hys HRs]]. rewrite Hy, Hys. eauto.
Qed.

(** A comprehension whose body either returns or raises [e], and raises
    [e] on one element at least, raises [e]. *)
Lemma mapM_first_err {A B : Type} (f : A -> res B) (l : list A) (e : pyexc) :
  (forall x, In x l -> (exists y, f x = Ok y) \/ f x = Err e) ->
  (exists x, In x l /\ f x = Err e) -> mapM f l = Err e.
Proof.
  induction l as [|x xs IH]; intros Hall [z [Hz Hfz]]; [destruct Hz|]. simpl.
  destruct (Hall x (or_introl eq_refl)) as [[y Hy] | Hy]; rewrite Hy; [|reflexivity].
  destruct Hz as [->|Hz]; [congruence|].
  rewrite IH; [reflexivity | intros w Hw; apply Hall; right; exact Hw | eauto].
Qed.

(** The first exception of a comprehension: if the body raises [e] on
    every element and the list is not empty, the comprehension raises
    [e]. *)
Lemma mapM_all_Err {A B : Type} (f : A -> res B) (l : list A) (e : pyexc) :
  l <> [] -> (forall x, In x l -> f x = Err e) -> mapM f l = Err e.
Proof.
  destruct l as [|x xs]; intros Hne H; [congruence|]. simpl.
  rewrite (H x (or_introl eq_refl)). reflexivity.
Qed.

(** ** Generic lemmas on Python's list builtins *)

Lemma py_sum_cons (x : Z) (l : list Z) : py_sum (x :: l) = (x + py_sum l)%Z.
Proof. reflexivity. Qed.

Lemma py_sum_app (l1 l2 : list Z) : py_sum (l1 ++ l2) = (py_sum l1 + py_sum l2)%Z.
Proof. induction l1 as [|x l1 IH]; simpl; [reflexivity | unfold py_sum in *; lia]. Qed.

Lemma py_sum_nonneg (l : list Z) : Forall (fun x => 0 <= x)%Z l -> (0 <= py_sum l)%Z.
Proof. induction 1; simpl; lia. Qed.

Lemma py_sum_map_le {A : Type} (f g : A -> Z) (l : list A) :
  Forall (fun x => f x <= g x)%Z l -> (py_sum (map f l) <= py_sum (map g l))%Z.
Proof. induction 1; simpl; lia. Qed.

Lemma py_sum_map_in {A : Type} (f : A -> Z) (l : list A) (x : A) :
  Forall (fun y => 0 <= f y)%Z l -> In x l -> (f x <= py_sum (map f l))%Z.
Proof.
  induction 1 as [|y l Hy Hl IH]; intros Hin; [destruct Hin|]. destruct Hin as [<-|Hx]; simpl.
  - pose proof (py_sum_nonneg (map f l) ltac:(apply Forall_map; exact Hl)). lia.
  - specialize (IH Hx). lia.
Qed.

Lemma fold_left_max_ge (l : list Z) (x : Z) :
  (x <= fold_left Z.max l x)%Z /\ Forall (fun y => y <= fold_left Z.max l x)%Z l.
Proof.
  revert x; induction l as [|y ys IH]; intros x; simpl; [split; [lia | constructor]|].
  destruct (IH (Z.max x y)) as [H1 H2]. split; [lia|]. constructor; [lia | exact H2].
Qed.

Lemma fold_left_max_in (l : list Z) (x : Z) :
  fold_left Z.max l x = x \/ In (fold_left Z.max l x) l.
Proof.
  revert x; induction l as [|y ys IH]; intros x; simpl; [left; reflexivity|].
  destruct (IH (Z.max x y)) as [->|H]; [|right; right; exact H].
  destruct (Z.max_spec x y) as [[_ ->]|[_ ->]]; [right; left; reflexivity | left; reflexivity].
Qed.

Lemma py_range_length (n : Z) : length (py_range n) = Z.to_nat n.
Proof. unfold py_range. rewrite length_map, length_seq. reflexivity. Qed.

Lemma py_list_mul_length {A : Type} (l : list A) (n : Z) :
  length (py_list_mul l n) = (Z.to_nat n * length l)%nat.
Proof.
  unfold py_list_mul. induction (Z.to_nat n) as [|m IH]; simpl; [reflexivity|].
  rewrite length_app, IH. lia.
Qed.

Lemma py_list_mul_singleton {A : Type} (x : A) (n : Z) :
  py_list_mul [x] n = repeat x (Z.to_nat n).
Proof. unfold py_list_mul. induction (Z.to_nat n) as [|m IH]; simpl; congruence. Qed.

Lemma py_getitem_ok {A : Type} (l : list A) (i : Z) :
  (0 <= i < Z.of_nat (length l))%Z -> exists x, py_getitem l i = Ok x.
Proof.
  intros H. unfold py_getitem. replace (i <? 0)%Z with false by lia.
  destruct (nth_error l (Z.to_nat i)) eqn:E; [eauto|].
  apply nth_error_None in E. lia.
Qed.

Lemma py_max_spec (x : Z) (l : list Z) :
  exists m, py_max (x :: l) = Ok m /\ Forall (fun y => y <= m)%Z (x :: l) /\ In m (x :: l).
Proof.
  exists (fold_left Z.max l x). split; [reflexivity|].
  destruct (fold_left_max_ge l x) as [H1 H2]. split; [constructor; assumption|].
  destruct (fold_left_max_in l x) as [->|H]; [left; reflexivity | right; exact H].
Qed.

Lemma py_range_in (n i : Z) : In i (py_range n) -> (0 <= i < n)%Z.
Proof.
  unfold py_range. intros H. apply in_map_iff in H. destruct H as [k [<- Hk]].
  apply in_seq in Hk. lia.
Qed.

Lemma py_getitem_nth {A : Type} (l : list A) (i : nat) (d : A) :
  (i < length l)%nat -> py_getitem l (Z.of_nat i) = Ok (nth i l d).
Proof.
  intros H. unfold py_getitem. replace (Z.of_nat i <? 0)%Z with false by lia.
  rewrite Nat2Z.id, (nth_error_nth' l d H). reflexivity.
Qed.

Lemma list_max_gt (l : list nat) (n : nat) :
  n < list_max l -> exists x, In x l /\ n < x.
Proof.
  induction l as [|x xs IH]; simpl; [lia|]. intros H.
  destruct (Nat.le_gt_cases (list_max xs) x) as [Hle|Hgt].
  - exists x. split; [left; reflexivity | lia].
  - destruct IH as [y [Hy Hny]]; [lia|]. exists y. split; [right; exact Hy | exact Hny].
Qed.

Lemma list_max_in_le (l : list nat) (x : nat) : In x l -> x <= list_max l.
Proof.
  intros H. pose proof (proj1 (list_max_le l (list_max l)) (le_n _)) as Hf.
  rewrite Forall_forall in Hf. auto.
Qed.

Lemma list_max_in (l : list nat) : l <> [] -> In (list_max l) l.
Proof.
  induction l as [|x xs IH]; intros H; [congruence|]. simpl.
  destruct xs as [|y ys]; [left; simpl; lia|].
  destruct (Nat.le_gt_cases (list_max (y :: ys)) x) as [Hle|Hgt].
  - left. lia.
  - right. replace (Nat.max x (list_max (y :: ys))) with (list_max (y :: ys)) by lia.
    apply IH. discriminate.
Qed.

(** [max] over lengths is the largest length. *)
Lemma py_max_of_nat (l : list nat) :
  l <> [] -> py_max (map Z.of_nat l) = Ok (Z.of_nat (list_max l)).
Proof.
  destruct l as [|x xs]; intros Hne; [congruence|]. simpl map.
  destruct (py_max_spec (Z.of_nat x) (map Z.of_nat xs)) as [m [-> [Hge Hin]]]. f_equal.
  rewrite <- map_cons in Hge, Hin. apply in_map_iff in Hin. destruct Hin as [y [<- Hy]].
  f_equal. apply Nat.le_antisymm; [apply list_max_in_le, Hy|].
  apply list_max_le, Forall_forall. intros z Hz.
  rewrite Forall_forall in Hge. specialize (Hge (Z.of_nat z) (in_map _ _ _ Hz)). lia.
Qed.

Lemma py_sum_ge_last (l : list Z) :
  Forall (fun x => 0 <= x)%Z l -> (last l 0 <= py_sum l)%Z.
Proof.
  induction 1 as [|x xs Hx Hxs IH]; simpl; [lia|].
  destruct xs; [simpl; lia|]. pose proof (py_sum_nonneg _ Hxs). lia.
Qed.

Lemma Forall_last {A : Type} (P : A -> Prop) (l : list A) (d : A) :
  Forall P l -> l <> [] -> P (last l d).
Proof.
  intros H Hne. apply (proj1 (Forall_forall P l) H).
  destruct (exists_last Hne) as [l' [x ->]]. rewrite last_last. apply in_or_app. right. left. reflexivity.
Qed.

Lemma Forall2_map_l {A B C : Type} (R : C -> B -> Prop) (f : A -> C) (l1 : list A) (l2 : list B) :
  Forall2 R (map f l1) l2 <-> Forall2 (fun a b => R (f a) b) l1 l2.
Proof.
  split; [|induction 1; constructor; assumption].
  revert l2; induction l1 as [|a l1 IH]; intros l2 H; inv H; constructor; auto.
Qed.

Lemma Forall2_map_r {A B C : Type} (R : A -> C -> Prop) (f : B -> C) (l1 : list A) (l2 : list B) :
  Forall2 R l1 (map f l2) <-> Forall2 (fun a b => R a (f b)) l1 l2.
Proof.
  split; [|induction 1; constructor; assumption].
  revert l1; induction l2 as [|b l2 IH]; intros l1 H; inv H; constructor; auto.
Qed.

(** ** Lemmas on Python's bitwise [&] as used for parity tests *)

Lemma land_parity (m w : Z) :
  Z.land (Z.land m w) 1 = (if Z.odd m && Z.odd w then 1 else 0)%Z.
Proof.
  rewrite (Z.land_ones _ 1) by lia. rewrite Zmod_odd.
  replace (Z.odd (Z.land m w)) with (Z.odd m && Z.odd w); [reflexivity|].
  rewrite <- !Z.bit0_odd, Z.land_spec. reflexivity.
Qed.

(** The form [lia] consumes: the parity term is 1 exactly when both
    operands are odd. *)
Lemma land_parity_cases (m w : Z) :
  (Z.land (Z.land m w) 1 = 1 /\ m mod 2 = 1 /\ w mod 2 = 1)%Z \/
  (Z.land (Z.land m w) 1 = 0 /\ (m mod 2 = 0 \/ w mod 2 = 0))%Z.
Proof.
  rewrite land_parity. pose proof (Zmod_odd m). pose proof (Zmod_odd w).
  destruct (Z.odd m), (Z.odd w); simpl; lia.
Qed.

(** Arithmetic with Python's parity term, integer halving and lengths. *)
Ltac pyarith :=
  repeat match goal with
  | |- context [Z.land (Z.land ?m ?w) 1] =>
      let H := fresh "Hpar" in
      destruct (land_parity_cases m w) as [[H [? ?]]|[H [?|?]]]; rewrite H; clear H
  end;
  Z.div_mod_to_equations; lia.
