(* ===== verification/PyStr.v ===== *)
(** * PyStr: the Python string operations that printTree.py calls

    A Python [str] of the ASCII characters the renderer handles is a
    [list ascii].  This file models the builtins [treeLines] uses,
    following CPython's implementation: [str.center] (with CPython's
    left-bias rule [left = marg/2 + (marg & width & 1)]), [str.index]
    (first occurrence, [ValueError] when absent), [sep.join],
    [c * n] (empty for [n <= 0]), [len] and [s[::-1]].  Its lemmas give
    the exact layout of a centred string, the position [index] finds,
    and the length and reversal of a join. *)

From Stdlib Require Import List Arith ZArith Lia Bool Ascii.
From S2P Require Import Prelude.
Import ListNotations.
Open Scope py_scope.

Definition pystr := list ascii.

Definition space : ascii := " "%char.
Definition bar : ascii := "|"%char.
Definition underscore : ascii := "_"%char.

(** [len(s)] *)
Definition py_len (s : pystr) : Z := Z.of_nat (length s).

(** [c * n] for a one-character string [c]. *)
Definition py_strmul (c : ascii) (n : Z) : pystr := repeat c (Z.to_nat n).

(** The left margin CPython's [str.center] gives: [marg/2 + (marg & width & 1)]
    (Objects/unicodeobject.c, [unicode_center_impl]; [marg > 0] there, so
    C's truncating division is floor division). *)
Definition center_left (marg width : Z) : Z := (marg / 2 + Z.land (Z.land marg width) 1)%Z.

(** [s.center(width, fillchar)] *)
Definition py_center (s : pystr) (width : Z) (fillchar : ascii) : pystr :=
  if (width <=? py_len s)%Z then s
  else let marg := (width - py_len s)%Z in
       let left := center_left marg width in
       py_strmul fillchar left ++ s ++ py_strmul fillchar (marg - left).

Fixpoint is_prefix (p s : pystr) : bool :=
  match p, s with
  | [], _ => true
  | a :: p', b :: s' => Ascii.eqb a b && is_prefix p' s'
  | _ :: _, [] => false
  end.

Fixpoint find_from (s sub : pystr) (i : nat) : option nat :=
  if is_prefix sub s then Some i
  else match s with
       | [] => None
       | _ :: s' => find_from s' sub (S i)
       end.

(** [s.index(sub)]: the first position of [sub] in [s], [ValueError]
    when [sub] does not occur. *)
Definition py_index (s sub : pystr) : res Z :=
  match find_from s sub 0 with
  | Some i => Ok (Z.of_nat i)
  | None => Err ValueError
  end.

(** [sep.join(l)] *)
Fixpoint py_join (sep : pystr) (l : list pystr) : pystr :=
  match l with
  | [] => []
  | [x] => x
  | x :: xs => x ++ sep ++ py_join sep xs
  end.

(** [s[::-1]] *)
Definition py_reverse (s : pystr) : pystr := rev s.

Definition two_spaces : pystr := [space; space].

(** The columns, counted from [i], at which [s] holds a bar. *)
Fixpoint bar_cols_from (i : nat) (s : pystr) : list nat :=
  match s with
  | [] => []
  | c :: s' => if Ascii.eqb c bar then i :: bar_cols_from (S i) s' else bar_cols_from (S i) s'
  end.

Definition bar_columns (s : pystr) : list nat := bar_cols_from 0 s.

(** ** Repetition *)

Lemma py_strmul_length (c : ascii) (n : Z) : length (py_strmul c n) = Z.to_nat n.
Proof. unfold py_strmul. apply repeat_length. Qed.

Lemma py_strmul_app (c : ascii) (a b : Z) :
  (0 <= a)%Z -> (0 <= b)%Z -> py_strmul c a ++ py_strmul c b = py_strmul c (a + b).
Proof.
  intros Ha Hb. unfold py_strmul. rewrite Z2Nat.inj_add by lia. symmetry. apply repeat_app.
Qed.

Lemma py_strmul_nonpos (c : ascii) (n : Z) : (n <= 0)%Z -> py_strmul c n = [].
Proof. intros H. unfold py_strmul. replace (Z.to_nat n) with 0%nat by lia. reflexivity. Qed.

Lemma rev_py_strmul (c : ascii) (n : Z) : rev (py_strmul c n) = py_strmul c n.
Proof. unfold py_strmul. apply rev_repeat. Qed.

#[export] Hint Rewrite py_strmul_length length_app length_rev repeat_length : pylen.
Create Rewrite HintDb barcols.

(** ** Centring *)

Lemma center_left_bounds (marg width : Z) :
  (1 <= marg)%Z -> (0 <= center_left marg width <= marg)%Z.
Proof. intros H. unfold center_left. pyarith. Qed.

Lemma center_left_nonneg (marg width : Z) :
  (0 <= marg)%Z -> (0 <= center_left marg width <= marg)%Z.
Proof. intros H. unfold center_left. pyarith. Qed.

(** The centring bias makes the middle column of a centred string of
    length [L] the middle column [(width-1)/2] of the field: this is
    what lines a label up with the [|] centred in the same width. *)
Lemma center_left_mid (L width : Z) :
  (1 <= L <= width)%Z -> (center_left (width - L) width + (L - 1) / 2 = (width - 1) / 2)%Z.
Proof. intros H. unfold center_left. pyarith. Qed.

Lemma py_center_long (s : pystr) (width : Z) (c : ascii) :
  (width <= py_len s)%Z -> py_center s width c = s.
Proof. intros H. unfold py_center. replace (width <=? py_len s)%Z with true by lia. reflexivity. Qed.

(** A centred string is its margin of fill characters, the string, and
    the rest of the field.  When the string already fills the field the
    margin is empty, so this form holds for every [width >= len(s)]. *)
Lemma py_center_pad (s : pystr) (width : Z) (c : ascii) :
  (py_len s <= width)%Z ->
  py_center s width c =
  py_strmul c (center_left (width - py_len s) width) ++ s ++
  py_strmul c (width - py_len s - center_left (width - py_len s) width).
Proof.
  intros H. unfold py_center. destruct (width <=? py_len s)%Z eqn:E; [|reflexivity].
  assert (Hw : width = py_len s) by lia. rewrite Hw, Z.sub_diag.
  unfold center_left. simpl. rewrite !py_strmul_nonpos by lia. rewrite app_nil_r. reflexivity.
Qed.

Lemma py_center_length (s : pystr) (width : Z) (c : ascii) :
  py_len (py_center s width c) = Z.max width (py_len s).
Proof.
  destruct (Z.le_gt_cases width (py_len s)) as [H|H].
  - rewrite py_center_long by exact H. lia.
  - rewrite py_center_pad by lia. unfold py_len in *.
    pose proof (center_left_bounds (width - Z.of_nat (length s)) width).
    autorewrite with pylen. lia.
Qed.

(** ** Finding a substring *)

Lemma is_prefix_app (s t : pystr) : is_prefix s (s ++ t) = true.
Proof. induction s as [|a s IH]; simpl; [reflexivity|]. rewrite Ascii.eqb_refl, IH. reflexivity. Qed.

Lemma find_from_shift (s sub : pystr) (i : nat) :
  find_from s sub i = option_map (Nat.add i) (find_from s sub 0).
Proof.
  revert i; induction s as [|a s IH]; intros i; simpl.
  - destruct (is_prefix sub []); simpl; [f_equal; lia | reflexivity].
  - destruct (is_prefix sub (a :: s)); simpl; [f_equal; lia|].
    rewrite IH, (IH 1%nat). destruct (find_from s sub 0); simpl; [f_equal; lia | reflexivity].
Qed.

(** Skipping a run of fill characters at which [sub] does not start. *)
Lemma find_from_skip (c : ascii) (n : nat) (sub u : pystr) (i : nat) :
  (forall m, (1 <= m <= n)%nat -> is_prefix sub (repeat c m ++ u) = false) ->
  find_from (repeat c n ++ u) sub i = find_from u sub (n + i).
Proof.
  revert i; induction n as [|n IH]; intros i Hc; simpl; [reflexivity|].
  change (c :: repeat c n ++ u) with (repeat c (S n) ++ u).
  rewrite Hc by lia. simpl. rewrite IH by (intros m Hm; apply Hc; lia). f_equal. lia.
Qed.

Lemma is_prefix_repeat (c : ascii) (j : nat) (p q : pystr) :
  is_prefix (repeat c j ++ p) (repeat c j ++ q) = is_prefix p q.
Proof. induction j as [|j IH]; simpl; [reflexivity|]. rewrite Ascii.eqb_refl. exact IH. Qed.

(** A string that holds a character other than [space]: a label that
    [str.index] finds where [str.center] put it. *)
Definition visible (l : pystr) : bool := existsb (fun c => negb (Ascii.eqb c space)) l.

Lemma visible_split (l : pystr) :
  visible l = true -> exists j a r, l = repeat space j ++ a :: r /\ a <> space.
Proof.
  induction l as [|c l IH]; simpl; [discriminate|]. intros H.
  destruct (Ascii.eqb c space) eqn:E; simpl in H.
  - apply Ascii.eqb_eq in E. subst c. destruct (IH H) as [j [a [r [-> Ha]]]].
    exists (S j), a, r. split; [reflexivity | exact Ha].
  - exists 0%nat, c, l. split; [reflexivity|]. apply Ascii.eqb_neq. exact E.
Qed.

Lemma is_prefix_visible_shift (l t : pystr) (m : nat) :
  visible l = true -> (1 <= m)%nat -> is_prefix l (repeat space m ++ l ++ t) = false.
Proof.
  intros Hv Hm. destruct (visible_split l Hv) as [j [a [r [-> Ha]]]].
  rewrite <- app_assoc, app_assoc, <- repeat_app, Nat.add_comm, repeat_app, <- app_assoc.
  rewrite is_prefix_repeat. destruct m as [|m]; [lia|]. simpl.
  apply Ascii.eqb_neq in Ha. rewrite Ha. reflexivity.
Qed.

(** [(" "*n + l + t).index(l)] is [n] for a visible [l]. *)
Lemma py_index_visible (n : Z) (l t : pystr) :
  visible l = true -> (0 <= n)%Z -> py_index (py_strmul space n ++ l ++ t) l = Ok n.
Proof.
  intros Hv Hn. unfold py_index, py_strmul.
  rewrite find_from_skip by (intros m Hm; apply is_prefix_visible_shift; [exact Hv | lia]).
  destruct l as [|c l]; [discriminate|].
  simpl. rewrite Ascii.eqb_refl, is_prefix_app. simpl. f_equal. lia.
Qed.

Lemma visible_bar : visible [bar] = true.
Proof. reflexivity. Qed.

(** [s.center(T).index(s)] is the left margin [str.center] chose. *)
Lemma py_index_center (l : pystr) (T : Z) :
  visible l = true -> (py_len l <= T)%Z ->
  py_index (py_center l T space) l = Ok (center_left (T - py_len l) T).
Proof.
  intros Hv HT. rewrite py_center_pad by exact HT. apply py_index_visible; [exact Hv|].
  apply center_left_nonneg. lia.
Qed.

(** [s.index(sub)] succeeds whenever [sub] occurs in [s]. *)
Definition contains (s sub : pystr) : Prop := exists x y, s = x ++ sub ++ y.

Lemma py_index_contains (s sub : pystr) :
  contains s sub -> exists i, py_index s sub = Ok i.
Proof.
  intros [x [y ->]]. unfold py_index.
  enough (H : forall i, exists j, find_from (x ++ sub ++ y) sub i = Some j).
  { destruct (H 0%nat) as [j ->]. eauto. }
  induction x as [|a x IH]; intros i.
  - exists i. simpl app. destruct (sub ++ y) as [|b u] eqn:E; simpl;
      rewrite <- E, is_prefix_app; reflexivity.
  - simpl. destruct (is_prefix sub (a :: x ++ sub ++ y)); eauto.
Qed.

(** [s.index('')] is [0]; a found position is never negative. *)
Lemma py_index_nil (s : pystr) : py_index s [] = Ok 0%Z.
Proof. destruct s; reflexivity. Qed.

Lemma py_index_nonneg (s sub : pystr) (i : Z) : py_index s sub = Ok i -> (0 <= i)%Z.
Proof. unfold py_index. destruct (find_from s sub 0); intros H; inversion H; lia. Qed.

Lemma contains_refl (s : pystr) : contains s s.
Proof. exists [], []. rewrite app_nil_r. reflexivity. Qed.

Lemma contains_app_l (s t sub : pystr) : contains s sub -> contains (s ++ t) sub.
Proof. intros [x [y ->]]. exists x, (y ++ t). rewrite <- !app_assoc. reflexivity. Qed.

Lemma contains_app_r (s t sub : pystr) : contains t sub -> contains (s ++ t) sub.
Proof. intros [x [y ->]]. exists (s ++ x), y. rewrite <- !app_assoc. reflexivity. Qed.

Lemma contains_center (s sub : pystr) (w : Z) (c : ascii) :
  contains s sub -> contains (py_center s w c) sub.
Proof.
  intros H. unfold py_center. destruct (w <=? py_len s)%Z; [exact H|].
  apply contains_app_r, contains_app_l, H.
Qed.

Lemma contains_rev_bar (s : pystr) : contains s [bar] -> contains (rev s) [bar].
Proof.
  intros [x [y ->]]. exists (rev y), (rev x).
  rewrite !rev_app_distr. simpl. rewrite <- !app_assoc. reflexivity.
Qed.

#[export] Hint Resolve contains_refl contains_app_l contains_app_r contains_center
  contains_rev_bar : pyres.

(** ** Joining *)

Lemma py_join_length (sep : pystr) (l : list pystr) :
  length (py_join sep l) =
  (fold_right (fun s n => length s + n) 0 l + (length l - 1) * length sep)%nat.
Proof.
  induction l as [|x [|y l] IH]; [reflexivity | simpl; lia |].
  change (py_join sep (x :: y :: l)) with (x ++ sep ++ py_join sep (y :: l)).
  autorewrite with pylen. rewrite IH. simpl. nia.
Qed.

Lemma py_join_cons (sep x : pystr) (l : list pystr) :
  l <> [] -> py_join sep (x :: l) = x ++ sep ++ py_join sep l.
Proof. destruct l; [congruence | reflexivity]. Qed.

Lemma py_join_app (sep : pystr) (l1 l2 : list pystr) :
  l1 <> [] -> l2 <> [] ->
  py_join sep (l1 ++ l2) = py_join sep l1 ++ sep ++ py_join sep l2.
Proof.
  intros H1 H2. induction l1 as [|x [|y l1] IH]; [congruence | |].
  - simpl app. rewrite py_join_cons by exact H2. reflexivity.
  - change ((x :: y :: l1) ++ l2) with (x :: ((y :: l1) ++ l2)).
    rewrite py_join_cons by discriminate. rewrite IH by discriminate.
    rewrite (py_join_cons sep x (y :: l1)) by discriminate. rewrite !app_assoc. reflexivity.
Qed.

Lemma rev_py_join (sep : pystr) (l : list pystr) :
  rev (py_join sep l) = py_join (rev sep) (rev (map (@rev ascii) l)).
Proof.
  induction l as [|x [|y l] IH]; [reflexivity | reflexivity |].
  rewrite py_join_cons by discriminate. rewrite !rev_app_distr, IH.
  change (rev (map (@rev ascii) (x :: y :: l)))
    with (rev (map (@rev ascii) (y :: l)) ++ [rev x]).
  rewrite py_join_app; [rewrite <- app_assoc; reflexivity | | discriminate].
  simpl. intros H. apply app_eq_nil in H. destruct H as [_ H]. discriminate.
Qed.

(** ** Columns of bars *)

Lemma bar_cols_from_shift (i : nat) (s : pystr) :
  bar_cols_from i s = map (Nat.add i) (bar_columns s).
Proof.
  unfold bar_columns. revert i; induction s as [|c s IH]; intros i; [reflexivity|]. simpl.
  destruct (Ascii.eqb c bar); simpl; [f_equal; [lia|]|];
    rewrite (IH (S i)), (IH 1%nat), map_map; apply map_ext; intros; lia.
Qed.

Lemma bar_columns_app (s t : pystr) :
  bar_columns (s ++ t) = bar_columns s ++ map (Nat.add (length s)) (bar_columns t).
Proof.
  unfold bar_columns. enough (H : forall i, bar_cols_from i (s ++ t) =
    bar_cols_from i s ++ bar_cols_from (i + length s) t).
  { rewrite H, (bar_cols_from_shift (0 + length s) t). reflexivity. }
  induction s as [|c s IH]; intros i; simpl; [rewrite Nat.add_0_r; reflexivity|].
  rewrite IH. replace (S i + length s) with (i + S (length s)) by lia.
  destruct (Ascii.eqb c bar); reflexivity.
Qed.

Lemma bar_columns_spaces (n : Z) : bar_columns (py_strmul space n) = [].
Proof. unfold bar_columns, py_strmul. generalize 0. induction (Z.to_nat n); intros i; simpl; auto. Qed.

Lemma bar_columns_underscores (n : Z) : bar_columns (py_strmul underscore n) = [].
Proof. unfold bar_columns, py_strmul. generalize 0. induction (Z.to_nat n); intros i; simpl; auto. Qed.

Lemma bar_columns_bar : bar_columns [bar] = [0].
Proof. reflexivity. Qed.

#[export] Hint Rewrite bar_columns_app bar_columns_spaces bar_columns_underscores bar_columns_bar
  py_strmul_length : barcols.
