(* ===== verification/TreeLines.v ===== *)
(** * TreeLines: the tree renderer of src/printTree.py

    [layout] is the body of [treeLines] (printTree.py, lines 40-61) once
    the children's blocks are known; [treeLines] is the recursive
    function itself, over the [getInfo] callback the caller passes, with
    a recursion budget [fuel] that plays the part of Python's recursion
    limit; [printTree] is the driver (lines 63-65).  The [tree] type and
    [render] give the structural instance for finite rose trees, and
    [new_TreeNode] with [demo_main] replays the [__main__] block
    (lines 67-88) on an explicit heap of [TreeNode] objects. *)

From Stdlib Require Import List Arith ZArith Lia Bool Ascii.
From Stdlib Require String.
Import String.StringSyntax.
From S2P Require Import Prelude PyStr.
Import ListNotations.
Open Scope py_scope.

(** A Block: the lines of a rendered subtree, root line first. *)
Definition block := list pystr.

(** [len(childText[0])] *)
Definition first_width (childText : block) : res Z :=
  first <- py_getitem childText 0 ;; Ok (py_len first).

(** [subNode + [" "*len(subNode[0])]*(maxHeight-len(subNode))] *)
Definition pad_subnode (maxHeight : Z) (subNode : block) : res block :=
  first <- py_getitem subNode 0 ;;
  Ok (subNode ++ py_list_mul [py_strmul space (py_len first)]
                             (maxHeight - Z.of_nat (length subNode))).

(** ["  ".join([subNode[i] for subNode in subNodes]).center(totalWidth," ")] *)
Definition merged_row (totalWidth : Z) (subNodes : list block) (i : Z) : res pystr :=
  cells <- mapM (fun subNode => py_getitem subNode i) subNodes ;;
  Ok (py_center (py_join two_spaces cells) totalWidth space).

(** Lines 42-61 of [treeLines], given the label, the children and the
    children's blocks [subNodes]. *)
Definition layout {N : Type} (nodeId : pystr) (nodeChildren : list N) (subNodes : list block)
  : res block :=
  widths <- mapM first_width subNodes ;;
  let totalWidth := (py_sum widths + 2 * Z.of_nat (length widths) - 1)%Z in
  let totalWidth := Z.max totalWidth (py_len nodeId) in
  let nodeLine := py_center nodeId totalWidth space in
  let result := [nodeLine] in
  match nodeChildren with
  | [] => Ok result
  | _ :: _ =>
    let linksLine := py_join two_spaces (map (fun width => py_center [bar] width space) widths) in
    let linksLine := py_center linksLine totalWidth space in
    leftIndent <- py_index linksLine [bar] ;;
    let leftIndent := (leftIndent + 1)%Z in
    rightIndent <- py_index (py_reverse linksLine) [bar] ;;
    let rightIndent := (rightIndent + 1)%Z in
    let spanWidth := (totalWidth - leftIndent - rightIndent - 1)%Z in
    labelStart <- py_index nodeLine nodeId ;;
    let leftSpan := (labelStart - leftIndent + (py_len nodeId - 1) / 2)%Z in
    let rightSpan := (spanWidth - leftSpan)%Z in
    let spanLine := py_strmul space leftIndent ++ py_strmul underscore leftSpan ++ [bar]
                    ++ py_strmul underscore rightSpan ++ py_strmul space rightIndent in
    let result := if (1 <? length nodeChildren)%nat then result ++ [spanLine] else result in
    let result := result ++ [linksLine] in
    maxHeight <- py_max (map (fun subNode => Z.of_nat (length subNode)) subNodes) ;;
    subNodes <- mapM (pad_subnode maxHeight) subNodes ;;
    rows <- mapM (merged_row totalWidth subNodes) (py_range maxHeight) ;;
    Ok (result ++ rows)
  end.

(** [treeLines(node, getInfo)]: each call consumes one unit of the
    recursion budget; an exhausted budget raises [RecursionError]. *)
Fixpoint treeLines {N : Type} (getInfo : N -> pystr * list N) (fuel : nat) (node : N)
  : res block :=
  match fuel with
  | O => Err RecursionError
  | S fuel' =>
      let '(nodeId, nodeChildren) := getInfo node in
      subNodes <- mapM (treeLines getInfo fuel') nodeChildren ;;
      layout nodeId nodeChildren subNodes
  end.

(** [printTree(node, getInfo)]: the lines written to standard output and
    the outcome.  The whole block is computed before the first [print],
    so an exception leaves the output empty. *)
Definition printTree {N : Type} (getInfo : N -> pystr * list N) (fuel : nat) (node : N)
  : list pystr * res unit :=
  match treeLines getInfo fuel node with
  | Ok lines => (lines, Ok tt)
  | Err e => ([], Err e)
  end.

(** ** Finite rose trees *)

Local Set Warnings "-register-all".
Inductive tree : Type :=
| Node (label : pystr) (children : list tree).

Definition tree_info (t : tree) : pystr * list tree :=
  match t with Node l ts => (l, ts) end.

Fixpoint render (t : tree) : res block :=
  match t with
  | Node l ts => subNodes <- mapM render ts ;; layout l ts subNodes
  end.

(** The number of edges on the longest path from the root. *)
Fixpoint depth (t : tree) : nat :=
  match t with
  | Node _ ts => list_max (map (fun c => S (depth c)) ts)
  end.

(** The finite tree a [getInfo] callback describes from [node], cut at
    [fuel] levels. *)
Fixpoint unfold_tree {N : Type} (getInfo : N -> pystr * list N) (fuel : nat) (node : N) : tree :=
  match fuel with
  | O => Node [] []
  | S fuel' => let '(l, cs) := getInfo node in Node l (map (unfold_tree getInfo fuel') cs)
  end.

(** ** The [TreeNode] class and the [__main__] block

    [TreeNode(label, parent)] allocates a new object with an empty
    [children] list and, when [parent] is given, appends the new object
    to the parent's list in place.  Objects are addresses into a heap. *)

Record TreeNode : Type := { tn_label : pystr; tn_children : list nat }.

Definition heap := list TreeNode.

Fixpoint update_nth {A : Type} (f : A -> A) (n : nat) (l : list A) : list A :=
  match l, n with
  | [], _ => []
  | x :: xs, O => f x :: xs
  | x :: xs, S n' => x :: update_nth f n' xs
  end.

Definition new_TreeNode (label : pystr) (parent : option nat) (h : heap) : nat * heap :=
  let self := length h in
  let h := h ++ [{| tn_label := label; tn_children := [] |}] in
  match parent with
  | None => (self, h)
  | Some p =>
      (self, update_nth (fun n => {| tn_label := tn_label n;
                                      tn_children := tn_children n ++ [self] |}) p h)
  end.

Definition null_node : TreeNode := {| tn_label := []; tn_children := [] |}.

(** [lambda n:(n.label,n.children)] *)
Definition heap_info (h : heap) (n : nat) : pystr * list nat :=
  let o := nth n h null_node in (tn_label o, tn_children o).

Definition s (x : String.string) : pystr := String.list_ascii_of_string x.
Local Open Scope string_scope.

(** Lines 75-86; [n02] is rebound by line 81, so ["03"] and ["06"] hang
    under the second ["02"], the child of ["04"]. *)
Definition demo_heap : nat * heap :=
  let '(root, h) := new_TreeNode (s "05") None [] in
  let '(n02, h) := new_TreeNode (s "02") (Some root) h in
  let '(n04, h) := new_TreeNode (s "04") (Some root) h in
  let '(n06, h) := new_TreeNode (s "06") (Some root) h in
  let '(_, h) := new_TreeNode (s "01") (Some n02) h in
  let '(_, h) := new_TreeNode (s "01") (Some n04) h in
  let '(n02, h) := new_TreeNode (s "02") (Some n04) h in
  let '(_, h) := new_TreeNode (s "09") (Some n04) h in
  let '(_, h) := new_TreeNode (s "08") (Some n04) h in
  let '(_, h) := new_TreeNode (s "02") (Some n04) h in
  let '(_, h) := new_TreeNode (s "03") (Some n02) h in
  let '(_, h) := new_TreeNode (s "06") (Some n02) h in
  (root, h).

(** Line 88, with a recursion budget of 1000 calls. *)
Definition demo_main : list pystr * res unit :=
  let '(root, h) := demo_heap in printTree (heap_info h) 1000 root.

(** The tree the [__main__] block builds, as a rose tree. *)
Definition demo_tree : tree :=
  Node (s "05")
    [Node (s "02") [Node (s "01") []];
     Node (s "04") [Node (s "01") [];
                    Node (s "02") [Node (s "03") []; Node (s "06") []];
                    Node (s "09") []; Node (s "08") []; Node (s "02") []];
     Node (s "06") []].

(** A heap of [TreeNode] objects in which every child was allocated
    after its parent: what [TreeNode(label, parent)] can build. *)
Definition heap_ok (h : heap) : Prop :=
  forall n c, In c (tn_children (nth n h null_node)) -> n < c < length h.

(** The decision procedure for [heap_ok]. *)
Definition heap_okb (h : heap) : bool :=
  forallb (fun n => forallb (fun c => (n <? c)%nat && (c <? length h)%nat)
                            (tn_children (nth n h null_node)))
          (seq 0 (length h)).

(** ** The shape the code produces

    The closed forms the theorems compare the code with: the padded
    child block of line 59, the width and height of a rendered tree,
    and the well-formedness of labels the layout arithmetic relies on. *)

Definition pad_block (maxHeight : Z) (b : block) : block :=
  b ++ py_list_mul [py_strmul space (py_len (hd [] b))] (maxHeight - Z.of_nat (length b)).

(** The width [max(sum(widths) + 2*len(widths) - 1, len(label))] of line
    43-44, computed over the tree. *)
Fixpoint tree_width (t : tree) : Z :=
  match t with
  | Node l ts => Z.max (py_sum (map tree_width ts) + 2 * Z.of_nat (length ts) - 1) (py_len l)
  end.

(** One label line, a span line when there are two children or more, a
    links line, and the rows of the highest child. *)
Fixpoint tree_height (t : tree) : nat :=
  match t with
  | Node _ [] => 1
  | Node _ ts => (if (1 <? length ts)%nat then 3 else 2) + list_max (map tree_height ts)
  end.

(** Every label holds a character other than a space. *)
Fixpoint wf_tree (t : tree) : bool :=
  match t with
  | Node l ts => visible l && forallb wf_tree ts
  end.

(** ** The geometry of a node's block

    The block of a node with children described by columns rather than
    by the [index] arithmetic of lines 50-55: the links line has a bar
    at the middle column ("anchor") of each child's field; the span
    line runs from the first anchor to the last one with a bar at the
    label's middle column; the children's rows follow. *)

Local Abbreviation links ws := (py_join two_spaces (map (fun width => py_center [bar] width space) ws)).

(** The anchors of fields of widths [ws] laid from column [base], two
    columns apart. *)
Fixpoint anchors (base : Z) (ws : list Z) : list Z :=
  match ws with
  | [] => []
  | w :: ws' => (base + (w - 1) / 2)%Z :: anchors (base + w + 2)%Z ws'
  end.

(** The span line of a block [T] wide whose outer anchors are [a1] and
    [ak], for a label whose middle column is [c]: blanks through column
    [a1], underscores, a bar at [c], underscores, blanks from [ak] on. *)
Definition span_of (T a1 ak c : Z) : pystr :=
  py_strmul space (a1 + 1) ++ py_strmul underscore (c - a1 - 1) ++ [bar] ++
  py_strmul underscore (ak - c - 1) ++ py_strmul space (T - ak).

(** Row [j] of the children: their [j]-th lines, two blanks apart,
    centred in the block. *)
Definition row_of (T : Z) (bs : list block) (j : nat) : pystr :=
  py_center (py_join two_spaces (map (fun b => nth j b []) bs)) T space.

(** The block of a node with [k] children of widths [ws] and blocks [bs]. *)
Definition node_block (l : pystr) (k : nat) (ws : list Z) (bs : list block) : block :=
  let T := Z.max (py_sum ws + 2 * Z.of_nat (length ws) - 1) (py_len l) in
  let J := (py_sum ws + 2 * Z.of_nat (length ws) - 2)%Z in
  let A := anchors (center_left (T - J) T) ws in
  let H := list_max (map (@length pystr) bs) in
  [py_center l T space] ++
  (if (1 <? k)%nat then [span_of T (hd 0%Z A) (last A 0%Z) ((T - 1) / 2)] else []) ++
  [py_center (links ws) T space] ++
  map (row_of T (map (pad_block (Z.of_nat H)) bs)) (seq 0 H).

(** A rectangular block of width [w]: not empty, every line [w] long. *)
Definition rect (w : Z) (b : block) : Prop :=
  b <> [] /\ Forall (fun line => py_len line = w) b.

(** ** First facts *)

Lemma py_center_self (l : pystr) (c : ascii) : py_center l (py_len l) c = l.
Proof. apply py_center_long. lia. Qed.

(** A leaf renders as its label alone, unpadded: a one-line block of
    width [len(label)] (printTree.py, lines 43-47 with no children). *)
Lemma render_leaf (l : pystr) : render (Node l []) = Ok [l].
Proof.
  simpl. unfold layout. simpl.
  replace (Z.max (-1) (py_len l)) with (py_len l) by (unfold py_len; lia).
  rewrite py_center_self. reflexivity.
Qed.

(** The expected console output of the [__main__] block: the sample of
    the header comment of printTree.py (lines 7-16), every line padded
    to the block's width of 34 columns. *)
Definition demo_expected : list pystr :=
  map s ["                05                ";
         "  ______________|______________   ";
         " |              |              |  ";
         " 02             04             06 ";
         " |    __________|_________        ";
         " 01  |      |     |   |   |       ";
         "     01     02    09  08  02      ";
         "           _|_                    ";
         "          |   |                   ";
         "          03  06                  "].

(** ** Induction on rose trees *)

Section tree_ind'.
Variable P : tree -> Prop.
Hypothesis HNode : forall l ts, Forall P ts -> P (Node l ts).

Fixpoint tree_ind' (t : tree) : P t :=
  match t with
  | Node l ts =>
      HNode l ts ((fix go (ts : list tree) : Forall P ts :=
                     match ts with
                     | [] => Forall_nil _
                     | t :: ts => Forall_cons _ (tree_ind' t) (go ts)
                     end) ts)
  end.
End tree_ind'.

(** ** No exception on a finite tree *)

Lemma first_width_ok (b : block) : b <> [] -> first_width b = Ok (py_len (hd [] b)).
Proof. destruct b; [congruence | reflexivity]. Qed.

Lemma widths_ok (bs : list block) :
  Forall (fun b => b <> []) bs -> mapM first_width bs = Ok (map (fun b => py_len (hd [] b)) bs).
Proof.
  intros H. apply mapM_total. intros b Hb. apply first_width_ok.
  rewrite Forall_forall in H. auto.
Qed.

Lemma pad_subnode_ok (H : Z) (b : block) : b <> [] -> pad_subnode H b = Ok (pad_block H b).
Proof. destruct b; [congruence | reflexivity]. Qed.

Lemma pad_block_length (H : Z) (b : block) :
  (Z.of_nat (length b) <= H)%Z -> Z.of_nat (length (pad_block H b)) = H.
Proof. intros Hb. unfold pad_block. rewrite length_app, py_list_mul_length. simpl. lia. Qed.

Lemma pad_block_ne (H : Z) (b : block) : b <> [] -> pad_block H b <> [].
Proof. unfold pad_block. destruct b; [congruence | discriminate]. Qed.

Lemma merged_row_ok (T : Z) (bs : list block) (i : Z) :
  (0 <= i)%Z -> Forall (fun b => i < Z.of_nat (length b))%Z bs ->
  exists row, merged_row T bs i = Ok row.
Proof.
  intros Hi Hbs. unfold merged_row.
  destruct (mapM_exists (fun subNode => py_getitem subNode i) bs) as [cells ->]; [|eauto].
  intros b Hb. apply py_getitem_ok. rewrite Forall_forall in Hbs. specialize (Hbs b Hb). lia.
Qed.

Lemma contains_join_head (sep x sub : pystr) (l : list pystr) :
  contains x sub -> contains (py_join sep (x :: l)) sub.
Proof. destruct l; [auto | intros H; simpl; auto with pyres]. Qed.

Lemma contains_links (ws : list Z) (T : Z) :
  ws <> [] ->
  contains (py_center (py_join two_spaces (map (fun w => py_center [bar] w space) ws)) T space) [bar].
Proof.
  destruct ws as [|w ws]; [congruence|]. intros _. simpl map.
  apply contains_center, contains_join_head, contains_center, contains_refl.
Qed.

#[local] Hint Resolve contains_links : pyres.
#[local] Hint Extern 1 (_ <> []) => simpl; discriminate : pyres.

(** The three [index] calls of lines 50, 51 and 53 find what they look for. *)
Ltac index_ok :=
  lazymatch goal with
  | |- context [py_index ?X ?Y] =>
      let i := fresh "i" in let Hi := fresh "Hi" in
      destruct (py_index_contains X Y) as [i Hi];
      [unfold py_reverse; first [solve [auto with pyres] | apply contains_rev_bar; auto with pyres]
      | rewrite Hi]
  end.

Lemma layout_total {N : Type} (l : pystr) (ts : list N) (subNodes : list block) :
  Forall (fun b => b <> []) subNodes -> length ts = length subNodes ->
  exists b, layout l ts subNodes = Ok b /\ b <> [].
Proof.
  intros Hne Hlen. unfold layout. rewrite widths_ok by exact Hne.
  destruct ts as [|t ts]; [eexists; split; [reflexivity | discriminate]|].
  destruct subNodes as [|b0 bs]; [discriminate|].
  do 3 index_ok.
  simpl map. destruct (py_max_spec (Z.of_nat (length b0)) (map (fun b => Z.of_nat (length b)) bs))
    as [H [-> [Hmax _]]].
  rewrite (mapM_total _ (pad_block H)) by
    (intros b Hb; apply pad_subnode_ok; rewrite Forall_forall in Hne; auto).
  lazymatch goal with
  | |- context [mapM (merged_row ?T ?bs') (py_range H)] =>
      destruct (mapM_exists (merged_row T bs') (py_range H)) as [rows ->]
  end.
  - intros k Hk%py_range_in. apply merged_row_ok; [lia|].
    apply Forall_map, Forall_forall. intros b Hb. rewrite pad_block_length; [lia|].
    rewrite Forall_forall in Hmax. apply Hmax. simpl in Hb |- *.
    destruct Hb as [<-|Hb]; [left; reflexivity | right; apply (in_map (fun b => Z.of_nat (length b))); exact Hb].
  - eexists. split; [reflexivity|]. destruct (1 <? _)%nat; discriminate.
Qed.

(** Shared by the theorem below and the proofs that build on it. *)
Lemma render_total_core (t : tree) : exists b, render t = Ok b /\ b <> [].
Proof.
  induction t as [l ts IH] using tree_ind'. simpl.
  destruct (mapM_Forall_ok render (fun b => b <> []) ts IH) as [bs [-> [Hne Hlen]]].
  apply layout_total; [exact Hne | symmetry; exact Hlen].
Qed.

(** C4: [treeLines] raises no exception on a finite tree: every
    [index], [max] and subscript of lines 42-60 succeeds, and the block
    is never empty. *)
Theorem render_total (t : tree) : exists b, render t = Ok b /\ b <> [].
Proof. apply render_total_core. Qed.

(** [layout] reads its [nodeChildren] only through their number. *)
Lemma layout_children {N M : Type} (l : pystr) (ts : list N) (us : list M) (bs : list block) :
  length ts = length us -> layout l ts bs = layout l us bs.
Proof.
  intros H. unfold layout. destruct (mapM first_width bs); [|reflexivity].
  destruct ts, us; try discriminate H; [reflexivity|].
  rewrite H. reflexivity.
Qed.

(** ** The [getInfo] interface: finite trees given by a callback *)

Section Callback.
Context {N : Type} (getInfo : N -> pystr * list N).

(** The contract a caller's [getInfo] keeps when it describes a finite
    tree: a rank that decreases from a node to each of its children. *)
Class RankedInfo := {
  rank : N -> nat;
  rank_children : forall n c, In c (snd (getInfo n)) -> rank c < rank n
}.

Lemma treeLines_ok_or_recursion (fuel : nat) (n : N) :
  (exists b, treeLines getInfo fuel n = Ok b /\ b <> []) \/
  treeLines getInfo fuel n = Err RecursionError.
Proof.
  revert n; induction fuel as [|f IH]; intros n; [right; reflexivity|]. simpl.
  destruct (getInfo n) as [l cs].
  destruct (mapM (treeLines getInfo f) cs) as [bs|e] eqn:E.
  - left. apply layout_total; [|symmetry; eapply mapM_length; exact E].
    apply mapM_Ok_iff in E. clear -E IH. induction E as [|c b cs bs Hcb _ IHE]; constructor; [|exact IHE].
    destruct (IH c) as [[b' [Hb' Hne]]|Hc]; congruence.
  - right. f_equal. induction cs as [|c cs IHc]; simpl in E; [discriminate|].
    destruct (IH c) as [[b' [Hc _]] | Hc]; rewrite Hc in E.
    + destruct (mapM (treeLines getInfo f) cs); [discriminate | exact (IHc E)].
    + congruence.
Qed.

Lemma treeLines_unfold `{RankedInfo} (fuel : nat) (n : N) :
  rank n < fuel -> treeLines getInfo fuel n = render (unfold_tree getInfo fuel n).
Proof.
  revert n; induction fuel as [|f IH]; intros n Hn; [lia|]. simpl.
  pose proof (rank_children n) as Hc. destruct (getInfo n) as [l cs]. simpl in Hc |- *.
  rewrite mapM_map. rewrite (mapM_ext_in (treeLines getInfo f) (fun c => render (unfold_tree getInfo f c))).
  - destruct (mapM _ cs); [|reflexivity]. apply layout_children. rewrite length_map. reflexivity.
  - intros c Hin. apply IH. specialize (Hc c Hin). lia.
Qed.

End Callback.

(** ** Rose trees as [getInfo] *)

Lemma depth_child (t c : tree) : In c (snd (tree_info t)) -> depth c < depth t.
Proof.
  destruct t as [l ts]. simpl. intros H.
  apply (list_max_in_le (map (fun c => S (depth c)) ts)), in_map_iff. eauto.
Qed.

#[export] Instance tree_ranked : RankedInfo tree_info :=
  {| rank := depth; rank_children := depth_child |}.

Lemma unfold_tree_id (t : tree) (fuel : nat) :
  depth t < fuel -> unfold_tree tree_info fuel t = t.
Proof.
  revert fuel. induction t as [l ts IH] using tree_ind'. intros [|f] Hf; [lia|]. simpl.
  f_equal. rewrite <- (map_id ts) at 2. apply map_ext_in. intros c Hc.
  rewrite Forall_forall in IH. apply IH; [exact Hc|].
  pose proof (depth_child (Node l ts) c Hc). simpl in *. lia.
Qed.

Lemma treeLines_tree_deep (fuel : nat) (t : tree) :
  depth t >= fuel -> treeLines tree_info fuel t = Err RecursionError.
Proof.
  revert t; induction fuel as [|f IH]; intros [l ts] Hd; [reflexivity|]. simpl.
  simpl in Hd. destruct (list_max_gt (map (fun c => S (depth c)) ts) f) as [x [Hx Hfx]]; [lia|].
  apply in_map_iff in Hx. destruct Hx as [c [<- Hc]].
  rewrite (mapM_first_err _ _ RecursionError).
  - reflexivity.
  - intros d _. destruct (treeLines_ok_or_recursion tree_info f d) as [[b [Hb _]] | Hb]; eauto.
  - exists c. split; [exact Hc | apply IH; lia].
Qed.

(** Shared by the theorem below and the proofs that build on it. *)
Lemma treeLines_tree_core (fuel : nat) (t : tree) :
  treeLines tree_info fuel t = if (depth t <? fuel)%nat then render t else Err RecursionError.
Proof.
  destruct (depth t <? fuel)%nat eqn:E.
  - apply Nat.ltb_lt in E. rewrite (@treeLines_unfold tree tree_info tree_ranked fuel t E).
    rewrite unfold_tree_id by exact E. reflexivity.
  - apply Nat.ltb_ge in E. apply treeLines_tree_deep. exact E.
Qed.

(** C5: the callback-driven [treeLines], run with a recursion budget
    [fuel] on a rose tree, returns the structural rendering [render t]
    when the budget exceeds the tree's depth, and raises
    [RecursionError] otherwise. *)
Theorem treeLines_tree (fuel : nat) (t : tree) :
  treeLines tree_info fuel t = if (depth t <? fuel)%nat then render t else Err RecursionError.
Proof. apply treeLines_tree_core. Qed.

(** C6: a [getInfo] under which a node is its own child (a cyclic
    "tree") makes [printTree] raise [RecursionError] whatever the
    budget, before printing anything. *)
Theorem printTree_cycle {N : Type} (getInfo : N -> pystr * list N) (n : N) (fuel : nat) :
  In n (snd (getInfo n)) -> printTree getInfo fuel n = ([], Err RecursionError).
Proof.
  intros Hin. unfold printTree.
  enough (H : treeLines getInfo fuel n = Err RecursionError) by (rewrite H; reflexivity).
  induction fuel as [|f IH]; [reflexivity|]. simpl.
  destruct (getInfo n) as [l cs] eqn:E. simpl in Hin.
  rewrite (mapM_first_err _ _ RecursionError); [reflexivity | |eauto].
  intros d _. destruct (treeLines_ok_or_recursion getInfo f d) as [[b [Hb _]] | Hb]; eauto.
Qed.

(** The one-node cycle of the witness: a node that lists itself. *)
Definition self_loop (_ : unit) : pystr * list unit := (s "x", [tt]).

Lemma printTree_cycle_witness :
  In tt (snd (self_loop tt)) /\ printTree self_loop 1000 tt = ([], Err RecursionError).
Proof. split; [left; reflexivity | apply (printTree_cycle self_loop tt 1000); left; reflexivity]. Defined.

(** ** The links line *)

(** ["|".center(w)] puts the bar at column [(w-1)/2]. *)
Lemma center_bar (w : Z) :
  (1 <= w)%Z ->
  py_center [bar] w space = py_strmul space ((w - 1) / 2) ++ [bar] ++ py_strmul space (w - 1 - (w - 1) / 2).
Proof.
  intros Hw. rewrite py_center_pad by (unfold py_len; simpl; lia).
  replace (center_left (w - py_len [bar]) w) with ((w - 1) / 2)%Z
    by (unfold center_left, py_len; simpl; pyarith).
  unfold py_len. simpl. reflexivity.
Qed.

Lemma py_join_head (sep x : pystr) (l : list pystr) : exists r, py_join sep (x :: l) = x ++ r.
Proof. destruct l; [exists []; rewrite app_nil_r | eexists]; reflexivity. Qed.

(** The length of a join of cells of known widths. *)
Lemma join_two_spaces_len (cells : list pystr) (ws : list Z) :
  ws <> [] -> Forall2 (fun w c => py_len c = w) ws cells ->
  py_len (py_join two_spaces cells) = (py_sum ws + 2 * Z.of_nat (length ws) - 2)%Z.
Proof.
  intros Hne H. unfold py_len. rewrite py_join_length, <- (Forall2_length H).
  assert (Hs : Z.of_nat (fold_right (fun s n => length s + n) 0 cells) = py_sum ws).
  { clear Hne. induction H as [|w c ws cs Hwc _ IH]; [reflexivity|].
    simpl. rewrite Nat2Z.inj_add, IH. unfold py_len in Hwc. lia. }
  destruct ws; [congruence|]. simpl length. simpl (length two_spaces). lia.
Qed.

Lemma links_cells (ws : list Z) :
  Forall (fun w => 1 <= w)%Z ws ->
  Forall2 (fun w c => py_len c = w) ws (map (fun width => py_center [bar] width space) ws).
Proof.
  induction 1 as [|w ws Hw _ IH]; constructor; [|exact IH].
  rewrite py_center_length. unfold py_len. simpl. lia.
Qed.

Lemma links_len (ws : list Z) :
  ws <> [] -> Forall (fun w => 1 <= w)%Z ws ->
  py_len (links ws) = (py_sum ws + 2 * Z.of_nat (length ws) - 2)%Z.
Proof. intros Hne H. apply join_two_spaces_len; [exact Hne | apply links_cells, H]. Qed.

(** The first bar of the links line sits at column [(w1-1)/2]. *)
Lemma links_head (w : Z) (ws : list Z) :
  (1 <= w)%Z -> exists r, links (w :: ws) = py_strmul space ((w - 1) / 2) ++ bar :: r.
Proof.
  intros Hw. destruct (py_join_head two_spaces (py_center [bar] w space)
    (map (fun width => py_center [bar] width space) ws)) as [r Hr].
  simpl map. rewrite Hr, center_bar by exact Hw. eexists. rewrite <- !app_assoc. reflexivity.
Qed.

Lemma links_snoc (ws : list Z) (w : Z) :
  ws <> [] -> links (ws ++ [w]) = links ws ++ two_spaces ++ py_center [bar] w space.
Proof.
  intros H. rewrite map_app. apply py_join_app; [|discriminate].
  destruct ws; [congruence | discriminate].
Qed.

(** Read from the right, the last bar sits [wk-1-(wk-1)/2] columns in. *)
Lemma links_last (ws : list Z) (w : Z) :
  (1 <= w)%Z ->
  exists r, rev (links (ws ++ [w])) = py_strmul space (w - 1 - (w - 1) / 2) ++ bar :: r.
Proof.
  intros Hw. destruct ws as [|w0 ws].
  - simpl. rewrite center_bar by exact Hw. rewrite !rev_app_distr, !rev_py_strmul.
    eexists. rewrite <- !app_assoc. reflexivity.
  - rewrite links_snoc by discriminate. rewrite center_bar by exact Hw.
    rewrite !rev_app_distr, !rev_py_strmul. eexists. rewrite <- !app_assoc. reflexivity.
Qed.

(** ** The [index] calls of lines 50, 51 and 53 *)

Lemma widths_rect (ws : list Z) (bs : list block) :
  Forall2 rect ws bs -> map (fun b => py_len (hd [] b)) bs = ws.
Proof.
  induction 1 as [|w b ws bs [Hne Hb] _ IH]; [reflexivity|]. simpl. rewrite IH. f_equal.
  destruct b as [|x b]; [congruence|]. simpl. exact (Forall_inv Hb).
Qed.

(** Line 50: the first bar, one column past which [leftIndent] points. *)
Lemma links_index (w : Z) (ws : list Z) (T : Z) :
  Forall (fun w => 1 <= w)%Z (w :: ws) -> (py_len (links (w :: ws)) <= T)%Z ->
  py_index (py_center (links (w :: ws)) T space) [bar] =
  Ok (center_left (T - py_len (links (w :: ws))) T + (w - 1) / 2)%Z.
Proof.
  intros Hws HT. inv Hws.
  pose proof (center_left_nonneg (T - py_len (links (w :: ws))) T ltac:(lia)) as HP.
  rewrite py_center_pad by exact HT. destruct (links_head w ws) as [r Hr]; [assumption|].
  set (n := py_len (links (w :: ws))) in *.
  rewrite Hr, <- !app_assoc, app_assoc, py_strmul_app by (pyarith || lia).
  apply (py_index_visible _ [bar] (r ++ _)); [reflexivity|]. pyarith.
Qed.

(** Line 51: the last bar, counted from the right end. *)
Lemma links_rindex (ws : list Z) (w : Z) (T : Z) :
  Forall (fun w => 1 <= w)%Z (ws ++ [w]) -> (py_len (links (ws ++ [w])) <= T)%Z ->
  py_index (py_reverse (py_center (links (ws ++ [w])) T space)) [bar] =
  Ok (T - py_len (links (ws ++ [w])) - center_left (T - py_len (links (ws ++ [w]))) T
      + (w - 1 - (w - 1) / 2))%Z.
Proof.
  intros Hws HT. apply Forall_app in Hws. destruct Hws as [_ Hw]. inv Hw.
  pose proof (center_left_nonneg (T - py_len (links (ws ++ [w]))) T ltac:(lia)) as HP.
  rewrite py_center_pad by exact HT. unfold py_reverse.
  rewrite !rev_app_distr, !rev_py_strmul.
  destruct (links_last ws w) as [r Hr]; [assumption|].
  set (n := py_len (links (ws ++ [w]))) in *. rewrite Hr.
  rewrite <- !app_assoc, app_assoc, py_strmul_app by (pyarith || lia).
  apply (py_index_visible _ [bar] (r ++ _)); [reflexivity|]. pyarith.
Qed.

Lemma links_index_hd (ws : list Z) (T : Z) :
  ws <> [] -> Forall (fun w => 1 <= w)%Z ws -> (py_len (links ws) <= T)%Z ->
  py_index (py_center (links ws) T space) [bar] =
  Ok (center_left (T - py_len (links ws)) T + (hd 0 ws - 1) / 2)%Z.
Proof. destruct ws as [|w ws]; [congruence|]. intros _. apply links_index. Qed.

Lemma links_rindex_last (ws : list Z) (T : Z) :
  ws <> [] -> Forall (fun w => 1 <= w)%Z ws -> (py_len (links ws) <= T)%Z ->
  py_index (py_reverse (py_center (links ws) T space)) [bar] =
  Ok (T - py_len (links ws) - center_left (T - py_len (links ws)) T
      + (last ws 0 - 1 - (last ws 0 - 1) / 2))%Z.
Proof.
  intros Hne. destruct (exists_last Hne) as [ws0 [w ->]]. rewrite last_last.
  apply links_rindex.
Qed.

(** ** The span line *)

(** The span line of line 55 is [T] long when both runs of underscores
    have a non-negative length: no run is cut by Python's [c * n] with
    [n < 0]. *)
Lemma span_line_len (LI LS RS RI : Z) :
  (0 <= LI)%Z -> (0 <= LS)%Z -> (0 <= RS)%Z -> (0 <= RI)%Z ->
  py_len (py_strmul space LI ++ py_strmul underscore LS ++ [bar] ++ py_strmul underscore RS
          ++ py_strmul space RI) = (LI + LS + 1 + RS + RI)%Z.
Proof. intros. unfold py_len. autorewrite with pylen. simpl. lia. Qed.

(** The arithmetic of lines 50-54 for a node with two children or more:
    the label's middle column lies strictly between the first and the
    last bar of the links line, so [leftSpan] and [rightSpan] are both
    non-negative.  [J] is the links line's length, [R] the part of it
    between the first and the last child. *)
Lemma span_bounds (w1 wk R L J T : Z) :
  (1 <= w1)%Z -> (1 <= wk)%Z -> (0 <= R)%Z -> (1 <= L)%Z ->
  J = (w1 + 2 + R + wk)%Z -> T = Z.max (J + 1) L ->
  (0 <= center_left (T - L) T - (center_left (T - J) T + (w1 - 1) / 2 + 1) + (L - 1) / 2)%Z /\
  (0 <= T - (center_left (T - J) T + (w1 - 1) / 2 + 1)
        - (T - J - center_left (T - J) T + (wk - 1 - (wk - 1) / 2) + 1) - 1
        - (center_left (T - L) T - (center_left (T - J) T + (w1 - 1) / 2 + 1) + (L - 1) / 2))%Z.
Proof.
  intros H1 Hk HR HL HJ HT.
  assert (Hmid : (center_left (T - L) T + (L - 1) / 2 = (T - 1) / 2)%Z)
    by (apply center_left_mid; lia).
  set (c := center_left (T - L) T) in *. clearbody c.
  unfold center_left. subst T J. pyarith.
Qed.

(** ** Padding and merging the children's rows (lines 58-60) *)

Lemma rect_len (w : Z) (b : block) (line : pystr) : rect w b -> In line b -> py_len line = w.
Proof. intros [_ H] Hin. rewrite Forall_forall in H. auto. Qed.

Lemma pad_block_rect (H w : Z) (b : block) :
  rect w b -> (Z.of_nat (length b) <= H)%Z ->
  rect w (pad_block H b) /\ Z.of_nat (length (pad_block H b)) = H.
Proof.
  intros Hr Hlen. split; [|apply pad_block_length, Hlen].
  destruct Hr as [Hne Hb]. split; [apply pad_block_ne, Hne|].
  unfold pad_block. apply Forall_app. split; [exact Hb|].
  rewrite py_list_mul_singleton. apply Forall_forall. intros x Hx. apply repeat_spec in Hx. subst x.
  destruct b as [|x b]; [congruence|]. inv Hb. unfold py_len. rewrite py_strmul_length. simpl. lia.
Qed.

Lemma merged_row_rect (T : Z) (ws : list Z) (bs : list block) (i : nat) :
  ws <> [] -> Forall2 rect ws bs -> Forall (fun b => i < length b)%nat bs ->
  (py_sum ws + 2 * Z.of_nat (length ws) - 2 <= T)%Z ->
  exists row, merged_row T bs (Z.of_nat i) = Ok row /\ py_len row = T.
Proof.
  intros Hne Hr Hi HT. unfold merged_row.
  erewrite mapM_total.
  2: { intros b Hb. apply (py_getitem_nth b i []). rewrite Forall_forall in Hi. auto. }
  eexists. split; [reflexivity|]. rewrite py_center_length.
  rewrite (join_two_spaces_len _ ws); [lia | exact Hne|].
  clear Hne HT. induction Hr as [|w b ws bs Hwb _ IH]; constructor; [|inv Hi; auto].
  inv Hi. apply (rect_len w b); [exact Hwb | apply nth_In; assumption].
Qed.

Lemma merged_rows_rect (T H : Z) (ws : list Z) (bs : list block) :
  ws <> [] -> Forall2 rect ws bs -> Forall (fun b => Z.of_nat (length b) = H) bs ->
  (py_sum ws + 2 * Z.of_nat (length ws) - 2 <= T)%Z ->
  exists rows, mapM (merged_row T bs) (py_range H) = Ok rows /\
    Forall (fun row => py_len row = T) rows /\ length rows = Z.to_nat H.
Proof.
  intros Hne Hr Hh HT.
  destruct (mapM_Forall_ok (merged_row T bs) (fun row => py_len row = T) (py_range H))
    as [rows [E [Hrows Hlen]]].
  - unfold py_range. apply Forall_map, Forall_forall. intros k Hk. apply in_seq in Hk.
    apply (merged_row_rect T ws); [exact Hne | exact Hr | | exact HT].
    apply Forall_forall. intros b Hb. rewrite Forall_forall in Hh. specialize (Hh b Hb). lia.
  - exists rows. rewrite py_range_length in Hlen. auto.
Qed.

(** ** The layout of one node *)

Lemma visible_len (l : pystr) : visible l = true -> (1 <= py_len l)%Z.
Proof. destruct l; [discriminate | unfold py_len; simpl; lia]. Qed.

Lemma rect_ne (ws : list Z) (bs : list block) : Forall2 rect ws bs -> Forall (fun b => b <> []) bs.
Proof. induction 1 as [|w b ws bs [Hne _] _ IH]; constructor; assumption. Qed.

(** Two children or more: the width between the first and the last
    child is not negative. *)
Lemma links_inner (w1 : Z) (ws : list Z) :
  ws <> [] -> Forall (fun w => 1 <= w)%Z ws ->
  (0 <= py_sum (w1 :: ws) + 2 * Z.of_nat (length (w1 :: ws)) - 2 - w1 - 2 - last ws 0)%Z.
Proof.
  intros Hne Hws. pose proof (py_sum_ge_last ws (Forall_impl _ (fun w (H : (1 <= w)%Z) => Z.le_trans 0 1 w ltac:(lia) H) Hws)).
  destruct ws; [congruence|]. simpl length in *. simpl py_sum in *. lia.
Qed.

Lemma pad_blocks_rect (H : Z) (ws : list Z) (bs : list block) :
  Forall2 rect ws bs -> Forall (fun b => Z.of_nat (length b) <= H)%Z bs ->
  Forall2 rect ws (map (pad_block H) bs) /\
  Forall (fun b => Z.of_nat (length b) = H) (map (pad_block H) bs).
Proof.
  induction 1 as [|w b ws bs Hwb _ IH]; intros Hh; [split; constructor|]. inv Hh.
  destruct (pad_block_rect H w b Hwb) as [Hr Hl]; [assumption|].
  destruct IH as [IH1 IH2]; [assumption|]. split; constructor; assumption.
Qed.

Lemma merged_row_eq (T : Z) (bs : list block) (j : nat) :
  Forall (fun b => j < length b)%nat bs -> merged_row T bs (Z.of_nat j) = Ok (row_of T bs j).
Proof.
  intros Hj. unfold merged_row, row_of. erewrite mapM_total; [reflexivity|].
  intros b Hb. apply (py_getitem_nth b j []). rewrite Forall_forall in Hj. auto.
Qed.

Lemma anchors_last (base : Z) (ws : list Z) :
  ws <> [] ->
  last (anchors base ws) 0%Z =
  (base + (py_sum ws + 2 * Z.of_nat (length ws) - 2) - last ws 0 + (last ws 0 - 1) / 2)%Z.
Proof.
  revert base; induction ws as [|w [|w' ws] IH]; intros base Hne; [congruence | simpl; lia |].
  change (last (anchors base (w :: w' :: ws)) 0%Z) with (last (anchors (base + w + 2) (w' :: ws)) 0%Z).
  rewrite IH by discriminate. change (last (w :: w' :: ws) 0%Z) with (last (w' :: ws) 0%Z).
  simpl length. simpl py_sum. lia.
Qed.

(** The code's span line (line 55, with the values of lines 50-54) is
    the span line of the geometry. *)
Lemma span_line_geometry (T L J w1 wk : Z) :
  (1 <= L <= T)%Z ->
  py_strmul space (center_left (T - J) T + (w1 - 1) / 2 + 1) ++
  py_strmul underscore (center_left (T - L) T - (center_left (T - J) T + (w1 - 1) / 2 + 1) + (L - 1) / 2) ++
  [bar] ++
  py_strmul underscore (T - (center_left (T - J) T + (w1 - 1) / 2 + 1)
     - (T - J - center_left (T - J) T + (wk - 1 - (wk - 1) / 2) + 1) - 1
     - (center_left (T - L) T - (center_left (T - J) T + (w1 - 1) / 2 + 1) + (L - 1) / 2)) ++
  py_strmul space (T - J - center_left (T - J) T + (wk - 1 - (wk - 1) / 2) + 1) =
  span_of T (center_left (T - J) T + (w1 - 1) / 2)
            (center_left (T - J) T + J - wk + (wk - 1) / 2) ((T - 1) / 2).
Proof.
  intros HL. pose proof (center_left_mid L T HL) as Hmid. unfold span_of.
  repeat match goal with
  | |- py_strmul ?c ?x = py_strmul ?c ?y => f_equal; lia
  | |- ?a ++ ?b = ?c ++ ?d => f_equal
  end.
Qed.

(** The [index] arithmetic of lines 42-61 computes the geometry: on
    rectangular children at least one column wide and a visible label,
    [layout] returns [node_block]. *)
Lemma layout_node {N : Type} (l : pystr) (ts : list N) (bs : list block) (ws : list Z) :
  visible l = true -> ts <> [] -> length ts = length bs -> Forall2 rect ws bs ->
  Forall (fun w => 1 <= w)%Z ws ->
  layout l ts bs = Ok (node_block l (length ts) ws bs).
Proof.
  intros Hv Hts Hlen Hr Hw1. pose proof (visible_len l Hv) as HL.
  unfold layout, node_block. rewrite (widths_ok bs (rect_ne ws bs Hr)), (widths_rect ws bs Hr).
  set (T := Z.max (py_sum ws + 2 * Z.of_nat (length ws) - 1) (py_len l)).
  destruct ts as [|t ts']; [congruence|].
  assert (Hwne : ws <> []) by (destruct bs, ws; try discriminate; inv Hr).
  pose proof (links_len ws Hwne Hw1) as HJ.
  rewrite links_index_hd, links_rindex_last, py_index_center by (assumption || lia).
  assert (Hbne : map (@length pystr) bs <> []) by (destruct bs; [discriminate | discriminate]).
  rewrite <- (map_map (@length pystr) Z.of_nat bs), (py_max_of_nat _ Hbne).
  set (H := list_max (map (@length pystr) bs)).
  rewrite (mapM_total (pad_subnode (Z.of_nat H)) (pad_block (Z.of_nat H)) bs)
    by (intros b Hb; apply pad_subnode_ok; exact (proj1 (Forall_forall _ _) (rect_ne ws bs Hr) b Hb)).
  destruct (pad_blocks_rect (Z.of_nat H) ws bs Hr) as [_ Hph].
  { apply Forall_forall. intros b Hb. apply Nat2Z.inj_le, list_max_in_le, in_map, Hb. }
  unfold py_range. rewrite mapM_map, Nat2Z.id.
  rewrite (mapM_total _ (row_of T (map (pad_block (Z.of_nat H)) bs))).
  2: { intros j Hj. apply in_seq in Hj. apply merged_row_eq. rewrite Forall_forall in Hph |- *.
       intros b Hb. specialize (Hph b Hb). lia. }
  rewrite <- HJ. destruct (1 <? length (t :: ts'))%nat; [|reflexivity].
  rewrite span_line_geometry by (unfold T; lia).
  destruct ws as [|w1 ws']; [congruence|]. rewrite anchors_last by discriminate.
  rewrite HJ, <- !app_assoc. reflexivity.
Qed.

Lemma span_of_len (T a1 ak c : Z) :
  (0 <= a1)%Z -> (a1 < c < ak)%Z -> (ak < T)%Z -> py_len (span_of T a1 ak c) = T.
Proof. intros. unfold span_of, py_len. autorewrite with pylen. simpl. lia. Qed.

Lemma row_of_len (T : Z) (ws : list Z) (bs : list block) (j : nat) :
  ws <> [] -> Forall2 rect ws bs -> Forall (fun b => j < length b)%nat bs ->
  (py_sum ws + 2 * Z.of_nat (length ws) - 2 <= T)%Z -> py_len (row_of T bs j) = T.
Proof.
  intros Hne Hr Hj HT. unfold row_of. rewrite py_center_length.
  rewrite (join_two_spaces_len _ ws); [lia | exact Hne|].
  clear Hne HT. induction Hr as [|w b ws bs Hwb _ IH]; constructor; [|inv Hj; auto].
  inv Hj. apply (rect_len w b); [exact Hwb | apply nth_In; assumption].
Qed.

(** With two children or more, the outer anchors lie strictly on either
    side of the label's middle column [(T-1)/2], inside the block. *)
Lemma span_anchors (ws : list Z) (L : Z) :
  (1 < length ws)%nat -> Forall (fun w => 1 <= w)%Z ws -> (1 <= L)%Z ->
  let T := Z.max (py_sum ws + 2 * Z.of_nat (length ws) - 1) L in
  let A := anchors (center_left (T - (py_sum ws + 2 * Z.of_nat (length ws) - 2)) T) ws in
  (0 <= hd 0 A /\ hd 0 A < (T - 1) / 2 < last A 0 /\ last A 0 < T)%Z.
Proof.
  intros Hk Hw1 HL T A. destruct ws as [|w1 ws'']; [simpl in Hk; lia|].
  assert (Hws'' : ws'' <> []) by (destruct ws''; [simpl in Hk; lia | discriminate]).
  pose proof (links_inner w1 ws'' Hws'' (Forall_inv_tail Hw1)) as HR.
  pose proof (Forall_last _ ws'' 0%Z (Forall_inv_tail Hw1) Hws'') as Hwk.
  pose proof (Forall_inv Hw1) as Hw1'. cbv beta in Hwk, Hw1'. unfold A.
  rewrite anchors_last by discriminate. cbn [hd anchors].
  replace (last (w1 :: ws'') 0%Z) with (last ws'' 0%Z) by (destruct ws''; [congruence | reflexivity]).
  set (J := (py_sum (w1 :: ws'') + 2 * Z.of_nat (length (w1 :: ws'')) - 2)%Z) in *.
  destruct (span_bounds w1 (last ws'' 0%Z) (J - w1 - 2 - last ws'' 0%Z) L J T)
    as [HLS HRS]; [assumption | assumption | unfold J; lia | assumption | lia | unfold T, J; lia |].
  pose proof (center_left_nonneg (T - J) T ltac:(unfold T, J; lia)) as HP.
  assert (Hmid : (center_left (T - L) T + (L - 1) / 2 = (T - 1) / 2)%Z)
    by (apply center_left_mid; unfold T; lia).
  pyarith.
Qed.

Lemma layout_rect {N : Type} (l : pystr) (ts : list N) (bs : list block) (ws : list Z) :
  visible l = true -> length ts = length bs -> Forall2 rect ws bs -> Forall (fun w => 1 <= w)%Z ws ->
  exists b, layout l ts bs = Ok b /\
    rect (Z.max (py_sum ws + 2 * Z.of_nat (length ws) - 1) (py_len l)) b /\
    length b = match ts with
               | [] => 1%nat
               | _ => ((if (1 <? length ts)%nat then 3 else 2) + list_max (map (@length pystr) bs))%nat
               end.
Proof.
  intros Hv Hlen Hr Hw1. pose proof (visible_len l Hv) as HL.
  set (T := Z.max (py_sum ws + 2 * Z.of_nat (length ws) - 1) (py_len l)).
  destruct ts as [|t ts'].
  - destruct bs; [|discriminate]. inv Hr. unfold layout. simpl. eexists. split; [reflexivity|].
    split; [|reflexivity]. split; [discriminate|]. constructor; [|constructor].
    rewrite py_center_length. unfold T. simpl. lia.
  - rewrite (layout_node l (t :: ts') bs ws Hv ltac:(discriminate) Hlen Hr Hw1).
    eexists. split; [reflexivity|]. unfold node_block. fold T.
    assert (Hwne : ws <> []) by (destruct bs, ws; try discriminate; inv Hr).
    pose proof (links_len ws Hwne Hw1) as HJ.
    set (H := list_max (map (@length pystr) bs)).
    destruct (pad_blocks_rect (Z.of_nat H) ws bs Hr) as [Hpr Hph].
    { apply Forall_forall. intros b Hb. apply Nat2Z.inj_le, list_max_in_le, in_map, Hb. }
    assert (Hrows : Forall (fun row => py_len row = T) (map (row_of T (map (pad_block (Z.of_nat H)) bs)) (seq 0 H))).
    { apply Forall_map, Forall_forall. intros j Hj. apply in_seq in Hj.
      apply (row_of_len T ws); [exact Hwne | exact Hpr | | unfold T; lia].
      rewrite Forall_forall in Hph |- *. intros b Hb. specialize (Hph b Hb). lia. }
    assert (Hnode : py_len (py_center l T space) = T) by (rewrite py_center_length; unfold T; lia).
    assert (Hlinks : py_len (py_center (links ws) T space) = T) by (rewrite py_center_length; unfold T; lia).
    destruct (1 <? length (t :: ts'))%nat eqn:Hk.
    + apply Nat.ltb_lt in Hk. rewrite Hlen, <- (Forall2_length Hr) in Hk.
      destruct (span_anchors ws (py_len l) Hk Hw1 HL) as [H0 [[H1 H2] H3]].
      split; [split; [discriminate|] |].
      * simpl app. constructor; [exact Hnode|]. constructor; [|constructor; [exact Hlinks | exact Hrows]].
        apply span_of_len; [exact H0 | split; [exact H1 | exact H2] | exact H3].
      * simpl. rewrite length_map, length_seq. reflexivity.
    + split; [split; [discriminate|] |].
      * simpl app. constructor; [exact Hnode|]. constructor; [exact Hlinks | exact Hrows].
      * simpl. rewrite length_map, length_seq. reflexivity.
Qed.

(** ** The width and height of a rendered tree *)

Lemma tree_width_pos (t : tree) : wf_tree t = true -> (1 <= tree_width t)%Z.
Proof.
  destruct t as [l ts]. simpl. intros H. apply andb_true_iff in H. destruct H as [Hv _].
  pose proof (visible_len l Hv). lia.
Qed.

Lemma rendered_children (ts : list tree) (bs : list block) :
  Forall2 (fun t b => wf_tree t = true /\ rect (tree_width t) b /\ length b = tree_height t) ts bs ->
  Forall2 rect (map tree_width ts) bs /\ Forall (fun w => 1 <= w)%Z (map tree_width ts) /\
  map (@length pystr) bs = map tree_height ts.
Proof.
  induction 1 as [|t b ts bs [Hwf [Hr Hh]] _ [IH1 [IH2 IH3]]]; [repeat constructor|].
  split; [constructor; assumption|]. split; [constructor; [apply tree_width_pos | ]; assumption|].
  simpl. rewrite Hh, IH3. reflexivity.
Qed.

(** Shared by the theorem below and the proofs that build on it. *)
Lemma render_rect_core (t : tree) :
  wf_tree t = true ->
  exists b, render t = Ok b /\ rect (tree_width t) b /\ length b = tree_height t.
Proof.
  induction t as [l ts IH] using tree_ind'. simpl. intros Hwf.
  apply andb_true_iff in Hwf. destruct Hwf as [Hv Hts]. rewrite forallb_forall in Hts.
  destruct (mapM_Forall2 render
    (fun t b => wf_tree t = true /\ rect (tree_width t) b /\ length b = tree_height t) ts)
    as [bs [-> Hbs]].
  { rewrite Forall_forall in IH |- *. intros t Ht.
    destruct (IH t Ht (Hts t Ht)) as [b [Hb [Hr Hh]]]. exists b. auto. }
  destruct (rendered_children ts bs Hbs) as [Hr [Hw1 Hh]].
  destruct (layout_rect l ts bs (map tree_width ts) Hv (Forall2_length Hbs) Hr Hw1)
    as [b [Hb [Hrect Hlen]]].
  exists b. rewrite length_map in Hrect. split; [exact Hb|]. split; [exact Hrect|].
  rewrite Hlen, Hh. destruct ts; reflexivity.
Qed.

(** C1: every line of the block of a tree whose labels are visible has
    the same length, [tree_width t] = [max(sum(widths) + 2*k - 1,
    len(label))] as lines 43-44 compute it, and the block has
    [tree_height t] lines: a label line, a span line when there are two
    children or more, a links line, and the rows of the highest child. *)
Theorem render_rect (t : tree) :
  wf_tree t = true ->
  exists b, render t = Ok b /\ rect (tree_width t) b /\ length b = tree_height t.
Proof. apply render_rect_core. Qed.

Lemma render_rect_witness :
  wf_tree demo_tree = true /\
  exists b, render demo_tree = Ok b /\ rect (tree_width demo_tree) b /\ length b = tree_height demo_tree.
Proof. split; [reflexivity | apply render_rect; reflexivity]. Defined.

(** C2: [printTree] on a finite tree with visible labels prints
    [tree_height t] lines, all [tree_width t] characters long, and
    returns normally when the budget exceeds the depth; with a smaller
    budget it prints nothing at all and raises [RecursionError], since
    the whole block is built before the first [print]. *)
Theorem printTree_rect (t : tree) (fuel : nat) :
  wf_tree t = true ->
  (depth t < fuel ->
   exists lines, printTree tree_info fuel t = (lines, Ok tt) /\
     Forall (fun line => py_len line = tree_width t) lines /\ length lines = tree_height t) /\
  (fuel <= depth t -> printTree tree_info fuel t = ([], Err RecursionError)).
Proof.
  intros Hwf. unfold printTree. rewrite treeLines_tree_core. split; intros Hd.
  - replace (depth t <? fuel)%nat with true by (symmetry; apply Nat.ltb_lt; exact Hd).
    destruct (render_rect_core t Hwf) as [b [-> [[_ Hr] Hh]]]. eauto.
  - replace (depth t <? fuel)%nat with false by (symmetry; apply Nat.ltb_ge; exact Hd).
    reflexivity.
Qed.

(** The demo tree has depth 3: a budget of 1000 prints its ten lines,
    a budget of 3 prints nothing. *)
Lemma printTree_rect_witness :
  wf_tree demo_tree = true /\ depth demo_tree < 1000 /\ 3 <= depth demo_tree /\
  (exists lines, printTree tree_info 1000 demo_tree = (lines, Ok tt) /\
    Forall (fun line => py_len line = tree_width demo_tree) lines /\
    length lines = tree_height demo_tree) /\
  printTree tree_info 3 demo_tree = ([], Err RecursionError).
Proof.
  split; [reflexivity|]. split; [vm_compute; lia|]. split; [vm_compute; lia|].
  destruct (printTree_rect demo_tree 1000 eq_refl) as [H1 _].
  destruct (printTree_rect demo_tree 3 eq_refl) as [_ H2].
  split; [apply H1; vm_compute; lia | apply H2; vm_compute; lia].
Defined.

(** ** Heaps of [TreeNode] objects *)

Lemma nth_update_nth {A : Type} (f : A -> A) (l : list A) (n m : nat) (d : A) :
  n < length l -> nth m (update_nth f n l) d = if Nat.eqb m n then f (nth m l d) else nth m l d.
Proof.
  revert n m; induction l as [|x l IH]; intros n m Hn; [simpl in Hn; lia|].
  destruct n as [|n], m as [|m]; simpl; auto. apply IH. simpl in Hn. lia.
Qed.

Lemma length_update_nth {A : Type} (f : A -> A) (l : list A) (n : nat) :
  length (update_nth f n l) = length l.
Proof. revert n; induction l as [|x l IH]; intros [|n]; simpl; auto. Qed.

Lemma heap_children_app (h : heap) (x : TreeNode) (n c : nat) :
  tn_children x = [] -> In c (tn_children (nth n (h ++ [x]) null_node)) ->
  In c (tn_children (nth n h null_node)).
Proof.
  intros Hx Hc. destruct (Nat.lt_ge_cases n (length h)) as [Hn|Hn].
  - rewrite app_nth1 in Hc by exact Hn. exact Hc.
  - rewrite app_nth2 in Hc by exact Hn. rewrite nth_overflow by exact Hn.
    destruct (n - length h) as [|[|k]]; simpl in Hc; [rewrite Hx in Hc | | ]; destruct Hc.
Qed.

(** C8: [TreeNode(label, parent)] with a parent already allocated keeps
    the heap acyclic: every child is allocated after its parent. *)
Theorem new_TreeNode_ok (label : pystr) (parent : option nat) (h : heap) :
  heap_ok h -> (forall p, parent = Some p -> p < length h) ->
  heap_ok (snd (new_TreeNode label parent h)).
Proof.
  intros Hh Hp n c. unfold new_TreeNode. destruct parent as [p|]; simpl.
  - specialize (Hp p eq_refl). rewrite length_update_nth, length_app. simpl.
    rewrite nth_update_nth by (rewrite length_app; simpl; lia).
    destruct (n =? p)%nat eqn:E.
    + apply Nat.eqb_eq in E. subst n. simpl. intros Hc. apply in_app_or in Hc.
      destruct Hc as [Hc | [<- | []]]; [|lia].
      apply heap_children_app, Hh in Hc; [lia | reflexivity].
    + intros Hc. apply heap_children_app, Hh in Hc; [lia | reflexivity].
  - rewrite length_app. simpl. intros Hc. apply heap_children_app, Hh in Hc; [lia | reflexivity].
Qed.

Lemma new_TreeNode_witness :
  heap_ok [] /\ heap_ok (snd (new_TreeNode (s "05") None [])).
Proof.
  assert (H0 : heap_ok []) by (intros n c Hc; destruct n; destruct Hc).
  split; [exact H0|]. apply new_TreeNode_ok; [exact H0 | discriminate].
Defined.

Lemma heap_okb_ok (h : heap) : heap_okb h = true -> heap_ok h.
Proof.
  unfold heap_okb. rewrite forallb_forall. intros H n c Hc.
  destruct (Nat.lt_ge_cases n (length h)) as [Hn|Hn].
  - assert (Hs : In n (seq 0 (length h))) by (apply in_seq; lia).
    specialize (H n Hs). rewrite forallb_forall in H. specialize (H c Hc).
    apply andb_true_iff in H. destruct H as [H1 H2]. apply Nat.ltb_lt in H1, H2. lia.
  - rewrite nth_overflow in Hc by exact Hn. destruct Hc.
Qed.

Section HeapInfo.
Variable h : heap.
Hypothesis Hh : heap_ok h.

Lemma heap_rank_children (n c : nat) :
  In c (snd (heap_info h n)) -> length h - c < length h - n.
Proof. unfold heap_info. simpl. intros Hc. apply Hh in Hc. lia. Qed.

Definition heap_ranked : RankedInfo (heap_info h) :=
  {| rank := fun n => length h - n; rank_children := heap_rank_children |}.

(** C7: [printTree(node, lambda n:(n.label,n.children))] on any heap
    of [TreeNode] objects built by the constructor returns normally
    once the budget exceeds the number of objects. *)
Theorem printTree_heap_total (fuel n : nat) :
  length h < fuel -> exists lines, printTree (heap_info h) fuel n = (lines, Ok tt).
Proof.
  intros Hf. unfold printTree.
  rewrite (@treeLines_unfold nat (heap_info h) heap_ranked fuel n) by (simpl; lia).
  destruct (render_total_core (unfold_tree (heap_info h) fuel n)) as [b [-> _]]. eauto.
Qed.
End HeapInfo.

Lemma demo_heap_ok : heap_okb (snd demo_heap) = true.
Proof. vm_compute. reflexivity. Qed.

(** The [__main__] block's heap: it prints the ten lines of the sample
    in the header comment of printTree.py. *)
Lemma printTree_heap_total_witness :
  heap_ok (snd demo_heap) /\ length (snd demo_heap) < 1000 /\
  (exists lines, printTree (heap_info (snd demo_heap)) 1000 (fst demo_heap) = (lines, Ok tt)) /\
  demo_main = (demo_expected, Ok tt).
Proof.
  assert (Hh : heap_ok (snd demo_heap)) by (apply heap_okb_ok, demo_heap_ok).
  split; [exact Hh|]. split; [vm_compute; lia|]. split; [|vm_compute; reflexivity].
  apply (printTree_heap_total (snd demo_heap) Hh 1000 (fst demo_heap)). vm_compute. lia.
Defined.

(** The [__main__] block draws [demo_tree]. *)
Lemma demo_unfold :
  unfold_tree (heap_info (snd demo_heap)) 1000 (fst demo_heap) = demo_tree.
Proof. vm_compute. reflexivity. Qed.

(** C10: the width invariant needs a visible label.  Under an empty
    label with two children or more, [nodeLine.index(nodeId)] is [0]
    and [(len(nodeId)-1)//2] is [-1], so [leftSpan] is negative, no
    underscore goes left of the bar, and [rightSpan] makes up the
    difference: the span line is always at least two characters longer
    than the label line above it. *)
Theorem render_blank_label (ts : list tree) (b : block) :
  (2 <= length ts)%nat -> render (Node [] ts) = Ok b ->
  exists l0 l1 rest, b = l0 :: l1 :: rest /\ (length l0 + 2 <= length l1)%nat.
Proof.
  intros Hk Hr. destruct ts as [|t1 [|t2 ts]]; cbn [length] in Hk; [lia|lia|].
  cbn [render] in Hr. unfold layout in Hr. cbv zeta in Hr. res_destr.
  repeat match goal with
  | H : py_index _ [] = Ok _ |- _ => rewrite py_index_nil in H; inv H
  | H : py_index _ _ = Ok _ |- _ => apply py_index_nonneg in H
  end.
  injection Hr as <-. do 3 eexists. split; [reflexivity|].
  set (T := Z.max _ _).
  pose proof (py_center_length [] T space) as HL. unfold py_len in HL |- *.
  rewrite !length_app, !py_strmul_length. cbn [length] in *.
  rewrite length_app, !py_strmul_length. change (-1 / 2)%Z with (-1)%Z. lia.
Qed.

(** Two leaves [a] and [b] under an empty label: the span line is 8
    characters wide, the label line 5. *)
Lemma render_blank_label_witness :
  (2 <= length [Node (s "a") []; Node (s "b") []])%nat /\
  render (Node [] [Node (s "a") []; Node (s "b") []]) = Ok [s "     "; s "  |____ "; s " |  |"; s " a  b"] /\
  exists l0 l1 rest, [s "     "; s "  |____ "; s " |  |"; s " a  b"] = l0 :: l1 :: rest /\
                     (length l0 + 2 <= length l1)%nat.
Proof.
  split; [cbn; lia|]. split; [vm_compute; reflexivity|].
  apply (render_blank_label [Node (s "a") []; Node (s "b") []]); [cbn; lia | vm_compute; reflexivity].
Defined.
