(* ===== verification/TreeAlign.v ===== *)
(** * TreeAlign: the columns of a rendered node

    The layout of [TreeLines.layout] (printTree.py, lines 42-61) places
    its lines by [str.index] arithmetic.  This file states what that
    arithmetic achieves as columns of the block: the bars of the links
    line sit at the anchors of the children's fields, the label of every
    child sits under its bar with its middle character at the anchor,
    the span line runs from the first anchor to the last one, and its
    bar sits under the middle character of the node's own label. *)

From Stdlib Require Import List Arith ZArith Lia Bool Ascii.
From Stdlib Require String.
Import String.StringSyntax.
From S2P Require Import Prelude PyStr TreeLines.
Import ListNotations.
Open Scope py_scope.

Local Abbreviation links ws := (py_join two_spaces (map (fun width => py_center [bar] width space) ws)).

(** [sub] occurs in [line] from column [c] on. *)
Definition at_col (line : pystr) (c : Z) (sub : pystr) : bool :=
  (0 <=? c)%Z && is_prefix sub (skipn (Z.to_nat c) line).

(** The label of a tree's root. *)
Definition label (t : tree) : pystr := fst (tree_info t).

(** The columns of the block [b] of a tree [t] of width [T]: the
    label's middle character sits at column [(T-1)/2]; with children,
    the bars of the links line sit at columns [A], one per child, and
    the first row of the children shows each child's label with its
    middle character at its column of [A]; with two children or more,
    the span line runs between the first and last column of [A], which
    lie on either side of [(T-1)/2], and its one bar is at [(T-1)/2]. *)
Definition aligned (t : tree) (b : block) : Prop :=
  let l := label t in
  let ts := snd (tree_info t) in
  let T := tree_width t in
  let r := if (1 <? length ts)%nat then 2%nat else 1%nat in
  at_col (nth 0 b []) ((T - 1) / 2 - (py_len l - 1) / 2) l = true /\
  (ts <> [] -> exists A : list Z,
     bar_columns (nth r b []) = map Z.to_nat A /\
     Forall2 (fun a c => at_col (nth (S r) b []) (a - (py_len (label c) - 1) / 2) (label c) = true) A ts /\
     ((1 < length ts)%nat ->
        (0 <= hd 0 A /\ hd 0 A < (T - 1) / 2 < last A 0 /\ last A 0 < T)%Z /\
        bar_columns (nth 1 b []) = [Z.to_nat ((T - 1) / 2)] /\
        nth 1 b [] = span_of T (hd 0%Z A) (last A 0%Z) ((T - 1) / 2))).

(** ** Positions in concatenations *)

Lemma is_prefix_app_r (p s t : pystr) : is_prefix p s = true -> is_prefix p (s ++ t) = true.
Proof.
  revert s; induction p as [|a p IH]; intros [|b s] H; try discriminate; [reflexivity..|].
  simpl in *. apply andb_true_iff in H. destruct H as [-> H]. apply IH, H.
Qed.

Lemma at_col_refl (s : pystr) : at_col s 0 s = true.
Proof. unfold at_col. simpl. rewrite <- (app_nil_r s) at 2. apply is_prefix_app. Qed.

Lemma at_col_app_r (s t sub : pystr) (c : Z) : at_col s c sub = true -> at_col (s ++ t) c sub = true.
Proof.
  unfold at_col. intros H. apply andb_true_iff in H. destruct H as [-> H].
  rewrite skipn_app. destruct (Z.to_nat c - length s)%nat eqn:E.
  - simpl. apply is_prefix_app_r, H.
  - rewrite skipn_all2 in H by lia. destruct sub; [reflexivity | discriminate].
Qed.

Lemma at_col_app_l (p s sub : pystr) (c : Z) :
  at_col s c sub = true -> at_col (p ++ s) (py_len p + c) sub = true.
Proof.
  unfold at_col, py_len. intros H. apply andb_true_iff in H. destruct H as [Hc H].
  apply Z.leb_le in Hc. apply andb_true_iff. split; [apply Z.leb_le; lia|].
  rewrite Z2Nat.inj_add, Nat2Z.id by lia.
  induction p as [|a p IH]; [exact H | exact IH].
Qed.

(** A text centred in a field at least as wide starts at the column the
    centring puts it at. *)
Lemma at_col_center (l : pystr) (w : Z) :
  (py_len l <= w)%Z -> at_col (py_center l w space) (center_left (w - py_len l) w) l = true.
Proof.
  intros Hw. rewrite py_center_pad, app_assoc by exact Hw. apply at_col_app_r.
  pose proof (center_left_nonneg (w - py_len l) w ltac:(lia)) as H.
  set (a := center_left (w - py_len l) w) in *.
  assert (Ha : a = (py_len (py_strmul space a) + 0)%Z)
    by (unfold py_len; rewrite py_strmul_length, Z2Nat.id; lia).
  rewrite Ha at 2. apply at_col_app_l, at_col_refl.
Qed.

Lemma bar_columns_cell (p : pystr) (w : Z) :
  (1 <= w)%Z ->
  bar_columns (p ++ py_center [bar] w space) = bar_columns p ++ [Z.to_nat (py_len p + (w - 1) / 2)].
Proof.
  intros Hw. rewrite center_bar by exact Hw. autorewrite with barcols. simpl.
  pose proof (Z.div_pos (w - 1) 2 ltac:(lia) ltac:(lia)).
  unfold py_len. rewrite Z2Nat.inj_add, Nat2Z.id by lia. do 2 f_equal. lia.
Qed.

(** The bars of a links line laid after [p] are at the anchors. *)
Lemma bar_columns_links (p : pystr) (ws : list Z) :
  Forall (fun w => 1 <= w)%Z ws ->
  bar_columns (p ++ links ws) = bar_columns p ++ map Z.to_nat (anchors (py_len p) ws).
Proof.
  intros H; revert p; induction H as [|w ws Hw Hws IH]; intros p.
  - simpl. rewrite !app_nil_r. reflexivity.
  - destruct ws as [|w' ws].
    + simpl map. simpl py_join. rewrite bar_columns_cell by exact Hw. reflexivity.
    + simpl map. rewrite py_join_cons by discriminate. rewrite !app_assoc, IH.
      rewrite bar_columns_app, bar_columns_cell by exact Hw.
      replace (py_len ((p ++ py_center [bar] w space) ++ two_spaces)) with (py_len p + w + 2)%Z
        by (pose proof (py_center_length [bar] w space) as Hc; unfold py_len in *;
            rewrite !length_app; simpl length in *; lia).
      rewrite <- !app_assoc. reflexivity.
Qed.

(** The span line has one bar, at column [c]. *)
Lemma bar_columns_span (T a1 ak c : Z) :
  (0 <= a1)%Z -> (a1 < c)%Z -> bar_columns (span_of T a1 ak c) = [Z.to_nat c].
Proof.
  intros H1 H2. unfold span_of. autorewrite with barcols. simpl. do 2 f_equal. lia.
Qed.

(** A links line of length [J] centred in [T] columns has its bars at
    the anchors laid from the centring's left margin. *)
Lemma bar_columns_center_links (T : Z) (ws : list Z) :
  Forall (fun w => 1 <= w)%Z ws -> (py_len (links ws) <= T)%Z ->
  bar_columns (py_center (links ws) T space) =
  map Z.to_nat (anchors (center_left (T - py_len (links ws)) T) ws).
Proof.
  intros Hw HT. pose proof (center_left_nonneg (T - py_len (links ws)) T ltac:(lia)) as H0.
  rewrite py_center_pad, app_assoc, bar_columns_app, bar_columns_links, bar_columns_spaces by assumption.
  rewrite bar_columns_spaces, app_nil_r. simpl. do 3 f_equal.
  unfold py_len at 1. rewrite py_strmul_length. lia.
Qed.

(** The block of a node with children is the geometric [node_block] of
    its children's blocks, which are rectangles of their widths. *)
Lemma render_node (l : pystr) (ts : list tree) (b : block) :
  wf_tree (Node l ts) = true -> ts <> [] -> render (Node l ts) = Ok b ->
  exists bs, Forall2 (fun t b => wf_tree t = true /\ render t = Ok b /\ rect (tree_width t) b /\ length b = tree_height t) ts bs /\
    b = node_block l (length ts) (map tree_width ts) bs.
Proof.
  simpl. intros Hwf Hne Hr. apply andb_true_iff in Hwf. destruct Hwf as [Hv Hts].
  rewrite forallb_forall in Hts.
  destruct (mapM_Forall2 render (fun t b => wf_tree t = true /\ render t = Ok b /\
    rect (tree_width t) b /\ length b = tree_height t) ts) as [bs [Hbs HF]].
  { apply Forall_forall. intros t Ht. destruct (render_rect_core t (Hts t Ht)) as [b' [Hb' HR]].
    exists b'. split; [exact Hb'|]. split; [exact (Hts t Ht)|]. split; [exact Hb' | exact HR]. }
  rewrite Hbs in Hr. exists bs. split; [exact HF|].
  destruct (rendered_children ts bs
    (Forall2_impl _ (fun t b H => conj (proj1 H) (proj2 (proj2 H))) HF)) as [Hrect [Hw1 _]].
  rewrite (layout_node l ts bs (map tree_width ts) Hv Hne (Forall2_length HF) Hrect Hw1) in Hr.
  inv Hr. reflexivity.
Qed.

(** The first line of a rendered tree is its label centred in the
    tree's width. *)
Lemma render_first_line (t : tree) (b : block) :
  wf_tree t = true -> render t = Ok b -> nth 0 b [] = py_center (label t) (tree_width t) space.
Proof.
  intros Hwf Hr. destruct t as [l [|t ts]].
  - rewrite render_leaf in Hr. inv Hr. simpl.
    replace (Z.max (-1) (py_len l)) with (py_len l) by (unfold py_len; lia).
    symmetry. apply py_center_self.
  - destruct (render_node l (t :: ts) b Hwf ltac:(discriminate) Hr) as [bs [_ ->]].
    unfold node_block. rewrite length_map. reflexivity.
Qed.

Lemma label_fits (t : tree) : wf_tree t = true -> (1 <= py_len (label t) <= tree_width t)%Z.
Proof.
  destruct t as [l ts]. cbn [label tree_info fst tree_width wf_tree]. intros H.
  apply andb_true_iff in H. destruct H as [Hv _]. pose proof (visible_len l Hv). lia.
Qed.

(** A label centred in its tree's width has its middle character at
    column [(w-1)/2]. *)
Lemma label_centred (t : tree) :
  wf_tree t = true ->
  at_col (py_center (label t) (tree_width t) space)
         ((tree_width t - 1) / 2 - (py_len (label t) - 1) / 2) (label t) = true.
Proof.
  intros Hwf. pose proof (label_fits t Hwf) as HL.
  pose proof (center_left_mid (py_len (label t)) (tree_width t) HL) as Hmid.
  replace ((tree_width t - 1) / 2 - (py_len (label t) - 1) / 2)%Z
    with (center_left (tree_width t - py_len (label t)) (tree_width t)) by lia.
  apply at_col_center. lia.
Qed.

(** In a join of the children's label lines laid after [p], each label
    has its middle character at its child's anchor. *)
Lemma join_labels (p : pystr) (base : Z) (ts : list tree) (cs : list pystr) :
  py_len p = base ->
  Forall2 (fun t x => wf_tree t = true /\ x = py_center (label t) (tree_width t) space) ts cs ->
  Forall2 (fun a t => at_col (p ++ py_join two_spaces cs) (a - (py_len (label t) - 1) / 2) (label t) = true)
          (anchors base (map tree_width ts)) ts.
Proof.
  intros Hp H; revert p base Hp; induction H as [|t x ts cs [Hwf ->] HF IH]; intros p base Hp; [constructor|].
  cbn [map anchors]. pose proof (label_fits t Hwf) as HL. constructor.
  - destruct (py_join_head two_spaces (py_center (label t) (tree_width t) space) cs) as [r ->].
    replace (base + (tree_width t - 1) / 2 - (py_len (label t) - 1) / 2)%Z
      with (py_len p + ((tree_width t - 1) / 2 - (py_len (label t) - 1) / 2))%Z by lia.
    apply at_col_app_l, at_col_app_r, label_centred, Hwf.
  - destruct cs as [|x cs]; [inv HF; constructor|]. rewrite py_join_cons by discriminate.
    rewrite !app_assoc. apply IH.
    pose proof (py_center_length (label t) (tree_width t) space).
    unfold py_len in *. rewrite !length_app. simpl length. lia.
Qed.

(** The children's first lines, as line 60 reads them from the padded
    blocks, are their labels centred in their widths. *)
Lemma first_lines (H : Z) (ts : list tree) (bs : list block) :
  Forall2 (fun t b => wf_tree t = true /\ render t = Ok b /\ rect (tree_width t) b /\ length b = tree_height t) ts bs ->
  Forall2 (fun t x => wf_tree t = true /\ x = py_center (label t) (tree_width t) space) ts
          (map (fun b => nth 0 b []) (map (pad_block H) bs)).
Proof.
  intros HF. rewrite map_map. apply Forall2_map_r. eapply Forall2_impl; [|exact HF].
  intros t b [Hwf [Hr [[Hne _] _]]]. split; [exact Hwf|].
  destruct b as [|x b]; [congruence|]. exact (render_first_line t (x :: b) Hwf Hr).
Qed.

Lemma children_rect (ts : list tree) (bs : list block) :
  Forall2 (fun t b => wf_tree t = true /\ render t = Ok b /\ rect (tree_width t) b /\ length b = tree_height t) ts bs ->
  Forall2 rect (map tree_width ts) bs /\ Forall (fun w => 1 <= w)%Z (map tree_width ts).
Proof.
  intros HF. destruct (rendered_children ts bs
    (Forall2_impl _ (fun t b H => conj (proj1 H) (proj2 (proj2 H))) HF)) as [Hr [Hw _]]. auto.
Qed.

(** In the first row of the children (line 60 at [i = 0]), each child's
    label has its middle character at the child's anchor. *)
Lemma row_labels (T H : Z) (ts : list tree) (bs : list block) :
  Forall2 (fun t b => wf_tree t = true /\ render t = Ok b /\ rect (tree_width t) b /\ length b = tree_height t) ts bs ->
  ts <> [] ->
  (py_sum (map tree_width ts) + 2 * Z.of_nat (length (map tree_width ts)) - 2 <= T)%Z ->
  Forall2 (fun a t => at_col (row_of T (map (pad_block H) bs) 0) (a - (py_len (label t) - 1) / 2) (label t) = true)
    (anchors (center_left (T - (py_sum (map tree_width ts) + 2 * Z.of_nat (length (map tree_width ts)) - 2)) T)
       (map tree_width ts)) ts.
Proof.
  intros HF Hne HT. unfold row_of. pose proof (first_lines H ts bs HF) as HC.
  set (cs := map (fun b => nth 0 b []) (map (pad_block H) bs)) in *.
  assert (Hc : Forall2 (fun w c => py_len c = w) (map tree_width ts) cs).
  { apply Forall2_map_l. eapply Forall2_impl; [|exact HC]. intros t x [Hwf ->].
    rewrite py_center_length. pose proof (label_fits t Hwf). lia. }
  pose proof (join_two_spaces_len cs (map tree_width ts) ltac:(destruct ts; [congruence | discriminate]) Hc)
    as Hlen.
  rewrite <- Hlen in HT |- *.
  pose proof (center_left_nonneg (T - py_len (py_join two_spaces cs)) T ltac:(lia)) as H0.
  rewrite py_center_pad, app_assoc by lia.
  eapply Forall2_impl; [intros a t' Hat; apply at_col_app_r, Hat|].
  apply join_labels; [|exact HC]. unfold py_len at 1. rewrite py_strmul_length. lia.
Qed.

(** C3: in the block [printTree] draws for a node of a finite tree with
    visible labels, the links line has one bar per child, each child's
    label is drawn in the next line with its middle character under its
    bar, and with two children or more the span line joins the first
    and the last bar with underscores and has its own bar under the
    middle character of the node's label: the lines connect parent and
    children. *)
Theorem render_aligned (t : tree) (b : block) :
  wf_tree t = true -> render t = Ok b -> aligned t b.
Proof.
  intros Hwf Hr. split; [rewrite (render_first_line t b Hwf Hr); apply label_centred, Hwf|].
  destruct t as [l ts]. cbn [snd tree_info]. intros Hne.
  destruct (render_node l ts b Hwf Hne Hr) as [bs [HF ->]].
  destruct (children_rect ts bs HF) as [Hrect Hw1].
  pose proof (label_fits (Node l ts) Hwf) as HL. cbn [label tree_info fst] in HL.
  change (tree_width (Node l ts))
    with (Z.max (py_sum (map tree_width ts) + 2 * Z.of_nat (length ts) - 1) (py_len l)) in *.
  rewrite <- (length_map tree_width ts) in *. unfold node_block. cbv zeta.
  set (ws := map tree_width ts) in *.
  set (T := Z.max (py_sum ws + 2 * Z.of_nat (length ws) - 1) (py_len l)) in *.
  assert (Hws : ws <> []) by (unfold ws; destruct ts; [congruence | discriminate]).
  pose proof (links_len ws Hws Hw1) as HJ.
  set (J := (py_sum ws + 2 * Z.of_nat (length ws) - 2)%Z) in *.
  exists (anchors (center_left (T - J) T) ws).
  assert (HH : 1 <= list_max (map (@length pystr) bs)).
  { destruct bs as [|b0 bs]; [inv HF; congruence|]. inv Hrect. destruct H2 as [Hb0 _].
    eapply Nat.le_trans; [|apply list_max_in_le; left; reflexivity].
    destruct b0; [congruence | simpl; lia]. }
  destruct (list_max (map (@length pystr) bs)) as [|H'] eqn:EH; [lia|].
  split; [|split].
  - destruct (1 <? length ws)%nat; cbn [nth app];
      rewrite bar_columns_center_links, HJ by (assumption || unfold T, J; lia); reflexivity.
  - destruct (1 <? length ws)%nat; cbn [nth app seq map]; apply row_labels; (assumption || unfold T, ws; lia).
  - intros Hk. apply Nat.ltb_lt in Hk as Hk'. rewrite Hk'. cbn [nth app].
    destruct (span_anchors ws (py_len l) Hk Hw1 (proj1 HL)) as [H0 [[H1 H2] H3]].
    split; [auto|]. split; [|reflexivity]. apply bar_columns_span; assumption.
Qed.

Lemma render_aligned_witness :
  wf_tree demo_tree = true /\ exists b, render demo_tree = Ok b /\ aligned demo_tree b.
Proof.
  split; [reflexivity|]. eexists. split; [vm_compute; reflexivity|].
  apply render_aligned; [reflexivity | vm_compute; reflexivity].
Defined.

Local Open Scope string_scope.

