(* ===== verification/TreeGrowth.v ===== *)
(** * TreeGrowth: a block never shrinks when its tree grows

    The spec promises that the width of a rendered block "grows
    monotonically with subtree size".  [add_child p c t] hangs the tree
    [c] as a new last child of the node of [t] reached by the child
    indices [p] (an index out of range leaves [t] as it is); any tree is
    reached from a smaller one by such steps.  The theorem shows that
    the block [treeLines] draws after the step is at least as wide and
    at least as tall as the one before. *)

From Stdlib Require Import List Arith ZArith Lia Bool.
From Stdlib Require String.
Import String.StringSyntax.
From S2P Require Import Prelude PyStr TreeLines.
Import ListNotations.
Open Scope py_scope.

Fixpoint add_child (p : list nat) (c : tree) (t : tree) : tree :=
  match t, p with
  | Node l ts, [] => Node l (ts ++ [c])
  | Node l ts, i :: p' => Node l (update_nth (add_child p' c) i ts)
  end.

(** The total length of the labels, the number of nodes and the longest
    label of a tree. *)
Fixpoint label_total (t : tree) : Z :=
  match t with Node l ts => (py_len l + py_sum (map label_total ts))%Z end.

Fixpoint node_count (t : tree) : Z :=
  match t with Node _ ts => (1 + py_sum (map node_count ts))%Z end.

Fixpoint max_label (t : tree) : Z :=
  match t with Node l ts => fold_right Z.max (py_len l) (map max_label ts) end.

(** ** Updating one element of a list *)

Lemma update_nth_sum {A : Type} (g : A -> Z) (f : A -> A) (n : nat) (l : list A) :
  (forall x, (g x <= g (f x))%Z) -> (py_sum (map g l) <= py_sum (map g (update_nth f n l)))%Z.
Proof.
  intros H. revert n; induction l as [|x l IH]; intros [|n]; simpl; try lia.
  - specialize (H x). lia.
  - specialize (IH n). lia.
Qed.

Lemma update_nth_max {A : Type} (g : A -> nat) (f : A -> A) (n : nat) (l : list A) :
  (forall x, g x <= g (f x)) -> list_max (map g l) <= list_max (map g (update_nth f n l)).
Proof.
  intros H. revert n; induction l as [|x l IH]; intros [|n]; simpl; try lia.
  - specialize (H x). lia.
  - specialize (IH n). lia.
Qed.

Lemma update_nth_forallb {A : Type} (P : A -> bool) (f : A -> A) (n : nat) (l : list A) :
  (forall x, P x = true -> P (f x) = true) -> forallb P l = true -> forallb P (update_nth f n l) = true.
Proof.
  intros H. revert n; induction l as [|x l IH]; intros [|n] Hl; simpl in *; auto;
    apply andb_true_iff in Hl as [Hx Hl]; apply andb_true_iff; auto.
Qed.

(** ** The measures of the tree grow *)

Lemma tree_width_nonneg (t : tree) : (0 <= tree_width t)%Z.
Proof. destruct t as [l ts]. simpl. unfold py_len. lia. Qed.

Lemma add_child_wf (p : list nat) (c t : tree) :
  wf_tree c = true -> wf_tree t = true -> wf_tree (add_child p c t) = true.
Proof.
  intros Hc. revert t; induction p as [|i p IH]; intros [l ts] Ht; simpl in *;
    apply andb_true_iff in Ht as [Hl Hts]; rewrite Hl; simpl.
  - rewrite forallb_app, Hts. simpl. rewrite Hc. reflexivity.
  - apply update_nth_forallb; [exact IH | exact Hts].
Qed.

Lemma add_child_width (p : list nat) (c t : tree) : (tree_width t <= tree_width (add_child p c t))%Z.
Proof.
  revert t; induction p as [|i p IH]; intros [l ts]; cbn [add_child tree_width].
  - rewrite map_app, py_sum_app, length_app.
    change (py_sum (map tree_width [c])) with (tree_width c + 0)%Z. simpl length.
    pose proof (tree_width_nonneg c). lia.
  - rewrite length_update_nth. pose proof (update_nth_sum tree_width (add_child p c) i ts IH). lia.
Qed.

Lemma add_child_height (p : list nat) (c t : tree) : tree_height t <= tree_height (add_child p c t).
Proof.
  revert t; induction p as [|i p IH]; intros [l ts]; cbn [add_child].
  - destruct ts as [|x xs]; [simpl; lia|].
    change (tree_height (Node l (x :: xs)))
      with ((if (1 <? length (x :: xs))%nat then 3 else 2) + list_max (map tree_height (x :: xs))).
    change (tree_height (Node l ((x :: xs) ++ [c])))
      with ((if (1 <? length ((x :: xs) ++ [c]))%nat then 3 else 2)
            + list_max (map tree_height ((x :: xs) ++ [c]))).
    rewrite map_app, list_max_app, length_app. simpl length.
    replace (1 <? S (length xs) + 1)%nat with true by (symmetry; apply Nat.ltb_lt; lia).
    destruct (1 <? S (length xs))%nat; lia.
  - destruct ts as [|x xs]; [destruct i; simpl; lia|].
    destruct (update_nth (add_child p c) i (x :: xs)) as [|y ys] eqn:E;
      [apply (f_equal (@length tree)) in E; rewrite length_update_nth in E; discriminate|].
    pose proof (update_nth_max tree_height (add_child p c) i (x :: xs) IH) as Hm.
    pose proof (length_update_nth (add_child p c) (x :: xs) i) as Hl. rewrite E in Hm, Hl.
    change (tree_height (Node l (x :: xs)))
      with ((if (1 <? length (x :: xs))%nat then 3 else 2) + list_max (map tree_height (x :: xs))).
    change (tree_height (Node l (y :: ys)))
      with ((if (1 <? length (y :: ys))%nat then 3 else 2) + list_max (map tree_height (y :: ys))).
    rewrite Hl. lia.
Qed.

(** C26: adding a subtree anywhere in a finite tree with visible labels
    never narrows nor shortens the block [treeLines] draws: every line
    of the block before is at most as long as every line after, and
    there are at most as many lines. *)
Theorem render_add_child (p : list nat) (c t : tree) (b b' : block) :
  wf_tree t = true -> wf_tree c = true -> render t = Ok b -> render (add_child p c t) = Ok b' ->
  Forall (fun x => Forall (fun y => py_len x <= py_len y)%Z b') b /\ length b <= length b'.
Proof.
  intros Ht Hc Hb Hb'.
  destruct (render_rect_core t Ht) as [b1 [E1 [[_ H1] L1]]]. rewrite Hb in E1. inv E1.
  destruct (render_rect_core _ (add_child_wf p c t Hc Ht)) as [b2 [E2 [[_ H2] L2]]]. rewrite Hb' in E2. inv E2.
  pose proof (add_child_width p c t). pose proof (add_child_height p c t). split; [|lia].
  eapply Forall_impl; [|exact H1]. intros x Hx. eapply Forall_impl; [|exact H2]. intros y Hy. cbv beta in Hx, Hy. lia.
Qed.

Local Open Scope string_scope.

Lemma render_add_child_witness :
  exists b b',
    wf_tree (Node (s "ab") [Node (s "c") []]) = true /\ wf_tree (Node (s "long") []) = true /\
    render (Node (s "ab") [Node (s "c") []]) = Ok b /\
    render (add_child [0] (Node (s "long") []) (Node (s "ab") [Node (s "c") []])) = Ok b' /\
    Forall (fun x => Forall (fun y => py_len x <= py_len y)%Z b') b /\ length b <= length b'.
Proof.
  do 2 eexists. split; [reflexivity|]. split; [reflexivity|].
  split; [vm_compute; reflexivity|]. split; [vm_compute; reflexivity|].
  apply (render_add_child [0] (Node (s "long") []) (Node (s "ab") [Node (s "c") []])); vm_compute; reflexivity.
Defined.

(** ** Bounds on the size of a block *)

Lemma label_total_nonneg (t : tree) : (0 <= label_total t)%Z.
Proof.
  induction t as [l ts IH] using tree_ind'. cbn [label_total].
  pose proof (py_sum_nonneg (map label_total ts) ltac:(apply Forall_map; exact IH)). unfold py_len. lia.
Qed.

Lemma node_count_pos (t : tree) : (1 <= node_count t)%Z.
Proof.
  induction t as [l ts IH] using tree_ind'. cbn [node_count].
  pose proof (py_sum_nonneg (map node_count ts)
    ltac:(apply Forall_map, Forall_forall; intros c Hc; rewrite Forall_forall in IH;
          specialize (IH c Hc); lia)). lia.
Qed.

Lemma py_sum_shift (ts : list tree) :
  py_sum (map (fun c => label_total c + 2 * (node_count c - 1))%Z ts) =
  (py_sum (map label_total ts) + 2 * py_sum (map node_count ts) - 2 * Z.of_nat (length ts))%Z.
Proof.
  induction ts as [|c ts IH]; [reflexivity|]. cbn [map length]. rewrite !py_sum_cons, IH, Nat2Z.inj_succ. lia.
Qed.

(** The width of a tree is at most the total length of its labels plus
    two columns per node but one. *)
Lemma width_upper (t : tree) : (tree_width t <= label_total t + 2 * (node_count t - 1))%Z.
Proof.
  induction t as [l ts IH] using tree_ind'. cbn [tree_width label_total node_count].
  pose proof (py_sum_map_le tree_width _ ts IH) as Hs. rewrite py_sum_shift in Hs.
  pose proof (py_sum_nonneg (map label_total ts)
    ltac:(apply Forall_map, Forall_forall; intros; apply label_total_nonneg)).
  pose proof (py_sum_nonneg (map node_count ts)
    ltac:(apply Forall_map, Forall_forall; intros c _; pose proof (node_count_pos c); lia)).
  unfold py_len in *. lia.
Qed.

Lemma fold_max_le (b x : Z) (l : list Z) :
  (x <= b)%Z -> Forall (fun y => y <= b)%Z l -> (fold_right Z.max x l <= b)%Z.
Proof. intros Hx. induction 1; simpl; lia. Qed.

(** The width of a tree is at least the length of each of its labels. *)
Lemma width_lower (t : tree) : (max_label t <= tree_width t)%Z.
Proof.
  induction t as [l ts IH] using tree_ind'. cbn [max_label tree_width].
  apply fold_max_le; [lia|]. apply Forall_map, Forall_forall. intros c Hc.
  rewrite Forall_forall in IH. specialize (IH c Hc).
  pose proof (py_sum_map_in tree_width ts c
    ltac:(apply Forall_forall; intros; apply tree_width_nonneg) Hc).
  assert (1 <= length ts)%nat by (destruct ts; [destruct Hc | simpl; lia]). lia.
Qed.

Lemma depth_node (l : pystr) (ts : list tree) :
  ts <> [] -> exists c, In c ts /\ depth (Node l ts) = S (depth c).
Proof.
  intros Hne. cbn [depth].
  assert (Hm : map (fun c => S (depth c)) ts <> []) by (destruct ts; [congruence | discriminate]).
  apply list_max_in, in_map_iff in Hm. destruct Hm as [c [Hc Hin]]. eauto.
Qed.

(** Each level adds two lines (links line and label) or three (with a
    span line) to the block. *)
Lemma height_bounds (t : tree) : 2 * depth t + 1 <= tree_height t <= 3 * depth t + 1.
Proof.
  induction t as [l ts IH] using tree_ind'. destruct ts as [|x xs]; [simpl; lia|].
  destruct (depth_node l (x :: xs) ltac:(discriminate)) as [c [Hc Hd]].
  change (tree_height (Node l (x :: xs)))
    with ((if (1 <? length (x :: xs))%nat then 3 else 2) + list_max (map tree_height (x :: xs))).
  rewrite Forall_forall in IH. pose proof (IH c Hc) as Hcb.
  pose proof (list_max_in_le (map tree_height (x :: xs)) (tree_height c) (in_map _ _ _ Hc)).
  assert (Hup : list_max (map tree_height (x :: xs)) <= 3 * depth c + 1).
  { apply list_max_le, Forall_map, Forall_forall. intros c' Hc'.
    pose proof (IH c' Hc'). pose proof (depth_child (Node l (x :: xs)) c' Hc'). lia. }
  destruct (1 <? length (x :: xs))%nat; lia.
Qed.

(** C31: the block of a finite tree with visible labels has lines at
    least as long as its longest label and at most as long as all its
    labels together plus two columns per node but one, and between
    [2d + 1] and [3d + 1] lines for a tree of depth [d]. *)
Theorem render_bounds (t : tree) (b : block) :
  wf_tree t = true -> render t = Ok b ->
  Forall (fun line => max_label t <= py_len line <= label_total t + 2 * (node_count t - 1))%Z b /\
  2 * depth t + 1 <= length b <= 3 * depth t + 1.
Proof.
  intros Hwf Hb. destruct (render_rect_core t Hwf) as [b1 [E [[_ Hr] Hl]]]. rewrite Hb in E. inv E.
  pose proof (width_lower t). pose proof (width_upper t). pose proof (height_bounds t).
  split; [|lia]. eapply Forall_impl; [|exact Hr]. intros line Hline. cbv beta in Hline. lia.
Qed.

Lemma render_bounds_witness :
  exists b, wf_tree demo_tree = true /\ render demo_tree = Ok b /\
    Forall (fun line => max_label demo_tree <= py_len line <=
                        label_total demo_tree + 2 * (node_count demo_tree - 1))%Z b /\
    2 * depth demo_tree + 1 <= length b <= 3 * depth demo_tree + 1.
Proof.
  eexists. split; [reflexivity|]. split; [vm_compute; reflexivity|].
  apply render_bounds; [reflexivity | vm_compute; reflexivity].
Defined.
