(* ===== verification/TreeHeap.v ===== *)
(** * TreeHeap: trees of [TreeNode] objects and the callback that reads them

    The [__main__] block of printTree.py (lines 69-88) builds a tree of
    [TreeNode] objects, each constructor call appending the new object
    to its parent's [children], and hands [printTree] the callback
    [lambda n:(n.label,n.children)].  This file shows the two agree:
    building any rose tree node by node, parents before children and
    each node's children in order, and reading it back through the
    callback gives the tree itself.  [repr h n t] says the objects of
    the heap [h] reachable from address [n] form the tree [t]. *)

From Stdlib Require Import List Arith Lia.
From S2P Require Import Prelude PyStr TreeLines.
Import ListNotations.

(** Builds [t] with [TreeNode(label, parent)] calls, depth first: the
    node, then each child subtree in order with the node as parent. *)
Fixpoint build (parent : option nat) (t : tree) (h : heap) : nat * heap :=
  match t with
  | Node l ts =>
      let '(self, h1) := new_TreeNode l parent h in
      (self, fold_left (fun h c => snd (build (Some self) c h)) ts h1)
  end.

Definition build_tree (t : tree) : nat * heap := build None t [].

Local Set Warnings "-register-all".
Inductive repr (h : heap) : nat -> tree -> Prop :=
| repr_node (n : nat) (l : pystr) (cs : list nat) (ts : list tree) :
    nth n h null_node = {| tn_label := l; tn_children := cs |} ->
    Forall2 (repr h) cs ts -> repr h n (Node l ts).

(** [h'] has the objects of [h] at the addresses [a] to [b - 1]. *)
Definition agree_on (a b : nat) (h h' : heap) : Prop :=
  forall m, a <= m < b -> nth m h' null_node = nth m h null_node.

(** What [build parent t h] returns and leaves: the new root is the next
    free address; the old objects are untouched but for the parent,
    which gains the root as its last child; and the new objects, in
    any heap that keeps them, form [t]. *)
Definition build_spec (parent : option nat) (t : tree) (h : heap) : Prop :=
  let '(self, h') := build parent t h in
  self = length h /\ length h < length h' /\
  (forall m, m < length h -> Some m <> parent -> nth m h' null_node = nth m h null_node) /\
  (forall p, parent = Some p ->
     nth p h' null_node = {| tn_label := tn_label (nth p h null_node);
                             tn_children := tn_children (nth p h null_node) ++ [self] |}) /\
  (forall h'', agree_on (length h) (length h') h' h'' -> repr h'' self t).

(** ** The constructor *)

Lemma new_TreeNode_spec (l : pystr) (parent : option nat) (h : heap) :
  (forall p, parent = Some p -> p < length h) ->
  let '(self, h1) := new_TreeNode l parent h in
  self = length h /\ length h1 = S (length h) /\
  nth (length h) h1 null_node = {| tn_label := l; tn_children := [] |} /\
  (forall m, m < length h -> Some m <> parent -> nth m h1 null_node = nth m h null_node) /\
  (forall p, parent = Some p ->
     nth p h1 null_node = {| tn_label := tn_label (nth p h null_node);
                             tn_children := tn_children (nth p h null_node) ++ [length h] |}).
Proof.
  intros Hp. unfold new_TreeNode.
  assert (Hlen : length (h ++ [{| tn_label := l; tn_children := [] |}]) = S (length h))
    by (rewrite length_app; simpl; lia).
  assert (Hold : forall m, m < length h ->
            nth m (h ++ [{| tn_label := l; tn_children := [] |}]) null_node = nth m h null_node)
    by (intros m Hm; apply app_nth1, Hm).
  assert (Hnew : nth (length h) (h ++ [{| tn_label := l; tn_children := [] |}]) null_node =
                 {| tn_label := l; tn_children := [] |})
    by (rewrite app_nth2, Nat.sub_diag by lia; reflexivity).
  destruct parent as [p|].
  - specialize (Hp p eq_refl).
    split; [reflexivity|]. split; [rewrite length_update_nth; exact Hlen|].
    split; [rewrite nth_update_nth by lia;
            replace (Nat.eqb (length h) p) with false by (symmetry; apply Nat.eqb_neq; lia); exact Hnew|].
    split.
    + intros m Hm Hne. rewrite nth_update_nth by lia.
      replace (Nat.eqb m p) with false by (symmetry; apply Nat.eqb_neq; congruence). apply Hold, Hm.
    + intros p' [= <-]. rewrite nth_update_nth, Nat.eqb_refl, Hold by lia. reflexivity.
  - split; [reflexivity|]. split; [exact Hlen|]. split; [exact Hnew|].
    split; [intros m Hm _; apply Hold, Hm | discriminate].
Qed.

(** ** Building the children one after another *)

Lemma build_children_spec (self : nat) (cs : list tree) (h : heap) :
  self < length h -> Forall (fun c => forall h, self < length h -> build_spec (Some self) c h) cs ->
  let h' := fold_left (fun h c => snd (build (Some self) c h)) cs h in
  length h <= length h' /\
  (forall m, m < length h -> m <> self -> nth m h' null_node = nth m h null_node) /\
  exists idxs, tn_label (nth self h' null_node) = tn_label (nth self h null_node) /\
    tn_children (nth self h' null_node) = tn_children (nth self h null_node) ++ idxs /\
    (forall h'', agree_on (length h) (length h') h' h'' -> Forall2 (repr h'') idxs cs).
Proof.
  intros Hs HF; revert h Hs; induction HF as [|c cs Hc _ IH]; intros h Hs; simpl.
  - split; [lia|]. split; [reflexivity|]. exists []. rewrite app_nil_r. auto.
  - specialize (Hc h Hs). unfold build_spec in Hc.
    destruct (build (Some self) c h) as [i h1] eqn:Eb. simpl.
    destruct Hc as [-> [Hl1 [Hu1 [Hp1 Hr1]]]].
    destruct (IH h1 ltac:(lia)) as [Hl2 [Hu2 [idxs [Hlab [Hch Hr2]]]]].
    split; [lia|]. split.
    + intros m Hm Hne. rewrite Hu2 by lia. apply Hu1; congruence.
    + exists (length h :: idxs). rewrite Hlab, Hch, (Hp1 self eq_refl). simpl.
      split; [reflexivity|]. split; [rewrite <- app_assoc; reflexivity|].
      intros h'' Hag. constructor.
      * apply Hr1. intros m Hm. rewrite (Hag m) by lia. apply Hu2; lia.
      * apply Hr2. intros m Hm. apply Hag. lia.
Qed.

Lemma build_ok (parent : option nat) (t : tree) (h : heap) :
  (forall p, parent = Some p -> p < length h) -> build_spec parent t h.
Proof.
  revert parent h; induction t as [l ts IH] using tree_ind'; intros parent h Hp.
  unfold build_spec. cbn [build].
  pose proof (new_TreeNode_spec l parent h Hp) as Hn.
  destruct (new_TreeNode l parent h) as [self h1]. destruct Hn as [-> [Hl1 [Hnew [Hu1 Hp1]]]].
  destruct (build_children_spec (length h) ts h1 ltac:(lia)) as [Hl2 [Hu2 [idxs [Hlab [Hch Hr]]]]].
  { eapply Forall_impl; [|exact IH]. intros c Hc h' Hh'. apply Hc. intros p [= <-]. exact Hh'. }
  split; [reflexivity|]. split; [lia|]. split.
  - intros m Hm Hne. rewrite Hu2 by lia. apply Hu1; assumption.
  - split.
    + intros p Hpe. rewrite Hu2 by (specialize (Hp p Hpe); lia). apply Hp1, Hpe.
    + intros h'' Hag. rewrite Hnew in Hlab, Hch. simpl in Hlab, Hch.
      apply (repr_node h'' (length h) l idxs ts).
      * rewrite (Hag (length h)) by lia.
        set (x := nth (length h) (fold_left _ ts h1) null_node) in *. clearbody x.
        destruct x; simpl in *; subst; reflexivity.
      * apply Hr. intros m Hm. apply Hag. lia.
Qed.

(** ** Reading the objects back *)

Lemma repr_unfold (h : heap) (t : tree) (n fuel : nat) :
  repr h n t -> depth t < fuel -> unfold_tree (heap_info h) fuel n = t.
Proof.
  revert n fuel; induction t as [l ts IH] using tree_ind'; intros n fuel Hr Hd.
  inversion Hr as [n' l' cs ts' Hn Hcs]; subst.
  destruct fuel as [|f]; [lia|].
  assert (Hds : Forall (fun c => depth c < f) ts).
  { apply Forall_forall. intros c Hc. pose proof (depth_child (Node l ts) c Hc). lia. }
  cbn [unfold_tree]. unfold heap_info. rewrite Hn. simpl. f_equal.
  clear Hn Hr Hd. induction Hcs as [|c t cs ts Hct _ IHcs]; simpl; [reflexivity|].
  inversion IH as [|? ? IHt IHts]; inversion Hds as [|? ? Hdt Hdts]; subst.
  f_equal; [apply IHt; assumption | apply IHcs; assumption].
Qed.

Lemma repr_treeLines (h : heap) (t : tree) (n fuel : nat) :
  repr h n t -> treeLines (heap_info h) fuel n = treeLines tree_info fuel t.
Proof.
  revert n fuel; induction t as [l ts IH] using tree_ind'; intros n fuel Hr.
  inversion Hr as [n' l' cs ts' Hn Hcs]; subst.
  destruct fuel as [|f]; [reflexivity|].
  assert (Hi : heap_info h n = (l, cs)) by (unfold heap_info; rewrite Hn; reflexivity).
  cbn [treeLines tree_info]. rewrite Hi.
  rewrite (mapM_Forall2_eq (treeLines (heap_info h) f) (treeLines tree_info f) cs ts).
  - destruct (mapM (treeLines tree_info f) ts); [|reflexivity].
    apply layout_children. exact (Forall2_length Hcs).
  - clear Hn Hr Hi. induction Hcs as [|c t cs ts Hct _ IHcs]; constructor;
      inversion IH as [|? ? IHt IHts]; subst; [apply IHt, Hct | apply IHcs, IHts].
Qed.

(** C28: building any tree with [TreeNode(label, parent)], each node
    before its children and the children in order, and reading it back
    through [lambda n:(n.label,n.children)] gives the tree again, once
    the reading is allowed more levels than the tree is deep. *)
Theorem build_unfold (t : tree) (fuel : nat) :
  depth t < fuel ->
  unfold_tree (heap_info (snd (build_tree t))) fuel (fst (build_tree t)) = t.
Proof.
  intros Hd. pose proof (build_ok None t [] ltac:(discriminate)) as Hb.
  unfold build_spec, build_tree in *. destruct (build None t []) as [root h].
  destruct Hb as [_ [_ [_ [_ Hr]]]]. apply repr_unfold; [apply Hr; intros m _; reflexivity | exact Hd].
Qed.

Lemma build_unfold_witness :
  depth demo_tree < 1000 /\
  unfold_tree (heap_info (snd (build_tree demo_tree))) 1000 (fst (build_tree demo_tree)) = demo_tree.
Proof. split; [vm_compute; lia | apply build_unfold; vm_compute; lia]. Defined.

(** C29: [printTree] over a tree of [TreeNode] objects prints what it
    prints over the rose tree they form, with any recursion budget:
    the same lines, or the same [RecursionError]. *)
Theorem printTree_objects (t : tree) (fuel : nat) :
  printTree (heap_info (snd (build_tree t))) fuel (fst (build_tree t)) = printTree tree_info fuel t.
Proof.
  pose proof (build_ok None t [] ltac:(discriminate)) as Hb.
  unfold build_spec, build_tree in *. destruct (build None t []) as [root h].
  destruct Hb as [_ [_ [_ [_ Hr]]]]. unfold printTree. simpl.
  rewrite (repr_treeLines h t root fuel); [reflexivity | apply Hr; intros m _; reflexivity].
Qed.
