(* ===== verification/PyInt.v ===== *)
(** * PyInt: Python's [str] of an int and [int] of a string

    [str(n)] writes an int in decimal, with a [-] before a negative one
    and no leading zeros; it is Rocq's decimal conversion [Z.to_int]
    printed by [DecimalString].  [int(s)] on a string strips the
    whitespace around it, takes an optional sign and reads decimal
    digits, single underscores allowed between digits, and raises
    [ValueError] on anything else (ASCII text; Python also accepts
    other Unicode digits and spaces).  Reading back what [str] wrote
    gives the int again. *)

From Stdlib Require Import List NArith ZArith Lia Bool Ascii String DecimalString DecimalZ DecimalPos DecimalFacts.
From S2P Require Import Prelude.
Import ListNotations.
Open Scope py_scope.

(** [str(n)] for an int [n]. *)
Definition py_str_int (n : Z) : list ascii :=
  list_ascii_of_string (NilZero.string_of_int (Z.to_int n)).

(** The characters [str.isspace] accepts in ASCII: tab, line feed,
    vertical tab, form feed, carriage return, the four separators
    [\x1c] to [\x1f], and the space. *)
Definition py_isspace (c : ascii) : bool :=
  let n := nat_of_ascii c in ((9 <=? n) && (n <=? 13)) || ((28 <=? n) && (n <=? 32)).

Fixpoint lstrip (l : list ascii) : list ascii :=
  match l with
  | c :: l' => if py_isspace c then lstrip l' else l
  | [] => []
  end.

(** [s.strip()] *)
Definition py_strip (l : list ascii) : list ascii := rev (lstrip (rev (lstrip l))).

Definition is_digit (c : ascii) : bool :=
  let n := nat_of_ascii c in (48 <=? n) && (n <=? 57).

(** The digits of a run of digits with single underscores between them,
    the underscores dropped; [None] when an underscore is not followed
    by a digit or another character appears. *)
Fixpoint digit_run (l : list ascii) : option (list ascii) :=
  match l with
  | [] => Some []
  | c :: l' =>
      if is_digit c then option_map (cons c) (digit_run l')
      else if Ascii.eqb c "_"%char then
        match l' with
        | d :: _ => if is_digit d then digit_run l' else None
        | [] => None
        end
      else None
  end.

(** The digits of a decimal literal: a digit first, then a digit run. *)
Definition digits_of (l : list ascii) : option (list ascii) :=
  match l with
  | c :: _ => if is_digit c then digit_run l else None
  | [] => None
  end.

(** [int(s)] for a string [s], base 10. *)
Definition py_int_of_str (s : list ascii) : res Z :=
  let t := py_strip s in
  let '(neg, body) := match t with
                      | c :: r => if Ascii.eqb c "-"%char then (true, r)
                                  else if Ascii.eqb c "+"%char then (false, r) else (false, t)
                      | [] => (false, t)
                      end in
  match digits_of body with
  | Some ds =>
      match NilEmpty.uint_of_string (string_of_list_ascii ds) with
      | Some u => Ok (if neg then (- Z.of_uint u)%Z else Z.of_uint u)
      | None => Err ValueError
      end
  | None => Err ValueError
  end.

(** ** [int(str(n)) == n] *)

Lemma digits_of_uint (u : Decimal.uint) :
  Forall (fun c => is_digit c = true) (list_ascii_of_string (NilEmpty.string_of_uint u)).
Proof. induction u; simpl; repeat constructor; assumption. Qed.

Lemma digit_run_digits (l : list ascii) : Forall (fun c => is_digit c = true) l -> digit_run l = Some l.
Proof. induction 1 as [|c l Hc _ IH]; simpl; [reflexivity|]. rewrite Hc, IH. reflexivity. Qed.

Lemma digit_not_space (c : ascii) : is_digit c = true -> py_isspace c = false.
Proof.
  unfold is_digit, py_isspace. intros H. apply andb_true_iff in H as [H1 H2].
  apply Nat.leb_le in H1, H2. apply orb_false_iff. split; apply andb_false_iff; right; apply Nat.leb_gt; lia.
Qed.

Lemma lstrip_id (l : list ascii) : l <> [] -> py_isspace (hd "a"%char l) = false -> lstrip l = l.
Proof. destruct l as [|c l]; [congruence|]. simpl. intros _ ->. reflexivity. Qed.

(** Text that starts and ends with a non-space is its own [strip()]. *)
Lemma py_strip_id (l : list ascii) :
  l <> [] -> py_isspace (hd "a"%char l) = false -> py_isspace (last l "a"%char) = false -> py_strip l = l.
Proof.
  intros Hne Hh Hl. destruct l as [|x l _] using rev_ind; [congruence|].
  rewrite last_last in Hl. unfold py_strip. rewrite (lstrip_id _ Hne Hh), rev_app_distr. simpl.
  rewrite Hl. simpl. rewrite rev_involutive. reflexivity.
Qed.

Lemma Forall_hd_last {A} (P : A -> Prop) (d : A) (l : list A) :
  Forall P l -> l <> [] -> P (hd d l) /\ P (last l d).
Proof.
  induction 1 as [|x l Hx Hl IH]; [congruence|]. intros _. split; [exact Hx|].
  destruct l as [|y l]; [exact Hx|]. apply IH. discriminate.
Qed.

(** What [str] writes for a [uint]: a non-empty run of digits. *)
Lemma uint_text (u : Decimal.uint) :
  let ds := list_ascii_of_string (NilZero.string_of_uint u) in
  ds <> [] /\ Forall (fun c => is_digit c = true) ds.
Proof.
  destruct u; cbn -[list_ascii_of_string NilEmpty.string_of_uint];
    (split; [discriminate | first [apply digits_of_uint | repeat constructor]]).
Qed.

Lemma digit_not_sign (c : ascii) :
  is_digit c = true -> Ascii.eqb c "-"%char = false /\ Ascii.eqb c "+"%char = false.
Proof.
  intros Hc. split; [destruct (Ascii.eqb_spec c "-"%char) as [->|] | destruct (Ascii.eqb_spec c "+"%char) as [->|]]; easy.
Qed.

(** [int] on an optional [-] and a run of digits reads the digits. *)
Lemma int_of_digit_text (neg : bool) (ds : list ascii) :
  ds <> [] -> Forall (fun c => is_digit c = true) ds ->
  py_int_of_str ((if neg then ["-"%char] else []) ++ ds) =
  match NilEmpty.uint_of_string (string_of_list_ascii ds) with
  | Some u => Ok (if neg then (- Z.of_uint u)%Z else Z.of_uint u)
  | None => Err ValueError
  end.
Proof.
  intros Hne Hds. destruct ds as [|c r]; [congruence|].
  pose proof (Forall_inv Hds) as Hc.
  pose proof (digit_not_space _ (proj2 (Forall_hd_last _ "a"%char _ Hds Hne))) as Hl.
  destruct (digit_not_sign c Hc) as [Hm Hp].
  unfold py_int_of_str. rewrite py_strip_id.
  - destruct neg; cbn [app]; rewrite ?Ascii.eqb_refl, ?Hm, ?Hp; cbn [digits_of];
      rewrite Hc, (digit_run_digits _ Hds); reflexivity.
  - destruct neg; discriminate.
  - destruct neg; [reflexivity | exact (digit_not_space _ Hc)].
  - destruct neg; exact Hl.
Qed.

(** [str] of a [uint] reads back as a [uint] of the same value ([Nil],
    the empty numeral, is printed as [0]). *)
Lemma read_uint_text (u : Decimal.uint) :
  exists u', NilEmpty.uint_of_string (string_of_list_ascii (list_ascii_of_string (NilZero.string_of_uint u))) = Some u' /\
             Z.of_uint u' = Z.of_uint u.
Proof.
  rewrite string_of_list_ascii_of_string.
  destruct u; [exists (Decimal.D0 Decimal.Nil); split; reflexivity|..];
    (eexists; split; [apply NilEmpty.usu | reflexivity]).
Qed.

(** [int(str(n)) == n] for every int [n]: the text [str] writes for an
    int (sign, digits, no leading zeros) is stripped, signed and read
    back by [int] to the same value, with no [ValueError]. *)
Theorem int_str_roundtrip (n : Z) : py_int_of_str (py_str_int n) = Ok n.
Proof.
  unfold py_str_int. rewrite <- (DecimalZ.of_to n) at 2.
  destruct (Z.to_int n) as [u|u]; destruct (uint_text u) as [Hne Hds];
    destruct (read_uint_text u) as [u' [Hr Hv]].
  - pose proof (int_of_digit_text false _ Hne Hds) as H. simpl app in H.
    change (NilZero.string_of_int (Decimal.Pos u)) with (NilZero.string_of_uint u).
    rewrite H, Hr, Hv. reflexivity.
  - pose proof (int_of_digit_text true _ Hne Hds) as H. simpl app in H.
    change (list_ascii_of_string (NilZero.string_of_int (Decimal.Neg u)))
      with ("-"%char :: list_ascii_of_string (NilZero.string_of_uint u)).
    rewrite H, Hr, Hv. reflexivity.
Qed.

(** ** [ValueError] *)

Lemma lstrip_Forall (P : ascii -> Prop) (l : list ascii) : Forall P l -> Forall P (lstrip l).
Proof. induction 1 as [|c l Hc Hl IH]; simpl; [constructor|]. destruct (py_isspace c); auto. Qed.

Lemma py_strip_Forall (P : ascii -> Prop) (l : list ascii) : Forall P l -> Forall P (py_strip l).
Proof. intros H. unfold py_strip. apply Forall_rev, lstrip_Forall, Forall_rev, lstrip_Forall, H. Qed.

(** Text without a decimal digit is not an int literal: [int] raises
    [ValueError] on it, whatever its spaces, signs and underscores. *)
Lemma int_of_str_no_digit (s : list ascii) :
  Forall (fun c => is_digit c = false) s -> py_int_of_str s = Err ValueError.
Proof.
  intros H. apply py_strip_Forall in H. unfold py_int_of_str.
  destruct (py_strip s) as [|c r]; [reflexivity|].
  assert (Hr : Forall (fun c => is_digit c = false) r) by (inversion H; assumption).
  assert (Hc : is_digit c = false) by (inversion H; assumption).
  destruct (Ascii.eqb c "-"%char); [|destruct (Ascii.eqb c "+"%char)];
    [destruct r as [|d r]; [reflexivity|]; inversion Hr; cbn [digits_of]; rewrite H2; reflexivity ..
    |cbn [digits_of]; rewrite Hc; reflexivity].
Qed.

(** ** The digits of [str(n)] *)

Definition digit_ascii (d : digits) : ascii :=
  match d with
  | d0 => "0" | d1 => "1" | d2 => "2" | d3 => "3" | d4 => "4"
  | d5 => "5" | d6 => "6" | d7 => "7" | d8 => "8" | d9 => "9"
  end%char.

Lemma str_uint_digits (u : Decimal.uint) :
  list_ascii_of_string (NilEmpty.string_of_uint u) = map digit_ascii (to_list u).
Proof. induction u; cbn; f_equal; assumption. Qed.

(** The decimal digits of a positive number have no leading zero. *)
Lemma to_uint_nzhead (p : positive) : Decimal.nzhead (Pos.to_uint p) = Pos.to_uint p.
Proof.
  pose proof (DecimalZ.to_of (Decimal.Pos (Pos.to_uint p))) as H.
  change (Z.of_int (Decimal.Pos (Pos.to_uint p))) with (Z.of_N (Pos.of_uint (Pos.to_uint p))) in H.
  rewrite DecimalPos.Unsigned.of_to in H. cbn in H. injection H as H.
  unfold Decimal.unorm in H. destruct (Decimal.nzhead (Pos.to_uint p)) eqn:E;
    try (rewrite <- H; reflexivity).
  exfalso. apply (DecimalPos.Unsigned.to_uint_nonzero p). exact H.
Qed.

Lemma nilzero_nonnil (u : Decimal.uint) :
  u <> Decimal.Nil -> NilZero.string_of_uint u = NilEmpty.string_of_uint u.
Proof. destruct u; [congruence|..]; reflexivity. Qed.

Lemma str_pos (p : positive) : py_str_int (Z.pos p) = map digit_ascii (to_list (Pos.to_uint p)).
Proof.
  unfold py_str_int. cbn [Z.to_int NilZero.string_of_int].
  rewrite nilzero_nonnil by apply DecimalPos.Unsigned.to_uint_nonnil. apply str_uint_digits.
Qed.

Lemma iter_mul10 (z : Z) (t : nat) : Nat.iter t (Z.mul 10) z = (z * 10 ^ Z.of_nat t)%Z.
Proof.
  induction t as [|t IH]; [cbn; lia|].
  rewrite Nat2Z.inj_succ, Z.pow_succ_r by lia.
  change (Nat.iter (S t) (Z.mul 10) z) with (10 * Nat.iter t (Z.mul 10) z)%Z. rewrite IH. ring.
Qed.

Lemma to_list_zeros (t : nat) : to_list (Nat.iter t Decimal.D0 Decimal.Nil) = repeat d0 t.
Proof. induction t as [|t IH]; cbn; [reflexivity|]. f_equal. exact IH. Qed.

(** [str(n * 10**t)] is [str(n)] followed by [t] zeros. *)
Lemma str_pow10 (p : positive) (t : nat) :
  py_str_int (Z.pos p * 10 ^ Z.of_nat t) = py_str_int (Z.pos p) ++ repeat "0"%char t.
Proof.
  set (u := Pos.to_uint p). set (u' := Decimal.app u (Nat.iter t Decimal.D0 Decimal.Nil)).
  assert (Hv : Z.of_int (Decimal.Pos u') = (Z.pos p * 10 ^ Z.of_nat t)%Z).
  { cbn [Z.of_int]. unfold u'. rewrite DecimalZ.of_uint_iter_D0, iter_mul10. unfold u, Z.of_uint.
    rewrite DecimalPos.Unsigned.of_to. reflexivity. }
  assert (Hl : to_list u' = to_list u ++ repeat d0 t) by (unfold u'; rewrite app_spec, to_list_zeros; reflexivity).
  assert (Hh : exists x l, to_list u = x :: l /\ x <> d0).
  { pose proof (to_uint_nzhead p) as Hz. pose proof (DecimalPos.Unsigned.to_uint_nonnil p) as Hn.
    fold u in Hz, Hn. destruct u; try congruence; [|eexists _, _; split; [reflexivity|discriminate]..].
    exfalso. exact (nzhead_nonzero u u Hz). }
  destruct Hh as (x & l & Hxl & Hx).
  assert (Hu : Decimal.unorm u' = u').
  { apply to_list_inj. rewrite unorm_spec, Hl, Hxl. unfold lunorm. cbn.
    destruct x; try congruence; reflexivity. }
  unfold py_str_int at 1. rewrite <- Hv, DecimalZ.to_of. cbn [Decimal.norm NilZero.string_of_int].
  rewrite Hu, nilzero_nonnil by (intros E; rewrite E, Hxl in Hl; discriminate).
  rewrite str_uint_digits, Hl, map_app, str_pos, map_repeat. reflexivity.
Qed.

(** [str(n)] of a number not divisible by 10 does not end in [0]. *)
Lemma str_last_digit (p : positive) :
  (Z.pos p mod 10 <> 0)%Z -> exists l x, py_str_int (Z.pos p) = l ++ [x] /\ x <> "0"%char.
Proof.
  intros Hp. rewrite str_pos. set (u := Pos.to_uint p).
  assert (Hne : to_list u <> []).
  { pose proof (DecimalPos.Unsigned.to_uint_nonnil p) as Hn. fold u in Hn. destruct u; cbn; congruence. }
  destruct (exists_last Hne) as (l & dx & Hl).
  exists (map digit_ascii l), (digit_ascii dx). rewrite Hl, map_app. split; [reflexivity|].
  destruct dx; try discriminate. exfalso. apply Hp.
  assert (Hu : u = Decimal.app (of_list l) (Nat.iter 1 Decimal.D0 Decimal.Nil)).
  { apply to_list_inj. rewrite app_spec, to_list_of_list, Hl. reflexivity. }
  assert (Hv : Z.of_uint u = Z.pos p) by (unfold u, Z.of_uint; rewrite DecimalPos.Unsigned.of_to; reflexivity).
  rewrite <- Hv, Hu, DecimalZ.of_uint_iter_D0.
  change (Nat.iter 1 (Z.mul 10) (Z.of_uint (of_list l))) with (10 * Z.of_uint (of_list l))%Z.
  rewrite Z.mul_comm. apply Z_mod_mult.
Qed.

Lemma usize_nb (d : Decimal.uint) : DecimalPos.Unsigned.usize d = N.of_nat (Decimal.nb_digits d).
Proof. induction d; cbn [DecimalPos.Unsigned.usize Decimal.nb_digits]; rewrite ?IHd, ?Nat2N.inj_succ; reflexivity. Qed.

(** A number with [k] decimal digits is at least [10^(k-1)]. *)
Lemma str_length_lower (p : positive) :
  (10 ^ (Z.of_nat (List.length (py_str_int (Z.pos p))) - 1) <= Z.pos p)%Z.
Proof.
  rewrite str_pos, length_map, <- nb_digits_spec.
  pose proof (to_uint_nzhead p) as Hz. pose proof (DecimalPos.Unsigned.of_to p) as Hv.
  destruct (Pos.to_uint p) as [|u|u|u|u|u|u|u|u|u|u];
    [discriminate | exfalso; exact (nzhead_nonzero u u Hz) |..];
    cbn [Pos.of_uint] in Hv; rewrite DecimalPos.Unsigned.of_uint_acc_rev, usize_nb in Hv;
    apply (f_equal Z.of_N) in Hv; rewrite N2Z.inj_add, N2Z.inj_mul, N2Z.inj_pow, nat_N_Z in Hv;
    cbn [Decimal.nb_digits]; rewrite Nat2Z.inj_succ, Z.sub_1_r, Z.pred_succ;
    pose proof (N2Z.is_nonneg (DecimalPos.Unsigned.of_lu (Decimal.rev u)));
    pose proof (Z.pow_nonneg 10 (Z.of_nat (Decimal.nb_digits u)) ltac:(lia)); rewrite N2Z.inj_pos in Hv; lia.
Qed.

Lemma str_neg (p : positive) : py_str_int (Z.neg p) = "-"%char :: py_str_int (Z.pos p).
Proof. reflexivity. Qed.

(** A positive number is [c * 10^t] with [c] not divisible by 10. *)
Lemma strip_tens (p : positive) :
  exists c t, (0 < c)%Z /\ (c mod 10 <> 0)%Z /\ Z.pos p = (c * 10 ^ Z.of_nat t)%Z.
Proof.
  assert (H : forall n z, (Z.to_nat z <= n)%nat -> (0 < z)%Z ->
            exists c t, (0 < c)%Z /\ (c mod 10 <> 0)%Z /\ z = (c * 10 ^ Z.of_nat t)%Z).
  { induction n as [|n IH]; intros z Hn Hz; [lia|].
    destruct (Z.eq_dec (z mod 10) 0) as [H0|H0]; [|exists z, 0%nat; cbn; repeat split; lia].
    destruct (IH (z / 10)%Z) as (c & t & Hc & Hc10 & Hzc).
    - pose proof (Z.div_mod z 10 ltac:(discriminate)). rewrite H0 in H. lia.
    - pose proof (Z.div_mod z 10 ltac:(discriminate)). rewrite H0 in H. lia.
    - exists c, (S t). repeat split; [exact Hc | exact Hc10|].
      pose proof (Z.div_mod z 10 ltac:(discriminate)). rewrite H0, Z.add_0_r, Hzc in H.
      rewrite Nat2Z.inj_succ, Z.pow_succ_r by lia. rewrite H at 1. ring. }
  apply (H (Z.to_nat (Z.pos p))); lia.
Qed.
