(* ===== verification/Loop.v ===== *)
(** * Loop: the C-like loop helper of src/Loop.py

    A [Loop] object holds two fields, [_firstPass] and [_value]
    (Loop.py, lines 38-41); each method is a function from the old
    state to the new one, and the methods that end a loop header
    ([loop], [until], [upTo], [downTo]) also return the truth value the
    [while] statement tests.  [next] without an argument raises
    [AttributeError], since [_increment] is never assigned.  A header
    such as [i.start(a).next(f(i)).loop(c(i))] is the composition of the
    method calls, each argument evaluated on the state left by the call
    before it; [run_while] runs [while header: body] with a bound on the
    number of header evaluations.  The operators, [__str__], [__int__]
    and [@] act on [self.value]. *)

From Stdlib Require Import List Arith ZArith Lia Bool Ascii.
From S2P Require Import Prelude PyInt.
Import ListNotations.
Open Scope py_scope.

Section Loop.
Context {V : Type}.

Record loop : Type := mkLoop { firstPass : bool; value : V }.

(** [Loop(start)] *)
Definition Loop_init (start : V) : loop := {| firstPass := true; value := start |}.

(** [start(initial)]: sets the value on the first pass only. *)
Definition start (initial : V) (self : loop) : loop :=
  if firstPass self then {| firstPass := firstPass self; value := initial |} else self.

(** [next(nextValue=None)]: with no argument, [self._increment] raises
    [AttributeError]; otherwise the first call only ends the first pass
    and later calls store the new value. *)
Definition next (nextValue : option V) (self : loop) : res loop :=
  match nextValue with
  | None => Err AttributeError
  | Some nv =>
      if firstPass self then Ok {| firstPass := false; value := value self |}
      else Ok {| firstPass := firstPass self; value := nv |}
  end.

(** [loop(condition=True)] *)
Definition loop_ (condition : bool) (self : loop) : bool * loop :=
  (condition, {| firstPass := false; value := value self |}).

(** [until(condition=False)] *)
Definition until (condition : bool) (self : loop) : bool * loop :=
  (negb condition, {| firstPass := false; value := value self |}).

(** [while header: body]: [header] evaluates the loop header on the
    state, [body] gives what the body prints (the demos' bodies only
    read the loop); [None] when the bound [fuel] on header evaluations
    runs out, otherwise the printed items and the outcome. *)
Fixpoint run_while {Out : Type} (fuel : nat) (header : loop -> res (bool * loop))
    (body : loop -> list Out) (s : loop) : option (list Out * res loop) :=
  match fuel with
  | O => None
  | S fuel' =>
      match header s with
      | Err e => Some ([], Err e)
      | Ok (false, s') => Some ([], Ok s')
      | Ok (true, s') =>
          match run_while fuel' header body s' with
          | None => None
          | Some (out, r) => Some (body s' ++ out, r)
          end
      end
  end.

(** The header [i.start(a).next(f(i)).loop(c(i))]. *)
Definition hdr_for (a : V) (f : V -> V) (c : V -> bool) (s : loop) : res (bool * loop) :=
  let s1 := start a s in
  s2 <- next (Some (f (value s1))) s1 ;;
  Ok (loop_ (c (value s2)) s2).

(** The header [i.next(f(i)).until(c(i))] of the module comment's
    [until], "like .loop(not ...)": [f] and [c] see the value the
    previous call left. *)
Definition hdr_next_until (f : V -> V) (c : V -> bool) (s : loop) : res (bool * loop) :=
  s1 <- next (Some (f (value s))) s ;;
  Ok (until (c (value s1)) s1).

(** The C loop [for (x = a; c(x); x = f(x)) print(x);] with a bound on
    the number of tests: the printed values and the final [x]. *)
Fixpoint c_for (fuel : nat) (x : V) (f : V -> V) (c : V -> bool) : option (list V * V) :=
  match fuel with
  | O => None
  | S fuel' =>
      if c x then
        match c_for fuel' (f x) f c with
        | None => None
        | Some (out, y) => Some (x :: out, y)
        end
      else Some ([], x)
  end.

(** [print(i)] *)
Definition print_value (s : loop) : list V := [value s].

End Loop.

Arguments loop : clear implicits.

(** ** The int-valued methods and operators *)

(** [up(by=1)] and [down(by=1)] *)
Definition up (by_ : Z) (self : loop Z) : res (loop Z) := next (Some (value self + by_)%Z) self.
Definition down (by_ : Z) (self : loop Z) : res (loop Z) := next (Some (value self - by_)%Z) self.

(** [upTo(last, by=1)] *)
Definition upTo (last by_ : Z) (self : loop Z) : bool * loop Z :=
  let self := if firstPass self then {| firstPass := false; value := value self |}
              else {| firstPass := firstPass self; value := (value self + by_)%Z |} in
  ((value self <=? last)%Z, self).

(** [downTo(last, by=1)] *)
Definition downTo (last by_ : Z) (self : loop Z) : bool * loop Z :=
  let self := if firstPass self then {| firstPass := false; value := value self |}
              else {| firstPass := firstPass self; value := (value self - by_)%Z |} in
  ((last <=? value self)%Z, self).

(** The operators on an int-valued [Loop] act on [self.value]
    (lines 83-120): [other] is the right operand of [__add__] and the
    like, the left one of the reflected [__radd__] and the like.
    [__pow__] and [__rpow__], whose result is a float for a negative
    exponent, are in LoopFloat.v. *)
Definition loop_add (self : loop Z) (other : Z) : Z := (value self + other)%Z.
Definition loop_sub (self : loop Z) (other : Z) : Z := (value self - other)%Z.
Definition loop_mul (self : loop Z) (other : Z) : Z := (value self * other)%Z.
Definition loop_divmod (self : loop Z) (other : Z) : res (Z * Z) := py_divmod (value self) other.
Definition loop_floordiv (self : loop Z) (other : Z) : res Z := py_floordiv (value self) other.
Definition loop_mod (self : loop Z) (other : Z) : res Z := py_mod (value self) other.
Definition loop_lshift (self : loop Z) (other : Z) : res Z := py_lshift (value self) other.
Definition loop_rshift (self : loop Z) (other : Z) : res Z := py_rshift (value self) other.
Definition loop_lt (self : loop Z) (other : Z) : bool := (value self <? other)%Z.
Definition loop_le (self : loop Z) (other : Z) : bool := (value self <=? other)%Z.
Definition loop_eq (self : loop Z) (other : Z) : bool := (value self =? other)%Z.
Definition loop_ne (self : loop Z) (other : Z) : bool := negb (value self =? other)%Z.
Definition loop_gt (self : loop Z) (other : Z) : bool := (other <? value self)%Z.
Definition loop_ge (self : loop Z) (other : Z) : bool := (other <=? value self)%Z.
Definition loop_and (self : loop Z) (other : Z) : Z := Z.land (value self) other.
Definition loop_or (self : loop Z) (other : Z) : Z := Z.lor (value self) other.
Definition loop_xor (self : loop Z) (other : Z) : Z := Z.lxor (value self) other.

(** [__invert__] returns [-self.value]. *)
Definition loop_invert (self : loop Z) : Z := (- value self)%Z.
Definition loop_neg (self : loop Z) : Z := (- value self)%Z.
Definition loop_pos (self : loop Z) : Z := value self.
Definition loop_abs (self : loop Z) : Z := Z.abs (value self).

Definition loop_radd (self : loop Z) (other : Z) : Z := (other + value self)%Z.
Definition loop_rsub (self : loop Z) (other : Z) : Z := (other - value self)%Z.
Definition loop_rmul (self : loop Z) (other : Z) : Z := (other * value self)%Z.
Definition loop_rfloordiv (self : loop Z) (other : Z) : res Z := py_floordiv other (value self).
Definition loop_rmod (self : loop Z) (other : Z) : res Z := py_mod other (value self).
Definition loop_rdivmod (self : loop Z) (other : Z) : res (Z * Z) := py_divmod other (value self).
Definition loop_rlshift (self : loop Z) (other : Z) : res Z := py_lshift other (value self).
Definition loop_rrshift (self : loop Z) (other : Z) : res Z := py_rshift other (value self).
Definition loop_rand (self : loop Z) (other : Z) : Z := Z.land other (value self).
Definition loop_rxor (self : loop Z) (other : Z) : Z := Z.lxor other (value self).
Definition loop_ror (self : loop Z) (other : Z) : Z := Z.lor other (value self).

(** [__str__] and [__int__]: [str(self.value)] and [int(self.value)],
    on an int value and on a string value. *)
Definition loop_str (self : loop Z) : list ascii := py_str_int (value self).
Definition loop_int (self : loop Z) : Z := value self.
Definition loop_int_text (self : loop (list ascii)) : res Z := py_int_of_str (value self).

(** [__matmul__] and [__rmatmul__] (lines 86 and 110) call the method
    [__matmul__] of a value by name, not the [@] operator: [matmul_attr]
    is that attribute lookup, [None] for a type without the method. *)
Class MatmulAttr (A : Type) := matmul_attr : A -> option (A -> res A).

(** [int] has no [__matmul__]. *)
#[export] Instance int_matmul_attr : MatmulAttr Z := fun _ => None.

Definition loop_matmul {A} `{MatmulAttr A} (self : loop A) (other : A) : res A :=
  match matmul_attr (value self) with
  | Some m => m other
  | None => Err AttributeError
  end.

Definition loop_rmatmul {A} `{MatmulAttr A} (self : loop A) (other : A) : res A :=
  match matmul_attr other with
  | Some m => m (value self)
  | None => Err AttributeError
  end.

(** A 2x2 int matrix type whose [__matmul__] is the matrix product. *)
Record mat2 : Type := Mat2 { m11 : Z; m12 : Z; m21 : Z; m22 : Z }.

Definition mat2_mul (a b : mat2) : mat2 :=
  Mat2 (m11 a * m11 b + m12 a * m21 b) (m11 a * m12 b + m12 a * m22 b)
       (m21 a * m11 b + m22 a * m21 b) (m21 a * m12 b + m22 a * m22 b).

#[export] Instance mat2_matmul_attr : MatmulAttr mat2 := fun a => Some (fun b => Ok (mat2_mul a b)).

(** [__getitem__] on a pair value, for the Fibonacci demo: a tuple
    index counts from the end when it is negative, and [IndexError]
    outside [-2 .. 1]. *)
Definition loop_getitem (self : loop (Z * Z)) (index : Z) : res Z :=
  match index with
  | 0%Z | (-2)%Z => Ok (fst (value self))
  | 1%Z | (-1)%Z => Ok (snd (value self))
  | _ => Err IndexError
  end.

(** The header [i.start(a).upTo(last, by)]. *)
Definition hdr_upTo (a last by_ : Z) (s : loop Z) : res (bool * loop Z) :=
  Ok (upTo last by_ (start a s)).

(** The header [i.start(a).downTo(last, by)] of the module comment. *)
Definition hdr_downTo (a last by_ : Z) (s : loop Z) : res (bool * loop Z) :=
  Ok (downTo last by_ (start a s)).

(** The header [i.down(by).until(c(i))]. *)
Definition hdr_down_until (by_ : Z) (c : Z -> bool) (s : loop Z) : res (bool * loop Z) :=
  s1 <- down by_ s ;; Ok (until (c (value s1)) s1).

(** The bodies and headers of the [__main__] block (lines 122-146);
    the second demo divides floats and is not modelled.  A printed line
    is [(indented, number)]. *)
Definition demo1_header (s : loop Z) : res (bool * loop Z) :=
  let s1 := start 100%Z s in
  q <- loop_floordiv s1 2 ;;
  s2 <- next (Some q) s1 ;;
  Ok (loop_ (loop_gt s2 2) s2).

Definition py_range2 (a b : Z) : list Z := map (fun k => a + Z.of_nat k)%Z (seq 0 (Z.to_nat (b - a))).

Definition demo1_body (i : loop Z) : list (bool * Z) :=
  (false, loop_pos i) :: map (fun j => (true, j)) (py_range2 (loop_pos i) (loop_add i 5)).

Definition demo4_header (s : loop Z) : res (bool * loop Z) := Ok (upTo 100 5 s).

(** [f.next((f[1],sum(f))).until(f[0] > 100)]; [sum(f)] iterates
    [f[0], f[1]] and stops at the [IndexError] of [f[2]]. *)
Definition demo6_header (f : loop (Z * Z)) : res (bool * loop (Z * Z)) :=
  f1 <- loop_getitem f 1 ;;
  s <- loop_getitem f 0 ;;
  t <- loop_getitem f 1 ;;
  f' <- next (Some (f1, s + t)%Z) f ;;
  x <- loop_getitem f' 0 ;;
  Ok (until (100 <? x)%Z f').

Definition demo6_body (f : loop (Z * Z)) : list Z :=
  match loop_getitem f 0 with Ok x => [x] | Err _ => [] end.

(** Python's [range(a, b, step)] for [step > 0]. *)
Definition py_range_step (a b step : Z) : list Z :=
  map (fun k => a + Z.of_nat k * step)%Z (seq 0 (Z.to_nat ((b - a + step - 1) / step))).

(** Python's [range(a, b, -step)] for [step > 0]. *)
Definition py_range_down (a b step : Z) : list Z :=
  map (fun k => a - Z.of_nat k * step)%Z (seq 0 (Z.to_nat ((a - b + step - 1) / step))).

(** * Theorems *)

Section ForLoop.
Context {V : Type} (a : V) (f : V -> V) (c : V -> bool).

Definition for_result (r : option (list V * V)) : option (list V * res (loop V)) :=
  match r with
  | None => None
  | Some (out, y) => Some (out, Ok {| firstPass := false; value := y |})
  end.

Lemma run_for_after (fuel : nat) (x : V) :
  run_while fuel (hdr_for a f c) print_value {| firstPass := false; value := x |} =
  for_result (c_for fuel (f x) f c).
Proof.
  revert x; induction fuel as [|k IH]; intros x; [reflexivity|].
  simpl. destruct (c (f x)); [|reflexivity]. rewrite IH.
  destruct (c_for k (f (f x)) f c) as [[out y]|]; reflexivity.
Qed.

(** Shared by the theorem below and the proofs that build on it. *)
Lemma loop_for_refines_core (fuel : nat) (v0 : V) :
  run_while fuel (hdr_for a f c) print_value (Loop_init v0) = for_result (c_for fuel a f c).
Proof.
  destruct fuel as [|k]; [reflexivity|]. simpl.
  destruct (c a); [|reflexivity]. rewrite run_for_after.
  destruct (c_for k (f a) f c) as [[out y]|]; reflexivity.
Qed.

(** C11: the idiom [while i.start(a).next(f(i)).loop(c(i)): print(i)]
    on a fresh [Loop] prints exactly what the C loop
    [for (x = a; c(x); x = f(x)) print(x)] prints, and ends with [i]
    holding the first value that fails [c]; the bound on header
    evaluations is the bound on tests of the C loop. *)
Theorem loop_for_refines (fuel : nat) (v0 : V) :
  run_while fuel (hdr_for a f c) print_value (Loop_init v0) = for_result (c_for fuel a f c).
Proof. apply loop_for_refines_core. Qed.
End ForLoop.

Section UntilLoop.
Context {V : Type} (f : V -> V) (c : V -> bool).

Lemma run_until_after (fuel : nat) (x : V) :
  run_while fuel (hdr_next_until f c) print_value {| firstPass := false; value := x |} =
  for_result (c_for fuel (f x) f (fun y => negb (c y))).
Proof.
  revert x; induction fuel as [|k IH]; intros x; [reflexivity|].
  simpl. destruct (c (f x)); [reflexivity|]. simpl. rewrite IH.
  destruct (c_for k (f (f x)) f _) as [[out y]|]; reflexivity.
Qed.

(** C13: the idiom [while i.next(f(i)).until(c(i)): print(i)] on a
    [Loop] started at [v0] prints exactly what the C loop
    [for (x = v0; !c(x); x = f(x)) print(x)] prints, [v0] first since
    [next] changes nothing on the first pass, and ends with [i] holding
    the first value that satisfies [c]; the bound on header evaluations
    is the bound on tests of the C loop.  So [until(c)] is [loop(not c)],
    as the module comment says, and [start] is not needed. *)
Theorem next_until_refines (fuel : nat) (v0 : V) :
  run_while fuel (hdr_next_until f c) print_value (Loop_init v0) =
  for_result (c_for fuel v0 f (fun y => negb (c y))).
Proof.
  destruct fuel as [|k]; [reflexivity|]. simpl.
  destruct (c v0); [reflexivity|]. simpl. rewrite run_until_after.
  destruct (c_for k (f v0) f _) as [[out y]|]; reflexivity.
Qed.
End UntilLoop.

(** The fifth demo's header [i.down(by=5).until(i<20)] is the idiom with
    [f(i) = i - 5]: from 100 it prints 100, 95, ..., 20. *)
Lemma next_until_refines_witness :
  run_while 100 (hdr_next_until (fun v => v - 5)%Z (fun v => v <? 20)%Z) print_value (Loop_init 100%Z) =
    for_result (c_for 100 100%Z (fun v => v - 5)%Z (fun y => negb (y <? 20)%Z)) /\
  run_while 100 (hdr_down_until 5 (fun v => v <? 20)%Z) print_value (Loop_init 100%Z) =
    for_result (c_for 100 100%Z (fun v => v - 5)%Z (fun y => negb (y <? 20)%Z)) /\
  for_result (c_for 100 100%Z (fun v => v - 5)%Z (fun y => negb (y <? 20)%Z)) =
    Some ([100; 95; 90; 85; 80; 75; 70; 65; 60; 55; 50; 45; 40; 35; 30; 25; 20]%Z,
          Ok {| firstPass := false; value := 15%Z |}).
Proof.
  split; [exact (next_until_refines (fun v => v - 5)%Z (fun v => v <? 20)%Z 100 100%Z)|].
  split; vm_compute; reflexivity.
Defined.

(** C12: [upTo(last, by)] is [next(i+by)] followed by [loop(i<=last)]
    and [downTo(last, by)] is [next(i-by)] followed by
    [loop(i>=last)], the short forms the module comment names, from any
    state of the loop. *)
Theorem upTo_downTo_short_forms (last by_ : Z) (s : loop Z) :
  (exists s', up by_ s = Ok s' /\ upTo last by_ s = loop_ (value s' <=? last)%Z s') /\
  (exists s', down by_ s = Ok s' /\ downTo last by_ s = loop_ (last <=? value s')%Z s').
Proof. destruct s as [[|] v]; split; eexists; split; reflexivity. Qed.

Lemma hdr_upTo_for (a last by_ : Z) (s : loop Z) :
  hdr_upTo a last by_ s = hdr_for a (fun v => v + by_)%Z (fun v => v <=? last)%Z s.
Proof. destruct s as [[|] v]; reflexivity. Qed.

Lemma c_for_step_range (by_ last : Z) (n : nat) (x : Z) :
  (0 < by_)%Z -> (Z.to_nat ((last + 1 - x + by_ - 1) / by_) < n)%nat ->
  c_for n x (fun v => v + by_)%Z (fun v => v <=? last)%Z =
  Some (py_range_step x (last + 1) by_,
        (x + Z.of_nat (Z.to_nat ((last + 1 - x + by_ - 1) / by_)) * by_)%Z).
Proof.
  intros Hb. revert x; induction n as [|n IH]; intros x Hn; [lia|]. simpl.
  unfold py_range_step. destruct (x <=? last)%Z eqn:E.
  - apply Z.leb_le in E.
    assert (Hc : Z.to_nat ((last + 1 - x + by_ - 1) / by_) =
                 S (Z.to_nat ((last + 1 - (x + by_) + by_ - 1) / by_))).
    { replace (last + 1 - x + by_ - 1)%Z with ((last + 1 - (x + by_) + by_ - 1) + 1 * by_)%Z by lia.
      rewrite Z.div_add by lia. assert (0 <= (last + 1 - (x + by_) + by_ - 1) / by_)%Z
        by (apply Z.div_pos; lia). lia. }
    rewrite IH by lia. rewrite Hc. simpl seq. simpl map. f_equal. f_equal.
    + f_equal; [lia|]. rewrite <- seq_shift, map_map. apply map_ext. intros k. lia.
    + lia.
  - apply Z.leb_gt in E.
    assert (Hq : ((last + 1 - x + by_ - 1) / by_ < 1)%Z) by (apply Z.div_lt_upper_bound; lia).
    replace (Z.to_nat ((last + 1 - x + by_ - 1) / by_)) with 0%nat by lia.
    simpl. f_equal. f_equal. lia.
Qed.

Lemma run_while_ext {V Out : Type} (h1 h2 : loop V -> res (bool * loop V)) (body : loop V -> list Out)
  (fuel : nat) (s : loop V) :
  (forall s, h1 s = h2 s) -> run_while fuel h1 body s = run_while fuel h2 body s.
Proof.
  intros H. revert s; induction fuel as [|k IH]; intros s; [reflexivity|].
  simpl. rewrite H. destruct (h2 s) as [[[|] s']|e]; [rewrite IH| |]; reflexivity.
Qed.

(** C14: [while i.start(a).upTo(last, by): print(i)] with [by > 0]
    prints exactly Python's [range(a, last+1, by)] and stops, given as
    many header evaluations as that range has elements, plus one. *)
Theorem upTo_loop_range (a last by_ v0 : Z) (fuel : nat) :
  (0 < by_)%Z -> (Z.to_nat ((last + 1 - a + by_ - 1) / by_) < fuel)%nat ->
  run_while fuel (hdr_upTo a last by_) print_value (Loop_init v0) =
  Some (py_range_step a (last + 1) by_,
        Ok {| firstPass := false;
              value := (a + Z.of_nat (Z.to_nat ((last + 1 - a + by_ - 1) / by_)) * by_)%Z |}).
Proof.
  intros Hb Hf. rewrite (run_while_ext _ _ _ _ _ (hdr_upTo_for a last by_)).
  rewrite loop_for_refines_core, c_for_step_range by assumption. reflexivity.
Qed.

Lemma upTo_loop_range_witness :
  (0 < 5)%Z /\ (Z.to_nat ((100 + 1 - 0 + 5 - 1) / 5) < 22)%nat /\
  run_while 22 (hdr_upTo 0 100 5) print_value (Loop_init 0%Z) =
  Some (py_range_step 0 (100 + 1) 5,
        Ok {| firstPass := false;
              value := (0 + Z.of_nat (Z.to_nat ((100 + 1 - 0 + 5 - 1) / 5)) * 5)%Z |}).
Proof. split; [lia|]. split; [vm_compute; lia|]. apply upTo_loop_range; [lia | vm_compute; lia]. Defined.

Lemma c_for_stuck (last by_ : Z) (fuel : nat) (x : Z) :
  (by_ <= 0)%Z -> (x <= last)%Z -> c_for fuel x (fun v => v + by_)%Z (fun v => v <=? last)%Z = None.
Proof.
  intros Hb. revert x; induction fuel as [|k IH]; intros x Hx; [reflexivity|]. simpl.
  replace (x <=? last)%Z with true by lia. rewrite IH by lia. reflexivity.
Qed.

(** C15: with [by <= 0] and a start at most [last], the loop
    [while i.start(a).upTo(last, by)] never ends: no bound on header
    evaluations suffices. *)
Theorem upTo_loop_diverges (a last by_ v0 : Z) (fuel : nat) :
  (by_ <= 0)%Z -> (a <= last)%Z ->
  run_while fuel (hdr_upTo a last by_) print_value (Loop_init v0) = None.
Proof.
  intros Hb Ha. rewrite (run_while_ext _ _ _ _ _ (hdr_upTo_for a last by_)).
  rewrite loop_for_refines_core, c_for_stuck by assumption. reflexivity.
Qed.

Lemma upTo_loop_diverges_witness :
  (0 <= 0)%Z /\ (1 <= 10)%Z /\ run_while 50 (hdr_upTo 1 10 0) print_value (Loop_init 0%Z) = None.
Proof. split; [lia|]. split; [lia|]. apply upTo_loop_diverges; lia. Defined.

Lemma hdr_downTo_for (a last by_ : Z) (s : loop Z) :
  hdr_downTo a last by_ s = hdr_for a (fun v => v - by_)%Z (fun v => last <=? v)%Z s.
Proof. destruct s as [[|] v]; reflexivity. Qed.

Lemma c_for_step_down (by_ last : Z) (n : nat) (x : Z) :
  (0 < by_)%Z -> (Z.to_nat ((x - (last - 1) + by_ - 1) / by_) < n)%nat ->
  c_for n x (fun v => v - by_)%Z (fun v => last <=? v)%Z =
  Some (py_range_down x (last - 1) by_,
        (x - Z.of_nat (Z.to_nat ((x - (last - 1) + by_ - 1) / by_)) * by_)%Z).
Proof.
  intros Hb. revert x; induction n as [|n IH]; intros x Hn; [lia|]. simpl.
  unfold py_range_down. destruct (last <=? x)%Z eqn:E.
  - apply Z.leb_le in E.
    assert (Hc : Z.to_nat ((x - (last - 1) + by_ - 1) / by_) =
                 S (Z.to_nat ((x - by_ - (last - 1) + by_ - 1) / by_))).
    { replace (x - (last - 1) + by_ - 1)%Z with ((x - by_ - (last - 1) + by_ - 1) + 1 * by_)%Z by lia.
      rewrite Z.div_add by lia. assert (0 <= (x - by_ - (last - 1) + by_ - 1) / by_)%Z
        by (apply Z.div_pos; lia). lia. }
    rewrite IH by lia. rewrite Hc. simpl seq. simpl map. f_equal. f_equal.
    + f_equal; [lia|]. rewrite <- seq_shift, map_map. apply map_ext. intros k. lia.
    + lia.
  - apply Z.leb_gt in E.
    assert (Hq : ((x - (last - 1) + by_ - 1) / by_ < 1)%Z) by (apply Z.div_lt_upper_bound; lia).
    replace (Z.to_nat ((x - (last - 1) + by_ - 1) / by_)) with 0%nat by lia.
    simpl. f_equal. f_equal. lia.
Qed.

(** C36: with [by > 0], [while i.start(a).downTo(last, by): print(i)]
    on a fresh [Loop] prints exactly Python's [range(a, last-1, -by)]
    (the values from [a] down to [last], both included) and stops,
    given as many header evaluations as that range has elements, plus
    one. *)
Theorem downTo_loop_range (a last by_ v0 : Z) (fuel : nat) :
  (0 < by_)%Z -> (Z.to_nat ((a - (last - 1) + by_ - 1) / by_) < fuel)%nat ->
  run_while fuel (hdr_downTo a last by_) print_value (Loop_init v0) =
  Some (py_range_down a (last - 1) by_,
        Ok {| firstPass := false;
              value := (a - Z.of_nat (Z.to_nat ((a - (last - 1) + by_ - 1) / by_)) * by_)%Z |}).
Proof.
  intros Hb Hf. rewrite (run_while_ext _ _ _ _ _ (hdr_downTo_for a last by_)).
  rewrite loop_for_refines_core, c_for_step_down by assumption. reflexivity.
Qed.

(** [while i.start(10).downTo(1, 3)] prints 10, 7, 4, 1. *)
Lemma downTo_loop_range_witness :
  (0 < 3)%Z /\ (Z.to_nat ((10 - (1 - 1) + 3 - 1) / 3) < 5)%nat /\
  run_while 5 (hdr_downTo 10 1 3) print_value (Loop_init 0%Z) =
    Some (py_range_down 10 (1 - 1) 3, Ok {| firstPass := false; value := (-2)%Z |}) /\
  py_range_down 10 (1 - 1) 3 = [10; 7; 4; 1]%Z.
Proof.
  split; [lia|]. split; [vm_compute; lia|]. split; [|reflexivity].
  rewrite (downTo_loop_range 10 1 3 0 5 ltac:(lia) ltac:(vm_compute; lia)). reflexivity.
Defined.

(** C24: [i // d], [i % d] and [divmod(i, d)] raise
    [ZeroDivisionError] when [d = 0]; otherwise they return the
    quotient rounded down and a remainder of [d]'s sign, smaller than
    [d] in magnitude, with [i = q*d + r]. *)
Theorem loop_division (self : loop Z) (d : Z) :
  (d = 0%Z -> loop_floordiv self d = Err ZeroDivisionError /\ loop_mod self d = Err ZeroDivisionError /\
              loop_divmod self d = Err ZeroDivisionError) /\
  (d <> 0%Z -> exists q r, loop_divmod self d = Ok (q, r) /\ loop_floordiv self d = Ok q /\
              loop_mod self d = Ok r /\ value self = (q * d + r)%Z /\
              (0 < d -> 0 <= r < d)%Z /\ (d < 0 -> d < r <= 0)%Z).
Proof.
  unfold loop_floordiv, loop_mod, loop_divmod, py_divmod, py_floordiv, py_mod.
  split; intros Hd; [subst d; auto|]. replace (d =? 0)%Z with false by lia.
  exists (value self / d)%Z, (value self mod d)%Z. do 3 (split; [reflexivity|]).
  split; [rewrite Z.mul_comm; apply Z.div_mod, Hd|].
  split; intros Hp; [apply Z.mod_pos_bound | apply Z.mod_neg_bound]; exact Hp.
Qed.

(** C25: [i << n] and [i >> n] raise [ValueError] for a negative
    count; otherwise they multiply [i] by [2**n] and divide it by
    [2**n] rounding down. *)
Theorem loop_shifts (self : loop Z) (n : Z) :
  (n < 0 -> loop_lshift self n = Err ValueError /\ loop_rshift self n = Err ValueError)%Z /\
  (0 <= n -> loop_lshift self n = Ok (value self * 2 ^ n) /\ loop_rshift self n = Ok (value self / 2 ^ n))%Z.
Proof.
  unfold loop_lshift, loop_rshift, py_lshift, py_rshift. split; intros Hn.
  - replace (n <? 0)%Z with true by lia. auto.
  - replace (n <? 0)%Z with false by lia. rewrite Z.shiftl_mul_pow2, Z.shiftr_div_pow2 by exact Hn. auto.
Qed.

(** C32: [int(str(i)) == int(i)] for a [Loop] over ints: what
    [__str__] writes, read back by [int] (that is, [__int__] of a
    [Loop] holding that text), is [__int__] of the loop, with no
    [ValueError]; and [int] of a [Loop] holding text without a digit
    raises [ValueError]. *)
Theorem loop_int_str (self : loop Z) (t : list ascii) :
  loop_int_text (Loop_init (loop_str self)) = Ok (loop_int self) /\
  (Forall (fun c => is_digit c = false) t -> loop_int_text (Loop_init t) = Err ValueError).
Proof. split; [apply int_str_roundtrip | apply int_of_str_no_digit]. Qed.

Lemma loop_int_str_witness :
  Forall (fun c => is_digit c = false) [" "; "-"; "_"]%char /\
  loop_int_text (Loop_init (loop_str (Loop_init (-405)%Z))) = Ok (-405)%Z /\
  loop_int_text (Loop_init [" "; "-"; "_"]%char) = Err ValueError.
Proof.
  assert (H : Forall (fun c => is_digit c = false) [" "; "-"; "_"]%char) by repeat constructor.
  destruct (loop_int_str (Loop_init (-405)%Z) [" "; "-"; "_"]%char) as [H1 H2].
  exact (conj H (conj H1 (H2 H))).
Defined.

(** [i @ m] is [i.value @ m] and [m @ i] is [m @ i.value], in
    that order, for a value type with [__matmul__] (the product of 2x2
    matrices, which does not commute); for an int [Loop] both raise
    [AttributeError], since [int] has no [__matmul__] attribute. *)
Theorem loop_matmul_order (i : loop mat2) (m : mat2) (j : loop Z) (z : Z) :
  loop_matmul i m = Ok (mat2_mul (value i) m) /\
  loop_rmatmul i m = Ok (mat2_mul m (value i)) /\
  loop_matmul j z = Err AttributeError /\ loop_rmatmul j z = Err AttributeError.
Proof. repeat split. Qed.

(** The demos of the [__main__] block print what its comments say:
    100, 50, 25, 12, 6, 3 each followed by the five numbers from it;
    1 to 10; 0 to 100 by 5; 100 down to 20 by 5; and the Fibonacci
    numbers up to 89. *)
Theorem loop_demos :
  run_while 100 demo1_header demo1_body (Loop_init 0%Z) =
    Some (concat (map (fun v => (false, v) :: map (fun j => (true, j)) (py_range2 v (v + 5)))
                      [100; 50; 25; 12; 6; 3]%Z), Ok {| firstPass := false; value := 1%Z |}) /\
  run_while 100 (hdr_upTo 1 10 1) print_value (Loop_init 0%Z) =
    Some (py_range2 1 11, Ok {| firstPass := false; value := 11%Z |}) /\
  run_while 100 demo4_header print_value (Loop_init 0%Z) =
    Some (py_range_step 0 101 5, Ok {| firstPass := false; value := 105%Z |}) /\
  run_while 100 (hdr_down_until 5 (fun v => v <? 20)%Z) print_value (Loop_init 100%Z) =
    Some (map (fun k => 100 - 5 * Z.of_nat k)%Z (seq 0 17), Ok {| firstPass := false; value := 15%Z |}) /\
  run_while 100 demo6_header demo6_body (Loop_init (1, 1)%Z) =
    Some ([1; 1; 2; 3; 5; 8; 13; 21; 34; 55; 89]%Z, Ok {| firstPass := false; value := (144, 233)%Z |}).
Proof. vm_compute. repeat split. Qed.
