(* ===== verification/LoopMachine.v ===== *)
(** * LoopMachine: the life of one [Loop] object

    A [Loop] object is driven by method calls: the header of a [while]
    statement calls [start], [next], [up], [down], [upTo], [downTo],
    [loop] or [until] on it, once per evaluation.  [call] names those
    calls with their arguments, [exec] performs one of them on the
    object's state (the methods of Loop.py, lines 46-76, as Loop.v
    models them), and [exec_all] a sequence of them, stopping at the
    first exception.  The theorems describe the [_firstPass] flag: it
    stays [True] exactly as long as every call so far was [start], and
    nothing sets it back, so an object is good for one loop only. *)

From Stdlib Require Import List ZArith Lia Bool.
From S2P Require Import Prelude Loop.
Import ListNotations.
Open Scope py_scope.

(** A method call on an int-valued [Loop]. *)
Inductive call : Type :=
| CStart (initial : Z)
| CNext (nextValue : option Z)
| CUp (by_ : Z)
| CDown (by_ : Z)
| CUpTo (last by_ : Z)
| CDownTo (last by_ : Z)
| CLoop (condition : bool)
| CUntil (condition : bool).

(** One call on the object; the truth value a header method returns is
    dropped, only the new state is kept. *)
Definition exec (c : call) (s : loop Z) : res (loop Z) :=
  match c with
  | CStart a => Ok (start a s)
  | CNext v => next v s
  | CUp b => up b s
  | CDown b => down b s
  | CUpTo l b => Ok (snd (upTo l b s))
  | CDownTo l b => Ok (snd (downTo l b s))
  | CLoop b => Ok (snd (loop_ b s))
  | CUntil b => Ok (snd (until b s))
  end.

(** A sequence of calls on one object. *)
Fixpoint exec_all (cs : list call) (s : loop Z) : res (loop Z) :=
  match cs with
  | [] => Ok s
  | c :: cs' => s' <- exec c s ;; exec_all cs' s'
  end.

Definition is_start (c : call) : bool :=
  match c with CStart _ => true | _ => false end.

(** The value the [start] calls of a sequence leave, from [v]. *)
Definition last_start (cs : list call) (v : Z) : Z :=
  fold_left (fun v c => match c with CStart a => a | _ => v end) cs v.

(** ** One call *)

Lemma exec_first_pass (c : call) (s s' : loop Z) :
  exec c s = Ok s' ->
  firstPass s' = firstPass s && is_start c /\
  (firstPass s' = true -> value s' = match c with CStart a => a | _ => value s end).
Proof.
  destruct s as [[|] v], c as [a|[nv|]|b|b|l b|l b|b|b]; cbn; intros H; inversion H; subst;
    cbn; split; auto; discriminate.
Qed.

(** ** Sequences of calls *)

(** C19: over any sequence of method calls that returns normally, the
    [_firstPass] flag of a [Loop] is still [True] exactly when it was
    before and every call was [start]; while it is, the value is the
    argument of the last [start] (or the value it had).  So the first
    pass ends at the first call that is not [start] and never begins
    again: no method sets [_firstPass] back to [True]. *)
Theorem first_pass_calls (cs : list call) (s s' : loop Z) :
  exec_all cs s = Ok s' ->
  firstPass s' = firstPass s && forallb is_start cs /\
  (firstPass s' = true -> value s' = last_start cs (value s)).
Proof.
  revert s. induction cs as [|c cs IH]; intros s H; cbn in H.
  - injection H as <-. rewrite andb_true_r. auto.
  - destruct (exec c s) as [s1|x] eqn:E; [|discriminate].
    destruct (exec_first_pass c s s1 E) as [F1 V1]. destruct (IH s1 H) as [F2 V2].
    cbn [forallb]. rewrite andb_assoc, <- F1. split; [exact F2|].
    intros T. rewrite (V2 T). unfold last_start. cbn [fold_left]. f_equal.
    apply V1. rewrite F2 in T. apply andb_true_iff in T. tauto.
Qed.

Lemma first_pass_calls_witness :
  exec_all [CStart 3; CStart 5] (Loop_init 0%Z) = Ok (Loop_init 5%Z) /\
  firstPass (Loop_init 5%Z) = true && forallb is_start [CStart 3; CStart 5] /\
  exec_all [CStart 1; CUpTo 10 1; CStart 1; CUpTo 10 1] (Loop_init 0%Z) = Ok {| firstPass := false; value := 2%Z |}.
Proof.
  split; [reflexivity|]. split; [|reflexivity].
  exact (proj1 (first_pass_calls [CStart 3; CStart 5] (Loop_init 0%Z) (Loop_init 5%Z) eq_refl)).
Defined.

(** ** Using one object for two loops *)

(** A [while] statement that ends normally ends on a header evaluation
    that returned false. *)
Lemma run_while_end {V Out : Type} (fuel : nat) (h : loop V -> res (bool * loop V))
    (body : loop V -> list Out) (s s' : loop V) (out : list Out) :
  run_while fuel h body s = Some (out, Ok s') -> exists s0, h s0 = Ok (false, s').
Proof.
  revert s out. induction fuel as [|k IH]; intros s out H; [discriminate|]. cbn in H.
  destruct (h s) as [[[|] s1]|x] eqn:E; [|injection H as _ <-; eauto|discriminate].
  destruct (run_while k h body s1) as [[o r]|] eqn:E2; [|discriminate].
  injection H as _ ->. eauto.
Qed.

Section Reuse.
Context {V : Type} (a : V) (f : V -> V) (c : V -> bool).

Lemma hdr_for_false (s s' : loop V) :
  hdr_for a f c s = Ok (false, s') -> s' = {| firstPass := false; value := value s' |} /\ c (value s') = false.
Proof.
  destruct s as [[|] v]; cbn; intros H; injection H as Hc <-; auto.
Qed.

(** C35: a [Loop] object is good for one loop: once
    [while i.start(a).next(f(i)).loop(c(i))] has ended on a value
    failing [c], running the same statement again on the same object
    ignores [start(a)] and continues the C loop from [f] of that value
    instead of starting over from [a]. *)
Theorem loop_reuse_continues (fuel fuel' : nat) (v0 : V) (out : list V) (s_end : loop V) :
  run_while fuel (hdr_for a f c) print_value (Loop_init v0) = Some (out, Ok s_end) ->
  c (value s_end) = false /\
  run_while fuel' (hdr_for a f c) print_value s_end = for_result (c_for fuel' (f (value s_end)) f c).
Proof.
  intros H. destruct (run_while_end _ _ _ _ _ _ H) as [s0 H0].
  destruct (hdr_for_false s0 s_end H0) as [Hs Hc]. split; [exact Hc|].
  rewrite Hs. apply run_for_after.
Qed.
End Reuse.

(** The third demo's loop [while i.start(1).upTo(10)] run twice on one
    object: the second run prints nothing, since it resumes at 12. *)
Lemma loop_reuse_continues_witness :
  run_while 20 (hdr_for 1%Z (fun v => v + 1)%Z (fun v => v <=? 10)%Z) print_value (Loop_init 0%Z) =
    Some ([1; 2; 3; 4; 5; 6; 7; 8; 9; 10]%Z, Ok {| firstPass := false; value := 11%Z |}) /\
  run_while 20 (hdr_for 1%Z (fun v => v + 1)%Z (fun v => v <=? 10)%Z) print_value
    {| firstPass := false; value := 11%Z |} = Some ([], Ok {| firstPass := false; value := 12%Z |}).
Proof.
  split; [reflexivity|].
  destruct (loop_reuse_continues 1%Z (fun v => v + 1)%Z (fun v => v <=? 10)%Z 20 20 0%Z
              [1; 2; 3; 4; 5; 6; 7; 8; 9; 10]%Z {| firstPass := false; value := 11%Z |} eq_refl) as [_ H].
  rewrite H. reflexivity.
Defined.
