(* ===== verification/PyFloatRepr.v ===== *)
(** * PyFloatRepr: [repr] of a Python float

    [str(x)] of a float is [repr(x)]: the shortest decimal digit string
    that reads back as [x] (David Gay's mode 0, CPython's [_Py_dg_dtoa]),
    the nearest to [x] among the shortest, laid out by
    [format_float_short] for the type ['r']: plain notation when the
    decimal point position [decpt] satisfies [-4 < decpt <= 16], with
    [.0] added to an integral value, and [d.ddde+XX] otherwise.

    A finite positive float is [m * 2^e], kept as the fraction [N / D].
    Reading a decimal [c * 10^k] back rounds it to nearest, ties to
    even: for [k >= 0] it is [binary_normalize] of the integer, for
    [k < 0] the quotient [c / 10^-k] rounded by SpecFloat's division
    core, as [float(s)] does.  The shortest string is searched over
    [p = 1 .. 17] significant digits, between the two [p]-digit
    decimals around [x]; 17 digits always read back. *)

From Stdlib Require Import List ZArith Lia Bool Ascii String Floats.
From S2P Require Import Prelude PyInt Loop LoopFloat.
Import ListNotations.
Open Scope py_scope.

(** [float(s)] of the decimal [c * 10^k], [c > 0]. *)
Definition dec_to_sf (c k : Z) : spec_float :=
  if (0 <=? k)%Z then binary_normalize prec emax (c * 10 ^ k) 0 false
  else let '(mz, ez, lz) := SFdiv_core_binary prec emax c 0 (10 ^ (- k)) 0 in
       binary_round_aux prec emax false mz ez lz.

(** [m * 2^e] as a fraction [N / D]. *)
Definition num_den (m : positive) (e : Z) : Z * Z :=
  if (0 <=? e)%Z then (Z.pos m * 2 ^ e, 1)%Z else (Z.pos m, 2 ^ (- e))%Z.

(** How [c * 10^k] compares with [N / D]. *)
Definition cmp_dec (c k N D : Z) : comparison :=
  if (0 <=? k)%Z then Z.compare (c * 10 ^ k * D) N else Z.compare (c * D) (N * 10 ^ (- k)).

(** The number of decimal digits of [z > 0]; [z] has fewer digits
    than bits, which bounds the recursion. *)
Fixpoint ndigits (fuel : nat) (z : Z) : Z :=
  match fuel with
  | O => 0
  | S f => if (z <? 10)%Z then 1 else (1 + ndigits f (z / 10))%Z
  end.

Definition digits10 (z : Z) : Z := ndigits (Z.to_nat (Z.log2 z + 1)) z.

(** [floor(log10(N / D))] *)
Definition ilog10 (N D : Z) : Z :=
  let a := (digits10 N - digits10 D)%Z in
  match cmp_dec 1 a N D with Gt => (a - 1)%Z | _ => a end.

(** The [p]-digit decimal [q * 10^k] at or below [N / D]. *)
Definition floor_dec (p N D : Z) : Z * Z :=
  let k := (ilog10 N D - p + 1)%Z in
  ((if (0 <=? k)%Z then N / (D * 10 ^ k) else (N * 10 ^ (- k)) / D)%Z, k).

(** The [p]-digit decimals around [m * 2^e] that read back as it, the
    nearer first (a tie goes to the even one). *)
Definition candidates (m : positive) (e p : Z) : list Z * Z :=
  let '(N, D) := num_den m e in
  let '(q, k) := floor_dec p N D in
  let target := S754_finite false m e in
  let ok c := SFeqb (dec_to_sf c k) target in
  let cs := match cmp_dec q k N D with
            | Eq => [q]
            | _ => match cmp_dec (2 * q + 1) k (2 * N) D with
                   | Lt => [q + 1; q]
                   | Gt => [q; q + 1]
                   | Eq => if Z.even q then [q; q + 1] else [q + 1; q]
                   end
            end%Z in
  (filter ok cs, k).

(** The shortest digits: the first [p] with a candidate. *)
Fixpoint shortest_from (m : positive) (e : Z) (ps : list Z) : Z * Z :=
  match ps with
  | [] => (0, 0)%Z
  | p :: ps' =>
      match candidates m e p with
      | (c :: _, k) => (c, k)
      | ([], _) => shortest_from m e ps'
      end
  end.

Definition shortest (m : positive) (e : Z) : Z * Z :=
  shortest_from m e (map Z.of_nat (seq 1 17)).

Fixpoint drop_zeros (l : list ascii) : list ascii :=
  match l with
  | c :: l' => if Ascii.eqb c "0"%char then drop_zeros l' else l
  | [] => []
  end.

(** [%+.02d] of an exponent. *)
Definition exp_text (x : Z) : list ascii :=
  let ds := py_str_int (Z.abs x) in
  (if (x <? 0)%Z then "-"%char else "+"%char) :: (if (List.length ds <? 2)%nat then "0"%char :: ds else ds).

(** [format_float_short] for ['r'] with [Py_DTSF_ADD_DOT_0]: digits
    [ds] (no trailing zero) with the point [decpt] places from their
    start. *)
Definition format_r (ds : list ascii) (decpt : Z) : list ascii :=
  if ((decpt <=? -4) || (16 <? decpt))%Z then
    match ds with
    | d :: rest => d :: (match rest with [] => [] | _ => "."%char :: rest end) ++ "e"%char :: exp_text (decpt - 1)
    | [] => []
    end
  else if (decpt <=? 0)%Z then "0"%char :: "."%char :: repeat "0"%char (Z.to_nat (- decpt)) ++ ds
  else if (Z.of_nat (List.length ds) <=? decpt)%Z then
    ds ++ repeat "0"%char (Z.to_nat (decpt - Z.of_nat (List.length ds))) ++ ["."; "0"]%char
  else firstn (Z.to_nat decpt) ds ++ "."%char :: skipn (Z.to_nat decpt) ds.

(** [repr(x)] *)
Definition py_float_repr (x : float) : list ascii :=
  match Prim2SF x with
  | S754_nan => list_ascii_of_string "nan"
  | S754_infinity s => list_ascii_of_string (if s then "-inf" else "inf")
  | S754_zero s => list_ascii_of_string (if s then "-0.0" else "0.0")
  | S754_finite s m e =>
      let '(c, k) := shortest m e in
      let ds := py_str_int c in
      let body := rev (drop_zeros (rev ds)) in
      let decpt := (Z.of_nat (List.length ds) + k)%Z in
      (if s then "-"%char :: format_r body decpt else format_r body decpt)
  end.

(** ** The decimal size of a number *)

Lemma ndigits_spec (fuel : nat) (z : Z) :
  (0 < z < 10 ^ Z.of_nat fuel)%Z ->
  (1 <= ndigits fuel z /\ 10 ^ (ndigits fuel z - 1) <= z < 10 ^ ndigits fuel z)%Z.
Proof.
  revert z. induction fuel as [|f IH]; intros z Hz; [cbn in Hz; lia|]. cbn [ndigits].
  destruct (Z.ltb_spec z 10); [cbn; lia|].
  rewrite Nat2Z.inj_succ, Z.pow_succ_r in Hz by lia.
  destruct (IH (z / 10)%Z) as (H1 & H2 & H3); [split; [apply Z.div_str_pos | apply Z.div_lt_upper_bound]; lia|].
  replace (1 + ndigits f (z / 10) - 1)%Z with (ndigits f (z / 10)) by lia.
  assert (Hp : (10 ^ ndigits f (z / 10) = 10 * 10 ^ (ndigits f (z / 10) - 1))%Z)
    by (rewrite <- Z.pow_succ_r by lia; f_equal; lia).
  rewrite Hp in H3. rewrite Z.pow_add_r, Z.pow_1_r, Hp by lia.
  pose proof (Z.mod_pos_bound z 10 ltac:(lia)). pose proof (Z.div_mod z 10 ltac:(discriminate)). lia.
Qed.

Lemma digits10_spec (z : Z) :
  (0 < z)%Z -> (1 <= digits10 z /\ 10 ^ (digits10 z - 1) <= z < 10 ^ digits10 z)%Z.
Proof.
  intros Hz. apply ndigits_spec. split; [exact Hz|].
  rewrite Z2Nat.id by (pose proof (Z.log2_nonneg z); lia).
  apply Z.lt_le_trans with (2 ^ (Z.log2 z + 1))%Z; [apply Z.log2_spec; lia|].
  apply Z.pow_le_mono_l. pose proof (Z.log2_nonneg z). lia.
Qed.

(** ** Decimals around an integral value [v = N / D] *)

Lemma cmp_dec_int (c k v D : Z) :
  (0 <= k)%Z -> (0 < D)%Z -> cmp_dec c k (v * D) D = Z.compare (c * 10 ^ k) v.
Proof.
  intros Hk HD. unfold cmp_dec. rewrite (proj2 (Z.leb_le 0 k) Hk).
  symmetry. apply Zmult_compare_compat_r. lia.
Qed.

Lemma pow10_split (a b : Z) : (0 <= a)%Z -> (0 <= b)%Z -> (10 ^ (a + b) = 10 ^ a * 10 ^ b)%Z.
Proof. intros. apply Z.pow_add_r; lia. Qed.

Lemma ilog10_int (v D : Z) :
  (1 <= v)%Z -> (0 < D)%Z ->
  (0 <= ilog10 (v * D) D /\ 10 ^ ilog10 (v * D) D <= v < 10 ^ (ilog10 (v * D) D + 1))%Z.
Proof.
  intros Hv HD. unfold ilog10.
  destruct (digits10_spec (v * D) ltac:(nia)) as (HN1 & HN2 & HN3).
  destruct (digits10_spec D HD) as (HD1 & HD2 & HD3).
  set (dN := digits10 (v * D)) in *. set (dD := digits10 D) in *.
  assert (Ha : (dD <= dN)%Z).
  { destruct (Z.le_gt_cases dD dN) as [|Hlt]; [assumption|].
    assert (10 ^ dN <= 10 ^ (dD - 1))%Z by (apply Z.pow_le_mono_r; lia). nia. }
  assert (Hup : (v < 10 ^ (dN - dD + 1))%Z).
  { assert (E : (10 ^ dN = 10 ^ (dN - dD + 1) * 10 ^ (dD - 1))%Z) by (rewrite <- pow10_split by lia; f_equal; lia).
    nia. }
  rewrite cmp_dec_int by lia. rewrite Z.mul_1_l.
  destruct (Z.compare_spec (10 ^ (dN - dD)) v) as [E|E|E].
  - repeat split; lia.
  - repeat split; lia.
  - assert (Hpos : (1 <= dN - dD)%Z) by (destruct (Z.eq_dec (dN - dD) 0) as [E0|]; [rewrite E0 in E; cbn in E; lia | lia]).
    assert (Elo : (10 ^ (dN - 1) = 10 ^ (dN - dD - 1) * 10 ^ dD)%Z) by (rewrite <- pow10_split by lia; f_equal; lia).
    repeat split; try lia; [nia | replace (dN - dD - 1 + 1)%Z with (dN - dD)%Z by lia; lia].
Qed.

(** The [p]-digit decimal below an integral value, for [p] at most its
    number of digits. *)
Lemma floor_dec_int (p v D : Z) :
  (1 <= v)%Z -> (0 < D)%Z -> (0 <= ilog10 (v * D) D - p + 1)%Z ->
  floor_dec p (v * D) D = (v / 10 ^ (ilog10 (v * D) D - p + 1), ilog10 (v * D) D - p + 1)%Z.
Proof.
  intros Hv HD Hk. unfold floor_dec. rewrite (proj2 (Z.leb_le 0 _) Hk). f_equal.
  rewrite (Z.mul_comm D (10 ^ _)), Z.div_mul_cancel_r; [reflexivity | apply Z.pow_nonzero | ]; lia.
Qed.

(** ** Integral floats below [2^53] *)

Lemma size53_bounds (m : positive) : Pos.size m = 53%positive -> (2 ^ 52 <= Z.pos m < 2 ^ 53)%Z.
Proof.
  intros Hm. pose proof (Pos.size_gt m) as Hg. pose proof (Pos.size_le m) as Hl. rewrite Hm in Hg, Hl.
  apply Pos2Z.pos_lt_pos in Hg. apply Pos2Z.pos_le_pos in Hl.
  change (Z.pos m~0) with (2 * Z.pos m)%Z in Hl. cbn in Hg, Hl |- *. lia.
Qed.

(** A value has one 53-bit mantissa. *)
Lemma mant_unique (P m1 m2 : positive) (e1 e2 : Z) :
  Pos.size m1 = 53%positive -> Pos.size m2 = 53%positive -> (e1 <= 0)%Z -> (e2 <= 0)%Z ->
  Z.pos m1 = (Z.pos P * 2 ^ (- e1))%Z -> Z.pos m2 = (Z.pos P * 2 ^ (- e2))%Z -> m1 = m2 /\ e1 = e2.
Proof.
  intros H1 H2 He1 He2 E1 E2. apply size53_bounds in H1, H2.
  assert (e1 = e2).
  { destruct (Z.lt_total e1 e2) as [Hlt|[Heq|Hlt]]; [exfalso| exact Heq | exfalso].
    - assert (Z.pos m1 = Z.pos m2 * 2 ^ (e2 - e1))%Z
        by (rewrite E1, E2, <- Z.mul_assoc, <- Z.pow_add_r by lia; f_equal; f_equal; lia).
      assert (2 <= 2 ^ (e2 - e1))%Z by (replace 2%Z with (2 ^ 1)%Z at 1 by reflexivity; apply Z.pow_le_mono_r; lia).
      nia.
    - assert (Z.pos m2 = Z.pos m1 * 2 ^ (e1 - e2))%Z
        by (rewrite E1, E2, <- Z.mul_assoc, <- Z.pow_add_r by lia; f_equal; f_equal; lia).
      assert (2 <= 2 ^ (e1 - e2))%Z by (replace 2%Z with (2 ^ 1)%Z at 1 by reflexivity; apply Z.pow_le_mono_r; lia).
      nia. }
  subst e2. split; [|reflexivity]. apply Pos2Z.inj. congruence.
Qed.

Lemma sfeqb_finite (m1 m2 : positive) (e1 e2 : Z) :
  SFeqb (S754_finite false m1 e1) (S754_finite false m2 e2) = true <-> m1 = m2 /\ e1 = e2.
Proof.
  unfold SFeqb, SFcompare. change (Pos.compare_cont Eq m1 m2) with (Pos.compare m1 m2).
  destruct (Z.compare_spec e1 e2) as [->|H|H]; [|split; [discriminate | lia]..].
  destruct (Pos.compare_spec m1 m2) as [->|H|H]; split; try discriminate; intuition (subst; lia).
Qed.

Lemma shortest_from_app (m : positive) (e : Z) (l1 l2 : list Z) (p c : Z) (cs : list Z) (k : Z) :
  Forall (fun p => fst (candidates m e p) = []) l1 -> candidates m e p = (c :: cs, k) ->
  shortest_from m e (l1 ++ p :: l2) = (c, k).
Proof.
  intros H Hp. induction H as [|p' l1 Hp' _ IH]; cbn; [rewrite Hp; reflexivity|].
  destruct (candidates m e p') as [[|c' cs'] k']; cbn in Hp'; [exact IH | discriminate].
Qed.

(** [1 .. 17] split at [n]. *)
Lemma seq17_split (n : nat) :
  (1 <= n <= 17)%nat ->
  map Z.of_nat (seq 1 17) = map Z.of_nat (seq 1 (n - 1)) ++ Z.of_nat n :: map Z.of_nat (seq (S n) (17 - n)).
Proof.
  intros Hn. replace 17%nat with ((n - 1) + S (17 - n))%nat at 1 by lia.
  rewrite seq_app, map_app. replace (1 + (n - 1))%nat with n by lia. reflexivity.
Qed.

Section IntRepr.
(** The float of an int [P] below [10^15]: its 53-bit mantissa [m]
    and exponent [e], with [m * 2^e = P] exactly. *)
Variables (P m : positive) (e : Z).
Hypothesis HP : (Z.pos P < 10 ^ 15)%Z.
Hypothesis Hr : binary_round prec emax false P 0 = S754_finite false m e.
Hypothesis Hm : Pos.size m = 53%positive.
Hypothesis He0 : (e <= 0)%Z.
Hypothesis Hme : Z.pos m = (Z.pos P * 2 ^ (- e))%Z.

Lemma e_range : (-1074 <= e <= 971)%Z.
Proof.
  destruct (size53_bounds m Hm) as [_ Hlt]. split; [|lia].
  destruct (Z.le_gt_cases (-1074) e) as [|Hle]; [assumption|].
  assert (2 ^ 53 <= 2 ^ (- e))%Z by (apply Z.pow_le_mono_r; lia). nia.
Qed.

Lemma num_den_P : num_den m e = (Z.pos P * 2 ^ (- e), 2 ^ (- e))%Z.
Proof.
  unfold num_den. destruct (Z.leb_spec 0 e) as [H|H].
  - assert (e = 0)%Z by lia. subst e. rewrite Hme. f_equal; cbn [Z.opp]; rewrite ?Z.pow_0_r; ring.
  - rewrite Hme. reflexivity.
Qed.

(** Reading [w] back gives this float exactly when [w = P]. *)
Lemma reads_back (w : Z) :
  (0 <= w < 2 ^ 53)%Z -> SFeqb (binary_normalize prec emax w 0 false) (S754_finite false m e) = true <-> w = Z.pos P.
Proof.
  intros Hw. destruct w as [|w|w]; [cbn; split; discriminate| |lia].
  cbn [binary_normalize].
  destruct (binary_round_small false w (size_small w ltac:(lia))) as (m2 & e2 & Hr2 & Hm2 & _ & _ & He2 & Hme2).
  rewrite Hr2, sfeqb_finite. split.
  - intros [-> ->]. apply (Z.mul_reg_r _ _ (2 ^ (- e))); [apply Z.pow_nonzero; lia|]. congruence.
  - intros Hw'. injection Hw' as ->. rewrite Hr in Hr2. injection Hr2 as -> ->. auto.
Qed.

Lemma dec_to_sf_int (c k : Z) : (0 <= k)%Z -> dec_to_sf c k = binary_normalize prec emax (c * 10 ^ k) 0 false.
Proof. intros Hk. unfold dec_to_sf. rewrite (proj2 (Z.leb_le 0 k) Hk). reflexivity. Qed.

(** [P] is [c * 10^t] with [c] not divisible by 10. *)
Variables (c : Z) (t : nat).
Hypothesis Hc : (0 < c)%Z.
Hypothesis Hc10 : (c mod 10 <> 0)%Z.
Hypothesis HPc : Z.pos P = (c * 10 ^ Z.of_nat t)%Z.

Let D := (2 ^ (- e))%Z.
Let E := ilog10 (Z.pos P * D) D.

Lemma D_pos : (0 < D)%Z.
Proof. apply Z.pow_pos_nonneg; lia. Qed.

Lemma E_spec : (0 <= E /\ 10 ^ E <= Z.pos P < 10 ^ (E + 1) /\ E < 15 /\ Z.of_nat t <= E)%Z.
Proof.
  destruct (ilog10_int (Z.pos P) D ltac:(lia) D_pos) as (H0 & H1 & H2). fold E in H0, H1, H2.
  assert (E < 15)%Z.
  { destruct (Z.lt_ge_cases E 15) as [|Hge]; [assumption|].
    assert (10 ^ 15 <= 10 ^ E)%Z by (apply Z.pow_le_mono_r; lia). lia. }
  assert (Z.of_nat t <= E)%Z.
  { destruct (Z.le_gt_cases (Z.of_nat t) E) as [|Hgt]; [assumption|].
    assert (10 ^ (E + 1) <= 10 ^ Z.of_nat t)%Z by (apply Z.pow_le_mono_r; lia). nia. }
  repeat split; assumption.
Qed.

(** Above [t] the [p]-digit decimals miss [P]: [10^k] does not divide it. *)
Lemma not_multiple (q k : Z) : (Z.of_nat t < k)%Z -> (q * 10 ^ k <> Z.pos P)%Z.
Proof.
  intros Hk Heq. apply Hc10. rewrite HPc in Heq.
  replace k with (k - Z.of_nat t - 1 + 1 + Z.of_nat t)%Z in Heq by lia.
  rewrite !Z.pow_add_r, Z.pow_1_r, !Z.mul_assoc in Heq by lia.
  apply Z.mul_reg_r in Heq; [|apply Z.pow_nonzero; lia]. rewrite <- Heq. apply Z_mod_mult.
Qed.

Lemma cand_miss (p : Z) : (1 <= p)%Z -> (Z.of_nat t < E - p + 1)%Z -> fst (candidates m e p) = [].
Proof.
  intros Hp Hk. destruct E_spec as (HE0 & (HE1 & HE2) & HE3 & HEt).
  unfold candidates. rewrite num_den_P. fold D. rewrite floor_dec_int by (try apply D_pos; lia). fold E.
  set (k := (E - p + 1)%Z) in *. set (q := (Z.pos P / 10 ^ k)%Z).
  assert (Hq1 : (q * 10 ^ k <= Z.pos P < (q + 1) * 10 ^ k)%Z).
  { pose proof (Z.pow_pos_nonneg 10 k ltac:(lia) ltac:(lia)).
    split; [rewrite Z.mul_comm; apply Z.mul_div_le | rewrite Z.mul_comm; apply Z.mul_succ_div_gt]; lia. }
  assert (Hq2 : ((q + 1) * 10 ^ k <= 10 ^ (E + 1))%Z).
  { assert (q < 10 ^ p)%Z.
    { apply Z.div_lt_upper_bound; [apply Z.pow_pos_nonneg; lia|].
      rewrite <- Z.pow_add_r by lia. replace (k + p)%Z with (E + 1)%Z by lia. lia. }
    replace (E + 1)%Z with (p + k)%Z by lia. rewrite Z.pow_add_r by lia.
    apply Z.mul_le_mono_nonneg_r; [apply Z.pow_nonneg|]; lia. }
  assert (H15 : (10 ^ (E + 1) <= 10 ^ 15)%Z) by (apply Z.pow_le_mono_r; lia).
  assert (Hq0 : (0 <= q)%Z) by (apply Z.div_pos; [lia | apply Z.pow_pos_nonneg; lia]).
  assert (Hnx : (q * 10 ^ k <> Z.pos P)%Z) by (apply not_multiple; lia).
  assert (Hoq : SFeqb (dec_to_sf q k) (S754_finite false m e) = false).
  { rewrite dec_to_sf_int by lia. apply Bool.not_true_iff_false. rewrite reads_back; [exact Hnx|].
    split; [apply Z.mul_nonneg_nonneg; [lia | apply Z.pow_nonneg; lia]|]. cbn in H15 |- *. lia. }
  assert (Hoq1 : SFeqb (dec_to_sf (q + 1) k) (S754_finite false m e) = false).
  { rewrite dec_to_sf_int by lia. apply Bool.not_true_iff_false. rewrite reads_back; [lia|].
    split; [apply Z.mul_nonneg_nonneg; [lia | apply Z.pow_nonneg; lia]|]. cbn in H15 |- *. lia. }
  rewrite cmp_dec_int by (try apply D_pos; lia).
  rewrite Z.mul_assoc, cmp_dec_int by (try apply D_pos; lia).
  destruct (Z.compare_spec (q * 10 ^ k) (Z.pos P)) as [Heq|_|Hgt]; [contradiction | | lia];
    destruct (Z.compare (_ * 10 ^ k) _); try destruct (Z.even q); cbn; rewrite ?Hoq, ?Hoq1; reflexivity.
Qed.

(** At [p] = the digits of [c], the decimal [c * 10^t] is [P] itself. *)
Lemma cand_hit : candidates m e (E + 1 - Z.of_nat t) = ([c], Z.of_nat t).
Proof.
  destruct E_spec as (HE0 & (HE1 & HE2) & HE3 & HEt).
  unfold candidates. rewrite num_den_P. fold D. rewrite floor_dec_int by (try apply D_pos; lia). fold E.
  replace (E - (E + 1 - Z.of_nat t) + 1)%Z with (Z.of_nat t) by lia.
  assert (Hq : (Z.pos P / 10 ^ Z.of_nat t = c)%Z)
    by (rewrite HPc; apply Z.div_mul; apply Z.pow_nonzero; lia).
  rewrite Hq, cmp_dec_int, <- HPc, Z.compare_refl by (try apply D_pos; lia). cbn [filter].
  rewrite dec_to_sf_int, <- HPc by lia.
  assert (H15 : (10 ^ 15 < 2 ^ 53)%Z) by reflexivity.
  rewrite (proj2 (reads_back (Z.pos P) ltac:(lia)) eq_refl). reflexivity.
Qed.

(** The shortest digits of the float of [P] are those of [c]. *)
Lemma shortest_int : shortest m e = (c, Z.of_nat t).
Proof.
  destruct E_spec as (HE0 & (HE1 & HE2) & HE3 & HEt).
  unfold shortest. rewrite (seq17_split (Z.to_nat (E + 1 - Z.of_nat t))) by lia.
  rewrite Z2Nat.id by lia. apply (shortest_from_app _ _ _ _ _ _ [] _); [|apply cand_hit].
  apply Forall_forall. intros p Hin. apply in_map_iff in Hin as (x & <- & Hx). apply in_seq in Hx.
  apply cand_miss; lia.
Qed.

(** [repr] of the float of [P] (with either sign) is [str(P)] with
    [.0] after it. *)
Lemma repr_int (sg : bool) :
  py_float_repr (SF2Prim (S754_finite sg m e)) =
  (if sg then ["-"%char] else []) ++ py_str_int (Z.pos P) ++ ["."; "0"]%char.
Proof.
  destruct E_spec as (HE0 & (HE1 & HE2) & HE3 & HEt).
  unfold py_float_repr. rewrite Prim2SF_SF2Prim by (apply valid_53; [exact Hm | exact e_range]). rewrite shortest_int.
  destruct c as [|c'|c'] eqn:Ec; [lia| |lia].
  destruct (str_last_digit c' Hc10) as (l & x & Hds & Hx).
  assert (HL : py_str_int (Z.pos P) = (l ++ [x]) ++ repeat "0"%char t)
    by (rewrite HPc, str_pow10, Hds; reflexivity).
  pose proof (str_length_lower P) as Hlen. rewrite HL, length_app, repeat_length, Nat2Z.inj_add in Hlen.
  assert (HLe : (Z.of_nat (List.length (l ++ [x])) + Z.of_nat t <= E + 1)%Z).
  { destruct (Z.le_gt_cases (Z.of_nat (List.length (l ++ [x])) + Z.of_nat t) (E + 1)) as [|Hgt]; [assumption|].
    assert (10 ^ (E + 1) <= 10 ^ (Z.of_nat (List.length (l ++ [x])) + Z.of_nat t - 1))%Z
      by (apply Z.pow_le_mono_r; lia). lia. }
  assert (Hpos : (1 <= Z.of_nat (List.length (l ++ [x])))%Z) by (rewrite List.length_app; cbn; lia).
  rewrite Hds, rev_app_distr. cbn [rev app drop_zeros]. rewrite (proj2 (Ascii.eqb_neq x "0"%char) Hx).
  change (rev (x :: rev l)) with (rev (rev l) ++ [x]). rewrite rev_involutive.
  unfold format_r.
  replace ((Z.of_nat (List.length (l ++ [x])) + Z.of_nat t <=? -4) || (16 <? Z.of_nat (List.length (l ++ [x])) + Z.of_nat t))%Z
    with false by (symmetry; apply orb_false_iff; split; [apply Z.leb_gt | apply Z.ltb_ge]; lia).
  replace (Z.of_nat (List.length (l ++ [x])) + Z.of_nat t <=? 0)%Z with false by (symmetry; apply Z.leb_gt; lia).
  replace (Z.of_nat (List.length (l ++ [x])) <=? Z.of_nat (List.length (l ++ [x])) + Z.of_nat t)%Z with true
    by (symmetry; apply Z.leb_le; lia).
  replace (Z.to_nat (Z.of_nat (List.length (l ++ [x])) + Z.of_nat t - Z.of_nat (List.length (l ++ [x])))) with t by lia.
  rewrite HL, <- !app_assoc. destruct sg; reflexivity.
Qed.

End IntRepr.

(** [repr(float(n))] is [str(n) + ".0"] for every int [n] with
    [0 < |n| < 10^15]. *)
Lemma repr_float_of_int (z : Z) (f : float) :
  (0 < Z.abs z < 10 ^ 15)%Z -> float_of_int z = Ok f -> py_float_repr f = py_str_int z ++ ["."; "0"]%char.
Proof.
  intros Hz Hf. assert (H53 : (10 ^ 15 < 2 ^ 53)%Z) by reflexivity.
  destruct z as [|P|P]; [lia| |]; cbn [Z.abs] in Hz;
    destruct (strip_tens P) as (c & t & Hc & Hc10 & HPc);
    destruct (binary_round_small false P (size_small P ltac:(lia))) as (m & e & Hr & Hm & He & _ & He0 & Hme).
  - unfold float_of_int in Hf. cbn [binary_normalize] in Hf. rewrite Hr in Hf.
    pose proof (Prim2SF_SF2Prim _ (valid_53 false m e Hm He)) as Hv.
    rewrite (Prim2SF_finite_not_inf _ _ _ _ Hv) in Hf. injection Hf as <-.
    apply (repr_int P m e (proj2 Hz) Hr Hm He0 Hme c t Hc Hc10 HPc false).
  - destruct (binary_round_small true P (size_small P ltac:(lia))) as (m1 & e1 & Hr1 & Hm1 & He1 & _ & He10 & Hme1).
    destruct (mant_unique P m1 m e1 e Hm1 Hm He10 He0 Hme1 Hme) as [Em Ee]. subst m1 e1.
    unfold float_of_int in Hf. cbn [binary_normalize] in Hf. rewrite Hr1 in Hf.
    pose proof (Prim2SF_SF2Prim _ (valid_53 true m e Hm He)) as Hv.
    rewrite (Prim2SF_finite_not_inf _ _ _ _ Hv) in Hf. injection Hf as <-.
    exact (repr_int P m e (proj2 Hz) Hr Hm He0 Hme c t Hc Hc10 HPc true).
Qed.
