(* ===== verification/LoopMain.v ===== *)
(** * LoopMain: what the [__main__] block of Loop.py writes

    Lines 122-147 run six [while] loops, one after the other, each on a
    fresh [Loop], with [print('')] between them.  [print(args...)] writes
    the [str] of its arguments joined by a space and ends the line;
    [str] of an int is PyInt's [py_str_int], of a float PyFloatRepr's
    [py_float_repr], and [str(i)] of a [Loop] is [__str__], the [str]
    of its value.  An exception in a header ends the program after
    what was printed so far. *)

From Stdlib Require Import List ZArith Lia Ascii String Floats.
From S2P Require Import Prelude PyStr PyInt Loop LoopFloat PyFloatRepr.
Import ListNotations.
Open Scope py_scope.

(** [print(args...)]: one line of output. *)
Definition py_print (args : list pystr) : pystr := py_join [space] args.

(** [str(x)] of a Python number. *)
Definition str_num (x : pynum) : pystr :=
  match x with
  | PInt z => py_str_int z
  | PFloat f => py_float_repr f
  end.

(** [__str__] of a number-valued [Loop] (line 80). *)
Definition loop_str_num (self : loop pynum) : pystr := str_num (value self).

(** The body of the first demo: [print(+i)], then
    [for j in range(+i,i+5): print("  ",j)]. *)
Definition demo1_lines (i : loop Z) : list pystr :=
  py_print [py_str_int (loop_pos i)] ::
  map (fun j => py_print [[space; space]; py_str_int j]) (py_range2 (loop_pos i) (loop_add i 5)).

(** [print(i)] and [print(f[0])]. *)
Definition print_loop (i : loop Z) : list pystr := [py_print [loop_str i]].
Definition print_loop_num (i : loop pynum) : list pystr := [py_print [loop_str_num i]].
Definition print_first (f : loop (Z * Z)) : list pystr :=
  match loop_getitem f 0 with Ok x => [py_print [py_str_int x]] | Err _ => [] end.

(** One [while] statement followed by the rest of the program: its
    lines, then the rest's if it ended normally; [None] if the bound on
    header evaluations ran out. *)
Definition then_run {V : Type} (r : option (list pystr * res (loop V))) (rest : option (list pystr))
  : option (list pystr) :=
  match r with
  | None => None
  | Some (out, Err _) => Some out
  | Some (out, Ok _) => match rest with Some l => Some (out ++ l) | None => None end
  end.

(** [print('')] and what follows it. *)
Definition blank_then (rest : option (list pystr)) : option (list pystr) :=
  match rest with Some l => Some ([] :: l) | None => None end.

(** Lines 122-147, each loop with a bound of 100 header evaluations. *)
Definition main_stdout : option (list pystr) :=
  let d6 := then_run (run_while 100 demo6_header print_first (Loop_init (1, 1)%Z)) (Some []) in
  let d5 := then_run (run_while 100 (hdr_down_until 5 (fun v => v <? 20)%Z) print_loop (Loop_init 100%Z))
                     (blank_then d6) in
  let d4 := then_run (run_while 100 demo4_header print_loop (Loop_init 0%Z)) (blank_then d5) in
  let d3 := then_run (run_while 100 (hdr_upTo 1 10 1) print_loop (Loop_init 0%Z)) (blank_then d4) in
  let d2 := then_run (run_while 100 demo2_header print_loop_num (Loop_init (PInt 100))) (blank_then d3) in
  then_run (run_while 100 demo1_header demo1_lines (Loop_init 0%Z)) (blank_then d2).

(** C16: [str(Loop(float(i)))] is [str(i) + ".0"] for every int with
    [0 < |i| < 10^15]: [float()] rounds nothing there and [repr]'s
    shortest digits are those of [i], written with [.0] after them
    (so the second demo prints [50.0], not [50]). *)
Theorem loop_str_float_int (n : Z) (f : float) :
  (0 < Z.abs n < 10 ^ 15)%Z -> loop_float (Loop_init (PInt n)) = Ok f ->
  loop_str_num (Loop_init (PFloat f)) = loop_str (Loop_init n) ++ ["."; "0"]%char.
Proof. intros Hn Hf. exact (repr_float_of_int n f Hn Hf). Qed.

Lemma loop_str_float_int_witness :
  (0 < Z.abs (-4096000) < 10 ^ 15)%Z /\
  loop_float (Loop_init (PInt (-4096000))) = Ok (-4096000)%float /\
  loop_str_num (Loop_init (PFloat (-4096000)%float)) = list_ascii_of_string "-4096000.0".
Proof.
  assert (H1 : (0 < Z.abs (-4096000) < 10 ^ 15)%Z) by (cbn; lia).
  assert (H2 : loop_float (Loop_init (PInt (-4096000))) = Ok (-4096000)%float) by (vm_compute; reflexivity).
  split; [exact H1|]. split; [exact H2|].
  rewrite (loop_str_float_int (-4096000) (-4096000)%float H1 H2). reflexivity.
Defined.
