(* ===== verification/LazyProperty.v ===== *)
(** * LazyProperty: the [Prop] descriptor of src/LazyProperty.py

    A [Prop] is a data descriptor stored in the class: [value] and
    [lazy] are fields of the descriptor object itself (lines 13-15), so
    every instance of the class reads and writes the same two fields.
    The world is the class's table of descriptors, a [gmap] from
    attribute names to descriptor states, with the instances' own
    dictionaries for attributes that are not descriptors.  A [lazy]
    function is a [lambda self: ...] whose body reads attributes of
    [self] and adds them; [__get__] (lines 17-21) evaluates it, which may
    read other lazy attributes in turn, so [get] carries a recursion
    budget whose exhaustion is Python's [RecursionError]. *)

From stdpp Require Import base strings gmap.
From Stdlib Require Import ZArith Lia.
From S2P Require Import Prelude PyInt.
Open Scope py_scope.

(** The Python values the demo and the usage comment handle: [None],
    ints and strings. *)
Inductive pyval : Type :=
| VNone
| VInt (z : Z)
| VStr (s : string).

(** The body of a [lambda self: ...]. *)
Inductive lazyexpr : Type :=
| LConst (v : pyval)
| LAttr (name : string)
| LAdd (e1 e2 : lazyexpr).

(** A [Prop] object: its [value] and [lazy] fields. *)
Record PropDesc : Type := { pvalue : pyval; plazy : option lazyexpr }.

(** [Prop(value=None, lazy=None)] *)
Definition Prop_init (value : pyval) (lazy : option lazyexpr) : PropDesc :=
  {| pvalue := value; plazy := lazy |}.

(** The class's [Prop] attributes and the instances' dictionaries
    (instance [o], attribute [name]). *)
Record world : Type := {
  props : gmap string PropDesc;
  inst : gmap (nat * string) pyval
}.

(** [a + b]: int addition or string concatenation. *)
Definition py_add (a b : pyval) : res pyval :=
  match a, b with
  | VInt x, VInt y => Ok (VInt (x + y))
  | VStr x, VStr y => Ok (VStr (String.append x y))
  | _, _ => Err TypeError
  end.

Definition set_prop (w : world) (name : string) (p : PropDesc) : world :=
  {| props := <[name := p]> (props w); inst := inst w |}.

(** Evaluating a lazy body: attributes are read with [getter], left to
    right; state changes made before an exception persist. *)
Fixpoint eval_lazy (getter : world -> string -> world * res pyval) (w : world) (e : lazyexpr)
  : world * res pyval :=
  match e with
  | LConst v => (w, Ok v)
  | LAttr n => getter w n
  | LAdd e1 e2 =>
      let '(w1, r1) := eval_lazy getter w e1 in
      match r1 with
      | Err x => (w1, Err x)
      | Ok v1 =>
          let '(w2, r2) := eval_lazy getter w1 e2 in
          match r2 with
          | Err x => (w2, Err x)
          | Ok v2 => (w2, py_add v1 v2)
          end
      end
  end.

(** [obj.name]: a [Prop] of the class answers through [__get__]: a
    pending [lazy] is called on [obj], its result stored in [value] and
    [lazy] cleared; otherwise the stored [value] is returned.  Any other
    attribute is looked up in the instance's dictionary. *)
Fixpoint get (fuel : nat) (w : world) (obj : nat) (name : string) : world * res pyval :=
  match fuel with
  | O => (w, Err RecursionError)
  | S fuel' =>
      match props w !! name with
      | None =>
          match inst w !! (obj, name) with
          | Some v => (w, Ok v)
          | None => (w, Err AttributeError)
          end
      | Some p =>
          match plazy p with
          | None => (w, Ok (pvalue p))
          | Some e =>
              let '(w', r) := eval_lazy (fun w n => get fuel' w obj n) w e in
              match r with
              | Err x => (w', Err x)
              | Ok v => (set_prop w' name {| pvalue := v; plazy := None |}, Ok v)
              end
          end
      end
  end.

(** [Cls.name]: [__get__] with [obj] [None].  A pending [lazy] is
    called on [None], on which reading any attribute raises
    [AttributeError] and changes nothing; a name the class does not
    define raises [AttributeError] without looking at any instance. *)
Definition get_class (w : world) (name : string) : world * res pyval :=
  match props w !! name with
  | None => (w, Err AttributeError)
  | Some p =>
      match plazy p with
      | None => (w, Ok (pvalue p))
      | Some e =>
          let '(w', r) := eval_lazy (fun w _ => (w, Err AttributeError)) w e in
          match r with
          | Err x => (w', Err x)
          | Ok v => (set_prop w' name {| pvalue := v; plazy := None |}, Ok v)
          end
      end
  end.

(** Whether a lazy body reads an attribute of [self]. *)
Fixpoint reads_self (e : lazyexpr) : bool :=
  match e with
  | LConst _ => false
  | LAttr _ => true
  | LAdd e1 e2 => reads_self e1 || reads_self e2
  end.

(** [obj.name = v]: a [Prop] of the class takes it through [__set__],
    which stores [value] and leaves [lazy] as it is; any other
    attribute goes to the instance's dictionary. *)
Definition set_attr (w : world) (obj : nat) (name : string) (v : pyval) : world :=
  match props w !! name with
  | Some p => set_prop w name {| pvalue := v; plazy := plazy p |}
  | None => {| props := props w; inst := <[(obj, name) := v]> (inst w) |}
  end.

(** A statement of a script that uses the class: read (and print) or
    assign an attribute of an instance. *)
Inductive stmt : Type :=
| SPrint (obj : nat) (name : string)
| SAssign (obj : nat) (name : string) (v : pyval).

(** Runs a script; stops at the first exception. *)
Fixpoint run (fuel : nat) (w : world) (ss : list stmt) : world * list pyval * option pyexc :=
  match ss with
  | [] => (w, [], None)
  | SPrint o n :: ss' =>
      match get fuel w o n with
      | (w', Err x) => (w', [], Some x)
      | (w', Ok v) => let '(w'', out, ex) := run fuel w' ss' in (w'', v :: out, ex)
      end
  | SAssign o n v :: ss' => run fuel (set_attr w o n v) ss'
  end.

(** The class [Test] of the [__main__] block (lines 27-29). *)
Definition Test_class : world :=
  {| props := <["answer" := Prop_init VNone (Some (LAdd (LAttr "question") (LConst (VInt 1))))]>
              (<["question" := Prop_init (VInt 41) None]> ∅);
     inst := ∅ |}.

(** Lines 31-35: [test = Test()] is instance 0. *)
Definition demo_script : list stmt :=
  [SAssign 0 "question" (VInt 72); SPrint 0 "answer";
   SAssign 0 "answer" (VInt 37); SPrint 0 "answer"].

(** [str(v)], the text [print] writes for a value. *)
Definition str_val (v : pyval) : list Ascii.ascii :=
  match v with
  | VNone => String.list_ascii_of_string "None"
  | VInt z => py_str_int z
  | VStr s => String.list_ascii_of_string s
  end.

(** The [__main__] block (lines 26-35): the class [Test], the script
    on the instance [test], with Python's recursion limit as the budget
    of nested reads; the lines it prints and the exception it ends on,
    if any. *)
Definition lazy_main : list (list Ascii.ascii) * option pyexc :=
  let '(_, out, ex) := run 1000 Test_class demo_script in (map str_val out, ex).

(** The class of the module comment's usage example (lines 7-9):
    [name = Prop("")] and
    [title = Prop(lazy=lambda self:"Mr. "+self.name)]. *)
Definition MyClass : world :=
  {| props := <["title" := Prop_init VNone (Some (LAdd (LConst (VStr "Mr. ")) (LAttr "name")))]>
              (<["name" := Prop_init (VStr "") None]> ∅);
     inst := ∅ |}.

(** The relation of two worlds that differ at most in the stored
    [value] of the attribute [n] while its [lazy] is pending. *)
Definition agree (n : string) (w1 w2 : world) : Prop :=
  inst w1 = inst w2 /\ (forall k, k <> n -> props w1 !! k = props w2 !! k) /\
  match props w1 !! n, props w2 !! n with
  | None, None => True
  | Some p1, Some p2 => plazy p1 = plazy p2 /\ (plazy p1 = None -> pvalue p1 = pvalue p2)
  | _, _ => False
  end.

(** The attribute [n] of the class has been read: its [lazy] is gone. *)
Definition forced (n : string) (w : world) : Prop :=
  exists p, props w !! n = Some p /\ plazy p = None.

(** ** Int-typed classes

    A class whose stored values are ints and whose lazy bodies add int
    constants and attributes: the typing of the demo's [Test]. *)
Definition int_val (v : pyval) : bool :=
  match v with VInt _ => true | _ => false end.

Fixpoint int_expr (e : lazyexpr) : bool :=
  match e with
  | LConst v => int_val v
  | LAttr _ => true
  | LAdd e1 e2 => int_expr e1 && int_expr e2
  end.

Definition int_desc (p : PropDesc) : Prop :=
  match plazy p with
  | None => int_val (pvalue p) = true
  | Some e => int_expr e = true
  end.

Definition int_world (w : world) : Prop :=
  map_Forall (fun _ p => int_desc p) (props w) /\ map_Forall (fun _ v => int_val v = true) (inst w).

(** The outcomes a read can have in an int-typed world: an int, or the
    two exceptions that do not depend on types. *)
Definition int_res (r : res pyval) : Prop :=
  r = Err RecursionError \/ r = Err AttributeError \/ exists z, r = Ok (VInt z).

(** * Theorems *)

(** C17: the statements of the [__main__] block, run on a fresh
    instance of [Test] with any int [q] assigned to [question] and any
    value [v] to [answer], print [q + 1] (the lazy [answer], computed at
    the first read from the [question] assigned before it) and then
    [v] (assigned after that read), and raise nothing, whatever the
    recursion budget beyond the two nested reads. *)
Theorem lazy_demo (q : Z) (v : pyval) (fuel : nat) :
  match run (S (S fuel)) Test_class
          [SAssign 0 "question" (VInt q); SPrint 0 "answer"; SAssign 0 "answer" v; SPrint 0 "answer"]
  with (_, out, ex) => out = [VInt (q + 1); v] /\ ex = None end.
Proof. vm_compute. split; reflexivity. Qed.

(** With the block's own values, 72 and 37, it prints [73] and [37]. *)
Lemma lazy_demo_witness :
  lazy_main = ([String.list_ascii_of_string "73"; String.list_ascii_of_string "37"], None) /\
  match run 1000 Test_class demo_script with (_, out, ex) => out = [VInt 73; VInt 37] /\ ex = None end.
Proof. split; [vm_compute; reflexivity | exact (lazy_demo 72 (VInt 37) 998)]. Defined.

(** C27: in the usage example of the module comment, with instances
    [a] and [b] and any strings [x] and [y]: after [a.name = x],
    [a.title] is ["Mr. " + x]; after [b.name = y], [b.title] is still
    ["Mr. " + x] and [a.name] is [y]: the title is computed once, from
    the name at the first read, and the name is one value shared by all
    instances. *)
Theorem usage_example (x y : string) (fuel : nat) :
  match run (S (S fuel)) MyClass
    [SAssign 0 "name" (VStr x); SPrint 0 "title";
     SAssign 1 "name" (VStr y); SPrint 1 "title"; SPrint 0 "name"]
  with (_, out, ex) => out = [VStr (String.append "Mr. " x); VStr (String.append "Mr. " x); VStr y] /\ ex = None end.
Proof. vm_compute. split; reflexivity. Qed.

(** ** Agreement: the stored value of a pending attribute is unobservable *)

Lemma agree_refl (n : string) (w : world) : agree n w w.
Proof.
  split; [reflexivity|]. split; [reflexivity|].
  destruct (props w !! n); [split; reflexivity | exact I].
Qed.

Lemma agree_set_prop (n k : string) (p : PropDesc) (w1 w2 : world) :
  agree n w1 w2 -> agree n (set_prop w1 k p) (set_prop w2 k p).
Proof.
  intros [Hi [Hk Hn]]. split; [exact Hi|]. unfold set_prop; simpl. split.
  - intros j Hj. destruct (decide (k = j)) as [->|Hne].
    + rewrite !lookup_insert_eq. reflexivity.
    + rewrite !lookup_insert_ne by exact Hne. apply Hk, Hj.
  - destruct (decide (k = n)) as [->|Hne].
    + rewrite !lookup_insert_eq. split; reflexivity.
    + rewrite !lookup_insert_ne by exact Hne. exact Hn.
Qed.

Section EvalAgree.
Variable n : string.
Variables g1 g2 : world -> string -> world * res pyval.
Hypothesis Hg : forall w1 w2 m, agree n w1 w2 ->
  snd (g1 w1 m) = snd (g2 w2 m) /\ agree n (fst (g1 w1 m)) (fst (g2 w2 m)).

Lemma eval_agree (e : lazyexpr) (w1 w2 : world) :
  agree n w1 w2 ->
  snd (eval_lazy g1 w1 e) = snd (eval_lazy g2 w2 e) /\
  agree n (fst (eval_lazy g1 w1 e)) (fst (eval_lazy g2 w2 e)).
Proof.
  revert w1 w2; induction e as [v|m|e1 IH1 e2 IH2]; intros w1 w2 Ha; simpl; [auto | apply Hg, Ha |].
  destruct (IH1 w1 w2 Ha) as [Hr1 Ha1].
  destruct (eval_lazy g1 w1 e1) as [w1' [v1|x1]], (eval_lazy g2 w2 e1) as [w2' [v2|x2]];
    simpl in *; try discriminate; [|injection Hr1 as ->; auto].
  injection Hr1 as ->. destruct (IH2 w1' w2' Ha1) as [Hr2 Ha2].
  destruct (eval_lazy g1 w1' e2) as [u1 [y1|z1]], (eval_lazy g2 w2' e2) as [u2 [y2|z2]];
    simpl in *; try discriminate; [injection Hr2 as -> | injection Hr2 as ->]; auto.
Qed.
End EvalAgree.

Ltac lazy_branch IH Ha f o e w1 w2 :=
  destruct (eval_agree _ (fun w k => get f w o k) (fun w k => get f w o k)
              (fun u1 u2 k H => IH u1 u2 k H) e w1 w2 Ha) as [Hr Ha'];
  destruct (eval_lazy (fun w k => get f w o k) w1 e) as [u1 [v1|x1]],
           (eval_lazy (fun w k => get f w o k) w2 e) as [u2 [v2|x2]];
  simpl in *; try discriminate; injection Hr as ->; simpl; auto using agree_set_prop.

(** Reads on agreeing worlds return the same result and leave agreeing
    worlds. *)
Lemma get_agree (n : string) (fuel : nat) (o : nat) (w1 w2 : world) (m : string) :
  agree n w1 w2 ->
  snd (get fuel w1 o m) = snd (get fuel w2 o m) /\
  agree n (fst (get fuel w1 o m)) (fst (get fuel w2 o m)).
Proof.
  revert w1 w2 m; induction fuel as [|f IH]; intros w1 w2 m Ha; [simpl; auto|].
  pose proof Ha as [Hi [Hk Hn]]. simpl. destruct (decide (m = n)) as [->|Hne].
  - destruct (props w1 !! n) as [p1|], (props w2 !! n) as [p2|]; try contradiction.
    + destruct Hn as [Hl Hv]. rewrite <- Hl. destruct (plazy p1) as [e|]; [|rewrite Hv by reflexivity; auto].
      lazy_branch IH Ha f o e w1 w2.
    + rewrite Hi. destruct (inst w2 !! (o, n)); auto.
  - rewrite (Hk m Hne). destruct (props w2 !! m) as [p|]; [|rewrite Hi; destruct (inst w2 !! (o, m)); auto].
    destruct (plazy p) as [e|]; [|auto]. lazy_branch IH Ha f o e w1 w2.
Qed.

(** Agreement is an equivalence, and reads, assignments and whole
    scripts respect it: they cannot tell agreeing worlds apart. *)
#[export] Instance agree_equivalence (n : string) : Equivalence (agree n).
Proof.
  split.
  - intros w. apply agree_refl.
  - intros w1 w2 [Hi [Hk Hn]]. split; [symmetry; exact Hi|].
    split; [intros k Hne; symmetry; apply Hk, Hne|].
    destruct (props w1 !! n), (props w2 !! n); try contradiction; [|exact I].
    destruct Hn as [Hl Hv]. split; [symmetry; exact Hl|]. intros H. symmetry. apply Hv. congruence.
  - intros w1 w2 w3 [Hi1 [Hk1 Hn1]] [Hi2 [Hk2 Hn2]]. split; [congruence|].
    split; [intros k Hne; rewrite Hk1, Hk2 by exact Hne; reflexivity|].
    destruct (props w1 !! n), (props w2 !! n), (props w3 !! n); try contradiction; try exact I.
    destruct Hn1 as [Hl1 Hv1], Hn2 as [Hl2 Hv2]. split; [congruence|].
    intros H. rewrite Hv1, Hv2 by congruence. reflexivity.
Qed.

#[export] Instance set_attr_proper (n : string) : Proper (agree n ==> eq ==> eq ==> eq ==> agree n) set_attr.
Proof.
  intros w1 w2 Ha o _ <- m _ <- v _ <-. pose proof Ha as [Hi [Hk Hn]]. unfold set_attr.
  destruct (decide (m = n)) as [->|Hne].
  - destruct (props w1 !! n) as [p1|], (props w2 !! n) as [p2|]; try contradiction.
    + destruct Hn as [Hl _]. rewrite Hl. apply agree_set_prop, Ha.
    + split; [simpl; rewrite Hi; reflexivity|]. exact (proj2 Ha).
  - rewrite (Hk m Hne). destruct (props w2 !! m) as [p|]; [apply agree_set_prop, Ha|].
    split; [simpl; rewrite Hi; reflexivity|]. exact (proj2 Ha).
Qed.

(** Results of a read, related by agreement of the worlds and equality
    of the outcomes. *)
Definition res_agree (n : string) (a b : world * res pyval) : Prop :=
  agree n (fst a) (fst b) /\ snd a = snd b.

#[export] Instance get_proper (n : string) : Proper (eq ==> agree n ==> eq ==> eq ==> res_agree n) get.
Proof.
  intros f _ <- w1 w2 Ha o _ <- m _ <-. destruct (get_agree n f o w1 w2 m Ha) as [Hr Ha']. split; assumption.
Qed.

(** Results of a script: agreeing final worlds, the same output and the
    same exception. *)
Definition run_agree (n : string) (a b : world * list pyval * option pyexc) : Prop :=
  agree n (fst (fst a)) (fst (fst b)) /\ snd (fst a) = snd (fst b) /\ snd a = snd b.

#[export] Instance run_proper (n : string) : Proper (eq ==> agree n ==> eq ==> run_agree n) run.
Proof.
  intros f _ <- w1 w2 Ha ss _ <-. revert w1 w2 Ha.
  induction ss as [|[o m|o m v] ss IH]; intros w1 w2 Ha; simpl.
  - split; [exact Ha | auto].
  - destruct (get_proper n f f eq_refl w1 w2 Ha o o eq_refl m m eq_refl) as [Ha' Hr].
    destruct (get f w1 o m) as [u1 r1], (get f w2 o m) as [u2 r2]. simpl in *. subst r2.
    destruct r1 as [v|x]; [|split; [exact Ha' | auto]].
    destruct (IH u1 u2 Ha') as [Hw [Ho He]].
    destruct (run f u1 ss) as [[a1 o1] e1], (run f u2 ss) as [[a2 o2] e2]. simpl in *. subst.
    split; [exact Hw | auto].
  - apply IH. apply set_attr_proper; auto.
Qed.

Lemma set_attr_pending (w : world) (o : nat) (n : string) (p : PropDesc) (e : lazyexpr) (v1 v2 : pyval) :
  props w !! n = Some p -> plazy p = Some e -> agree n (set_attr w o n v1) (set_attr w o n v2).
Proof.
  intros Hp He. unfold set_attr. rewrite Hp. split; [reflexivity|]. unfold set_prop; simpl. split.
  - intros k Hk. rewrite !lookup_insert_ne by congruence. reflexivity.
  - rewrite !lookup_insert_eq. simpl. rewrite He. split; [reflexivity | discriminate].
Qed.

(** C18: while the [lazy] of a [Prop] attribute is pending, what is
    assigned to it is lost: whatever script of reads and assignments
    follows the assignment, through any instances, it prints the same
    values and raises the same exception whichever value was
    assigned.  The comment promises that a lazy property "can be
    assigned a value". *)
Theorem assign_before_read_lost (fuel : nat) (w : world) (o : nat) (n : string)
    (p : PropDesc) (e : lazyexpr) (v1 v2 : pyval) (ss : list stmt) :
  props w !! n = Some p -> plazy p = Some e ->
  snd (fst (run fuel w (SAssign o n v1 :: ss))) = snd (fst (run fuel w (SAssign o n v2 :: ss))) /\
  snd (run fuel w (SAssign o n v1 :: ss)) = snd (run fuel w (SAssign o n v2 :: ss)).
Proof.
  intros Hp He. simpl.
  destruct (run_proper n fuel fuel eq_refl _ _ (set_attr_pending w o n p e v1 v2 Hp He) ss ss eq_refl)
    as [_ [Ho Hx]].
  split; assumption.
Qed.

Lemma assign_before_read_lost_witness :
  props Test_class !! "answer" = Some (Prop_init VNone (Some (LAdd (LAttr "question") (LConst (VInt 1))))) /\
  plazy (Prop_init VNone (Some (LAdd (LAttr "question") (LConst (VInt 1))))) =
    Some (LAdd (LAttr "question") (LConst (VInt 1))) /\
  snd (fst (run 100 Test_class [SAssign 0 "answer" (VInt 37); SPrint 1 "answer"])) =
    snd (fst (run 100 Test_class [SAssign 0 "answer" (VInt 5); SPrint 1 "answer"])) /\
  snd (run 100 Test_class [SAssign 0 "answer" (VInt 37); SPrint 1 "answer"]) =
    snd (run 100 Test_class [SAssign 0 "answer" (VInt 5); SPrint 1 "answer"]).
Proof.
  split; [reflexivity|]. split; [reflexivity|].
  apply (assign_before_read_lost 100 Test_class 0 "answer"
           (Prop_init VNone (Some (LAdd (LAttr "question") (LConst (VInt 1)))))
           (LAdd (LAttr "question") (LConst (VInt 1)))); reflexivity.
Defined.

(** On the demo's class, [test.answer = 37] before any read of
    [answer] is overwritten: the script prints 42, [question + 1]. *)
Theorem lazy_assign_first :
  exists w, run 100 Test_class [SAssign 0 "answer" (VInt 37); SPrint 0 "answer"] = (w, [VInt 42], None).
Proof. eexists. vm_compute. reflexivity. Qed.

(** C20: a value assigned to a [Prop] attribute is stored on the
    descriptor, in the class, not on the instance: the assignment
    changes the world in the same way whichever instance makes it and
    leaves every instance dictionary as it was; and once the [Prop] has
    no pending [lazy] (it has been read, or was given none), every
    instance reads the value assigned through any of them. *)
Theorem shared_between_instances (fuel : nat) (w : world) (o1 o2 : nat) (n : string)
    (p : PropDesc) (v : pyval) :
  props w !! n = Some p ->
  set_attr w o1 n v = set_attr w o2 n v /\ inst (set_attr w o1 n v) = inst w /\
  (plazy p = None -> get (S fuel) (set_attr w o1 n v) o2 n = (set_attr w o1 n v, Ok v)).
Proof.
  intros Hp. unfold set_attr. rewrite Hp. split; [reflexivity|]. split; [reflexivity|].
  intros He. simpl. rewrite lookup_insert_eq. simpl. rewrite He. reflexivity.
Qed.

Lemma shared_between_instances_witness :
  props Test_class !! "question" = Some (Prop_init (VInt 41) None) /\
  plazy (Prop_init (VInt 41) None) = None /\
  get 1 (set_attr Test_class 1 "question" (VInt 72)) 2 "question" =
    (set_attr Test_class 1 "question" (VInt 72), Ok (VInt 72)).
Proof.
  split; [reflexivity|]. split; [reflexivity|].
  apply (shared_between_instances 0 Test_class 1 2 "question" (Prop_init (VInt 41) None)); reflexivity.
Defined.

Lemma get_caches (fuel : nat) (w w' : world) (o : nat) (n : string) (v : pyval) :
  props w !! n <> None -> get fuel w o n = (w', Ok v) ->
  exists p, props w' !! n = Some p /\ plazy p = None /\ pvalue p = v.
Proof.
  intros Hn Hg. destruct fuel as [|f]; [discriminate|]. simpl in Hg.
  destruct (props w !! n) as [p|] eqn:Hp; [|congruence].
  destruct (plazy p) as [e|] eqn:He.
  - destruct (eval_lazy (fun w n => get f w o n) w e) as [u [v'|x]]; [|discriminate].
    injection Hg as <- <-. eexists. unfold set_prop. simpl. rewrite lookup_insert_eq. auto.
  - injection Hg as <- <-. eauto.
Qed.

(** C21: [lazy] runs at most once: after a read of a [Prop] attribute
    returns [v], every later read, through any instance, returns [v]
    and changes nothing. *)
Theorem lazy_evaluated_once (fuel fuel' : nat) (w w' : world) (o o' : nat) (n : string) (v : pyval) :
  props w !! n <> None -> get fuel w o n = (w', Ok v) ->
  get (S fuel') w' o' n = (w', Ok v).
Proof.
  intros Hn Hg. destruct (get_caches fuel w w' o n v Hn Hg) as [p [Hp [He Hv]]].
  simpl. rewrite Hp, He, Hv. reflexivity.
Qed.

Lemma lazy_evaluated_once_witness :
  props Test_class !! "answer" <> None /\
  get 10 Test_class 0 "answer" = (fst (get 10 Test_class 0 "answer"), Ok (VInt 42)) /\
  get 1 (fst (get 10 Test_class 0 "answer")) 3 "answer" = (fst (get 10 Test_class 0 "answer"), Ok (VInt 42)).
Proof.
  assert (Hn : props Test_class !! "answer" <> None) by discriminate.
  assert (Hg : get 10 Test_class 0 "answer" = (fst (get 10 Test_class 0 "answer"), Ok (VInt 42)))
    by (vm_compute; reflexivity).
  split; [exact Hn|]. split; [exact Hg|].
  exact (lazy_evaluated_once 10 0 Test_class _ 0 3 "answer" (VInt 42) Hn Hg).
Defined.

(** C22: a [Prop] whose [lazy] reads the attribute itself
    ([x = Prop(lazy=lambda self: self.x)]) raises [RecursionError] on
    every read, whatever the budget, and changes nothing. *)
Theorem self_lazy_recursion (fuel : nat) (w : world) (o : nat) (n : string) (p : PropDesc) :
  props w !! n = Some p -> plazy p = Some (LAttr n) -> get fuel w o n = (w, Err RecursionError).
Proof.
  intros Hp He. induction fuel as [|f IH]; [reflexivity|].
  simpl. rewrite Hp, He. simpl. rewrite IH. reflexivity.
Qed.

Definition self_class : world :=
  {| props := <["x" := Prop_init VNone (Some (LAttr "x"))]> ∅; inst := ∅ |}.

Lemma self_lazy_recursion_witness :
  props self_class !! "x" = Some (Prop_init VNone (Some (LAttr "x"))) /\
  plazy (Prop_init VNone (Some (LAttr "x"))) = Some (LAttr "x") /\
  get 1000 self_class 0 "x" = (self_class, Err RecursionError).
Proof.
  split; [reflexivity|]. split; [reflexivity|].
  apply (self_lazy_recursion 1000 self_class 0 "x" (Prop_init VNone (Some (LAttr "x")))); reflexivity.
Defined.

(** ** Forced attributes stay forced *)

Lemma set_prop_forced (n m : string) (w : world) (p : PropDesc) :
  forced n w -> (m = n -> plazy p = None) -> forced n (set_prop w m p).
Proof.
  intros [q [Hq Hl]] Hm. unfold forced, set_prop. simpl.
  destruct (decide (m = n)) as [->|Hne].
  - rewrite lookup_insert_eq. eauto.
  - rewrite lookup_insert_ne by exact Hne. eauto.
Qed.

Lemma eval_forced (n : string) (g : world -> string -> world * res pyval) (w : world) (e : lazyexpr) :
  (forall w m, forced n w -> forced n (fst (g w m))) -> forced n w ->
  forced n (fst (eval_lazy g w e)).
Proof.
  intros Hg. revert w; induction e as [v|m|e1 IH1 e2 IH2]; intros w Hw; simpl; auto.
  specialize (IH1 w Hw). destruct (eval_lazy g w e1) as [w1 [v1|x1]]; simpl in *; [|exact IH1].
  specialize (IH2 w1 IH1). destruct (eval_lazy g w1 e2) as [w2 [v2|x2]]; exact IH2.
Qed.

Lemma get_forced (n : string) (fuel : nat) (w : world) (o : nat) (m : string) :
  forced n w -> forced n (fst (get fuel w o m)).
Proof.
  revert w m; induction fuel as [|f IH]; intros w m Hw; [exact Hw|]. simpl.
  destruct (props w !! m) as [p|]; [|destruct (inst w !! (o, m)); exact Hw].
  destruct (plazy p) as [e|]; [|exact Hw].
  pose proof (eval_forced n (fun w k => get f w o k) w e (fun w k H => IH w k H) Hw) as He.
  destruct (eval_lazy (fun w k => get f w o k) w e) as [u [v|x]]; [|exact He].
  apply set_prop_forced; [exact He | reflexivity].
Qed.

Lemma set_attr_forced (n : string) (w : world) (o : nat) (m : string) (v : pyval) :
  forced n w -> forced n (set_attr w o m v).
Proof.
  intros Hw. unfold set_attr. destruct (props w !! m) as [p|] eqn:Hp; [|exact Hw].
  apply set_prop_forced; [exact Hw|]. intros ->. destruct Hw as [q [Hq Hl]]. simpl. congruence.
Qed.

(** C23: once a [Prop] attribute has been forced (its [lazy] cleared),
    no script of reads and assignments makes it pending again. *)
Theorem run_keeps_forced (fuel : nat) (w : world) (ss : list stmt) (n : string) :
  forced n w -> forced n (fst (fst (run fuel w ss))).
Proof.
  revert w; induction ss as [|[o m|o m v] ss IH]; intros w Hw; simpl; [exact Hw| |].
  - pose proof (get_forced n fuel w o m Hw) as Hg.
    destruct (get fuel w o m) as [w' [v|x]]; simpl in *; [|exact Hg].
    specialize (IH w' Hg). destruct (run fuel w' ss) as [[w'' out] ex]. exact IH.
  - apply IH, set_attr_forced, Hw.
Qed.

Lemma run_keeps_forced_witness :
  forced "question" Test_class /\ forced "question" (fst (fst (run 100 Test_class demo_script))).
Proof.
  assert (H : forced "question" Test_class) by (eexists; split; reflexivity).
  split; [exact H | apply run_keeps_forced, H].
Defined.

(** ** Reads and assignments keep a class int-typed *)

Lemma int_world_set_prop (w : world) (n : string) (p : PropDesc) :
  int_world w -> int_desc p -> int_world (set_prop w n p).
Proof. intros [Hp Hi] Hd. split; [apply map_Forall_insert_2; assumption | exact Hi]. Qed.

Section EvalTyped.
Variable getter : world -> string -> world * res pyval.
Hypothesis Hg : forall w m, int_world w -> int_world (fst (getter w m)) /\ int_res (snd (getter w m)).

Lemma eval_typed (e : lazyexpr) (w : world) :
  int_expr e = true -> int_world w ->
  int_world (fst (eval_lazy getter w e)) /\ int_res (snd (eval_lazy getter w e)).
Proof.
  revert w; induction e as [v|m|e1 IH1 e2 IH2]; intros w He Hw; simpl in *.
  - split; [exact Hw|]. destruct v; try discriminate. right; right; eauto.
  - apply Hg, Hw.
  - apply andb_true_iff in He as [He1 He2]. destruct (IH1 w He1 Hw) as [Hw1 Hr1].
    destruct (eval_lazy getter w e1) as [w1 r1]. simpl in *.
    destruct Hr1 as [->|[->|[z1 ->]]]; simpl; [split; [exact Hw1 | left; reflexivity] |
                                                split; [exact Hw1 | right; left; reflexivity] |].
    destruct (IH2 w1 He2 Hw1) as [Hw2 Hr2]. destruct (eval_lazy getter w1 e2) as [w2 r2]. simpl in *.
    destruct Hr2 as [->|[->|[z2 ->]]]; simpl; (split; [exact Hw2|]); unfold int_res; eauto.
Qed.
End EvalTyped.

Lemma get_typed (fuel : nat) (w : world) (o : nat) (n : string) :
  int_world w -> int_world (fst (get fuel w o n)) /\ int_res (snd (get fuel w o n)).
Proof.
  revert w n; induction fuel as [|f IH]; intros w n Hw; simpl; [split; [exact Hw | left; reflexivity]|].
  pose proof Hw as [Hp Hi]. destruct (props w !! n) as [p|] eqn:E.
  - specialize (Hp n p E). unfold int_desc in Hp. destruct (plazy p) as [e|].
    + destruct (eval_typed (fun w k => get f w o k) (fun w k H => IH w k H) e w Hp Hw) as [Hw' Hr].
      destruct (eval_lazy (fun w k => get f w o k) w e) as [w' r]. simpl in *.
      destruct Hr as [->|[->|[z ->]]]; simpl; [split; [exact Hw' | left; reflexivity] |
                                              split; [exact Hw' | right; left; reflexivity] |].
      split; [apply int_world_set_prop; [exact Hw' | reflexivity] | right; right; eauto].
    + simpl. split; [exact Hw|]. destruct (pvalue p); try discriminate. right; right; eauto.
  - destruct (inst w !! (o, n)) as [v|] eqn:Ev; simpl; [|split; [exact Hw | right; left; reflexivity]].
    split; [exact Hw|]. specialize (Hi (o, n) v Ev). destruct v; try discriminate. right; right; eauto.
Qed.

Lemma set_attr_typed (w : world) (o : nat) (n : string) (v : pyval) :
  int_world w -> int_val v = true -> int_world (set_attr w o n v).
Proof.
  intros [Hp Hi] Hv. unfold set_attr. destruct (props w !! n) as [p|] eqn:E.
  - apply int_world_set_prop; [split; assumption|]. unfold int_desc. simpl.
    specialize (Hp n p E). unfold int_desc in Hp. destruct (plazy p); [exact Hp | exact Hv].
  - split; [exact Hp|]. apply map_Forall_insert_2; assumption.
Qed.

(** A script that assigns only ints. *)
Definition int_stmt (st : stmt) : bool :=
  match st with SPrint _ _ => true | SAssign _ _ v => int_val v end.

(** C30: a class whose stored values are ints and whose lazy bodies
    add ints stays so under any script that assigns ints: the script
    prints only ints and never raises [TypeError]; the only exceptions
    it can raise are [RecursionError] and [AttributeError]. *)
Theorem run_typed (fuel : nat) (w : world) (ss : list stmt) :
  int_world w -> forallb int_stmt ss = true ->
  int_world (fst (fst (run fuel w ss))) /\
  Forall (fun v => int_val v = true) (snd (fst (run fuel w ss))) /\
  (snd (run fuel w ss) = None \/ snd (run fuel w ss) = Some RecursionError \/
   snd (run fuel w ss) = Some AttributeError).
Proof.
  revert w; induction ss as [|[o m|o m v] ss IH]; intros w Hw Hs; simpl in *.
  - auto.
  - destruct (get_typed fuel w o m Hw) as [Hw' Hr].
    destruct (get fuel w o m) as [w' r]. simpl in *.
    destruct Hr as [->|[->|[z ->]]]; [auto | auto |].
    destruct (IH w' Hw' Hs) as [H1 [H2 H3]].
    destruct (run fuel w' ss) as [[w'' out] ex]. simpl in *. auto.
  - apply andb_true_iff in Hs as [Hv Hs]. apply IH; [apply set_attr_typed|]; assumption.
Qed.

Lemma run_typed_witness :
  int_world Test_class /\ forallb int_stmt demo_script = true /\
  int_world (fst (fst (run 100 Test_class demo_script))) /\
  Forall (fun v => int_val v = true) (snd (fst (run 100 Test_class demo_script))) /\
  (snd (run 100 Test_class demo_script) = None \/
   snd (run 100 Test_class demo_script) = Some RecursionError \/
   snd (run 100 Test_class demo_script) = Some AttributeError).
Proof.
  assert (Hw : int_world Test_class).
  { split; [|apply map_Forall_empty]. unfold Test_class. simpl.
    apply map_Forall_insert_2; [reflexivity|]. apply map_Forall_insert_2; [reflexivity | apply map_Forall_empty]. }
  split; [exact Hw|]. split; [reflexivity|]. apply run_typed; [exact Hw | reflexivity].
Defined.

(** ** Reading a [Prop] on the class *)

Lemma eval_on_None (w : world) (e : lazyexpr) :
  fst (eval_lazy (fun w _ => (w, Err AttributeError)) w e) = w /\
  (reads_self e = true -> exists x, snd (eval_lazy (fun w _ => (w, Err AttributeError)) w e) = Err x).
Proof.
  induction e as [v|n|e1 [IH1w IH1e] e2 [IH2w IH2e]]; simpl; [split; [reflexivity|discriminate]|eauto|].
  destruct (eval_lazy _ w e1) as [w1 [v1|x1]] eqn:E1; simpl in *; subst w1; [|split; eauto].
  destruct (eval_lazy _ w e2) as [w2 [v2|x2]] eqn:E2; simpl in *; subst w2; split; eauto.
  rewrite orb_true_iff. intros [H|H]; [destruct (IH1e H); discriminate | destruct (IH2e H); discriminate].
Qed.

(** C34: reading on the class (not an instance) a [Prop] whose pending
    [lazy] reads an attribute of [self] calls it on [None]: it raises,
    and the descriptor keeps its pending [lazy], so the first read
    through an instance still runs it; [Test.answer] raises
    [AttributeError] while [Test.question] is 41. *)
Theorem class_read_lazy (w : world) (n : string) (p : PropDesc) (e : lazyexpr) :
  props w !! n = Some p -> plazy p = Some e -> reads_self e = true ->
  exists x, get_class w n = (w, Err x).
Proof.
  intros Hp He Hr. unfold get_class. rewrite Hp, He.
  destruct (eval_on_None w e) as [Hw Herr]. destruct (Herr Hr) as [x Hx].
  destruct (eval_lazy _ w e) as [w' r]. simpl in *. subst. eauto.
Qed.

Lemma class_read_lazy_witness :
  (exists x, get_class Test_class "answer" = (Test_class, Err x)) /\
  get_class Test_class "answer" = (Test_class, Err AttributeError) /\
  get_class Test_class "question" = (Test_class, Ok (VInt 41)).
Proof.
  split; [exact (class_read_lazy Test_class "answer" _ _ eq_refl eq_refl eq_refl)|].
  split; reflexivity.
Defined.
